(** * inselect/lib/metadata.py: metadata templates and document validation

    A shallow embedding of [inselect.lib.metadata] (Python 2) and the
    properties of it that the specification states.

    Conventions of the embedding
    - a Python call that may raise is a value of [outcome]; a call that
      also mutates an object its caller can see returns the object's new
      state next to the outcome;
    - [box['fields']] is a [gmap string string];
    - the dicts that the module iterates over ([_fields_mapping],
      [_parse_mapping], [Counter(labels)], ...) are insertion-ordered
      association lists together with an iteration order [DictOrder]:
      Python 2 dicts iterate in hash-table order, not insertion order. *)

From Stdlib Require Import ZArith Ascii String List.
From stdpp Require Import gmap strings list sorting.
#[local] Set Warnings "-clear-no-such-hyp".
Import ListNotations.
Local Open Scope string_scope.

(** ** Python values, exceptions and results *)

(** The argument tuples of the formatted [ValueError] messages: one
    constructor per message template of the module. *)
Inductive message :=
| Msg_no_field_name
    (* u'One or more fields do not have a name' *)
| Msg_duplicated_fields (names : list string)
    (* u'Duplicated fields {0}' *)
| Msg_both_choices (name : string)
    (* u'Both "Choices" and "ChoicesWithData" given for for [{0}]' *)
| Msg_duplicated_choices (name : string) (labels : list string)
    (* u'Duplicated "Choices" label for [{0}]: {1}' *)
| Msg_empty_choices (name : string)
    (* u'Empty "Choices" for [{0}]' *)
| Msg_value_field (value_field : string)
    (* u'A field named "{0}" cannot be defined' *)
| Msg_duplicated_choices_with_data (name : string) (labels : list string)
    (* u'Duplicated "ChoicesWithData" label for [{0}]: {1}' *)
| Msg_empty_choices_with_data (name : string)
    (* u'Empty "ChoicesWithData" for [{0}]' *)
| Msg_no_template_name
    (* 'No template name' *)
| Msg_no_fields
    (* 'No fields' *)
| Msg_invalid_suffix (suffix : string)
    (* u'Invalid cropped file suffix [{0}]' *)
| Msg_unpack
    (* tuple unpacking of a value that is not a pair *)
| Msg_parse (value : string)
    (* raised by a field parser *).

Inductive exn :=
| ValueError (m : message)
| KeyError (key : string)
| NameError (name : string)
| AttributeError (cls attr : string).

Inductive outcome (A : Type) :=
| Return (a : A)
| Raise (e : exn).
Arguments Return {A} a.
Arguments Raise {A} e.

Definition obind {A B} (c : outcome A) (k : A -> outcome B) : outcome B :=
  match c with
  | Return a => k a
  | Raise e => Raise e
  end.

Declare Scope py_scope.
Delimit Scope py_scope with py.
Notation "x <- c ;; k" := (obind c (fun x => k))
  (at level 100, c at next level, right associativity) : py_scope.
Notation "c ;;; k" := (obind c (fun _ => k))
  (at level 100, right associativity) : py_scope.

Definition returns {A} (c : outcome A) : Prop := exists a, c = Return a.
Definition raises {A} (c : outcome A) : Prop := exists e, c = Raise e.

(** [for x in l: body(x)] where the body may raise. *)
Fixpoint for_each {A} (l : list A) (body : A -> outcome unit) : outcome unit :=
  match l with
  | [] => Return tt
  | x :: l' => (body x ;;; for_each l' body)%py
  end.

(** Truthiness of a string ([not s] is [negb (truthy s)]) and of the
    result of [dict.get] ([None] is falsy). *)
Definition truthy (s : string) : bool := negb (String.eqb s "").
Definition truthy_opt (o : option string) : bool :=
  match o with
  | Some s => truthy s
  | None => false
  end.

(** ** Python 2 dicts that are iterated over *)

(** The order in which a Python 2 [dict] yields its keys depends on the
    keys' hashes and on the history of the hash table.  For a dict that
    was only ever inserted into, it is a function of the sequence of
    distinct keys in insertion order.  All the language promises is that
    every key is yielded exactly once. *)
Record DictOrder := {
  iter_order :> list string -> list string;
  iter_order_perm : forall l, NoDup l -> iter_order l ≡ₚ l
}.

Section PyDict.
Context {V : Type}.

(** Items in insertion order, keys pairwise distinct. *)
Definition pydict := list (string * V).

Fixpoint dict_get (d : pydict) (k : string) : option V :=
  match d with
  | [] => None
  | (k', v) :: d' => if decide (k = k') then Some v else dict_get d' k
  end.

(** [d[k] = v]: a known key keeps its place in the table. *)
Fixpoint dict_setitem (d : pydict) (k : string) (v : V) : pydict :=
  match d with
  | [] => [(k, v)]
  | (k', v') :: d' =>
      if decide (k = k') then (k, v) :: d'
      else (k', v') :: dict_setitem d' k v
  end.

(** [dict(items)], [{k: v for ...}], [OrderedDict(items)]. *)
Definition dict_from_items (items : list (string * V)) : pydict :=
  fold_left (fun d kv => dict_setitem d kv.1 kv.2) items [].

Definition dict_keys (d : pydict) : list string := d.*1.

(** [d.iteritems()] *)
Definition iteritems (o : DictOrder) (d : pydict) : list (string * V) :=
  omap (fun k => pair k <$> dict_get d k) (o (dict_keys d)).

(** [d.itervalues()] *)
Definition itervalues (o : DictOrder) (d : pydict) : list V :=
  (iteritems o d).*2.
End PyDict.
Arguments pydict V : clear implicits.

(** Python 3.7 and later: iteration order is insertion order. *)
Definition insertion_order : DictOrder :=
  {| iter_order := fun l => l; iter_order_perm := fun l _ => reflexivity l |}.

(** ** inselect/lib/utils.py *)

Definition count_of (x : string) (v : list string) : nat :=
  length (filter (fun y => y = x) v).

(** Modelled from the spec: [duplicated] of inselect/lib/utils.py is not
    among the sources.  The builder uses it for "duplicate names" and
    "duplicate labels", tests its result for emptiness and sorts it: the
    set of the values that occur more than once. *)
Definition duplicated (v : list string) : gset string :=
  list_to_set (filter (fun x => 1 < count_of x v) v).

(** [sorted(list(dup))] *)
Definition sorted (l : list string) : list string :=
  merge_sort (fun a b => String.leb a b) l.

(** ** The raw template specification *)

Inductive pyobject :=
| PyNone
| PyInt (n : Z)
| PyStr (s : string).

(** A field parser: the parsed value, or [None] when it raises
    [ValueError]. *)
Definition parser := string -> option pyobject.

Definition call_parser (parse : parser) (value : string) : outcome pyobject :=
  match parse value with
  | Some v => Return v
  | None => Raise (ValueError (Msg_parse value))
  end.

(** The value under ['ChoicesWithData']: the list of (label, data) pairs
    of the raw specification, or the [OrderedDict] that the builder puts
    in its place. *)
Inductive choices_with_data :=
| CWD_list (pairs : list (string * string))
| CWD_ordered (d : pydict string).

(** One dict of ['Fields']; [None] is an absent key. *)
Record FieldSpec := {
  Name : option string;
  Mandatory : option bool;
  Choices : option (list string);
  ChoicesWithData : option choices_with_data;
  Parser : option parser
}.

Record TemplateSpec := {
  spec_Name : option string;                  (* 'Name' *)
  spec_Object_label : option string;          (* 'Object label' *)
  spec_Cropped_file_suffix : option string;   (* 'Cropped file suffix' *)
  spec_Fields : option (list FieldSpec)       (* 'Fields' *)
}.

(** [f['Name']] *)
Definition getitem_Name (f : FieldSpec) : outcome string :=
  match Name f with
  | Some n => Return n
  | None => Raise (KeyError "Name")
  end.

Fixpoint mapM {A B} (f : A -> outcome B) (l : list A) : outcome (list B) :=
  match l with
  | [] => Return []
  | x :: l' => (y <- f x ;; ys <- mapM f l' ;; Return (y :: ys))%py
  end.

(** [label, data = s] for a string [s]: only a string of two characters
    unpacks. *)
Definition unpack_pair (s : string) : outcome (string * string) :=
  match s with
  | String a (String b EmptyString) =>
      Return (String a EmptyString, String b EmptyString)
  | _ => Raise (ValueError Msg_unpack)
  end.

(** [label for label, data in field['ChoicesWithData']]; iterating an
    [OrderedDict] yields its keys. *)
Definition cwd_labels (c : choices_with_data) : outcome (list string) :=
  match c with
  | CWD_list pairs => Return pairs.*1
  | CWD_ordered d => (ps <- mapM unpack_pair (dict_keys d) ;; Return ps.*1)%py
  end.

(** [not field['ChoicesWithData']] *)
Definition cwd_empty (c : choices_with_data) : bool :=
  match c with
  | CWD_list pairs => bool_decide (pairs = [])
  | CWD_ordered d => bool_decide (d = [])
  end.

(** [OrderedDict(field['ChoicesWithData'])] *)
Definition to_OrderedDict (c : choices_with_data) : choices_with_data :=
  match c with
  | CWD_list pairs => CWD_ordered (dict_from_items pairs)
  | CWD_ordered d => CWD_ordered (dict_from_items d)
  end.

Definition value_field_name (name : string) : string := name ++ "-value".

Definition has_both (f : FieldSpec) : bool :=
  bool_decide (is_Some (Choices f)) && bool_decide (is_Some (ChoicesWithData f)).

(** Lines 35-44: the body of the loop over the fields with ['Choices']. *)
Definition validate_choices (field : FieldSpec) : outcome unit :=
  match Choices field with
  | None => Return tt
  | Some choices =>
      let dup := duplicated choices in
      if bool_decide (dup ≠ ∅) then
        (name <- getitem_Name field ;;
         Raise (ValueError (Msg_duplicated_choices name (sorted (elements dup)))))%py
      else if bool_decide (choices = []) then
        (name <- getitem_Name field ;;
         Raise (ValueError (Msg_empty_choices name)))%py
      else Return tt
  end.

(** Lines 47-62: the body of the loop over the fields with
    ['ChoicesWithData']. *)
Definition validate_choices_with_data (field_names : list string)
    (field : FieldSpec) : outcome unit :=
  match ChoicesWithData field with
  | None => Return tt
  | Some cwd =>
      (name <- getitem_Name field ;;
       let value_field := value_field_name name in
       if bool_decide (value_field ∈ field_names) then
         Raise (ValueError (Msg_value_field value_field))
       else
         labels <- cwd_labels cwd ;;
         let dup := duplicated labels in
         if bool_decide (dup ≠ ∅) then
           Raise (ValueError
                    (Msg_duplicated_choices_with_data name (sorted (elements dup))))
         else if cwd_empty cwd then
           Raise (ValueError (Msg_empty_choices_with_data name))
         else Return tt)%py
  end.

(** Lines 17-62: everything [_fields_from_template_spec] does before it
    touches a field. *)
Definition check_fields (fields : list FieldSpec) : outcome unit :=
  if existsb (fun f => bool_decide (Name f = None)) fields then
    Raise (ValueError Msg_no_field_name)
  else
    (field_names <- mapM getitem_Name fields ;;
     let dup := duplicated field_names in
     if bool_decide (dup ≠ ∅) then
       Raise (ValueError (Msg_duplicated_fields (sorted (elements dup))))
     else
       match List.find has_both fields with
       | Some bad =>
           name <- getitem_Name bad ;;
           Raise (ValueError (Msg_both_choices name))
       | None =>
           for_each fields validate_choices ;;;
           for_each fields (validate_choices_with_data field_names)
       end)%py.

(** Lines 64-65: [field['ChoicesWithData'] = OrderedDict(...)], an
    assignment into the caller's dict. *)
Definition store_OrderedDict (field : FieldSpec) : FieldSpec :=
  {| Name := Name field;
     Mandatory := Mandatory field;
     Choices := Choices field;
     ChoicesWithData := to_OrderedDict <$> ChoicesWithData field;
     Parser := Parser field |}.

(** [_fields_from_template_spec(fields)]: the state in which the call
    leaves the caller's list of field dicts, and its result.  The
    returned list is the caller's list itself. *)
Definition _fields_from_template_spec (fields : list FieldSpec)
    : list FieldSpec * outcome (list FieldSpec) :=
  match check_fields fields with
  | Raise e => (fields, Raise e)
  | Return _ =>
      let fields' := store_OrderedDict <$> fields in
      (fields', Return fields')
  end.

(** ** Records and documents *)

(** A box: the engine reads and writes only its ['fields'] dict. *)
Record Box := { fields : gmap string string }.

(** [document.items] *)
Definition Document := list Box.

(** ** class MetadataTemplate *)

Record MetadataTemplate := {
  _name : string;
  _cropped_image_suffix : option string;
  _fields : list FieldSpec;
  _object_label : string;      (* the format string bound by [partial] *)
  _fields_mapping : pydict FieldSpec;
  _choices_with_data_mapping : pydict FieldSpec;
  _parse_mapping : pydict parser;
  _mandatory : list string
}.

(** [mapping.get(key) in field['ChoicesWithData']] and
    [field['ChoicesWithData'][mapping.get(key)]] in one: the data stored
    under the label, if the label is a key.  A string is never an element
    of a list of pairs, and [None] is never a key. *)
Definition cwd_lookup (c : option choices_with_data) (label : option string)
    : option string :=
  match c, label with
  | Some (CWD_ordered d), Some l => dict_get d l
  | _, _ => None
  end.

Section Template.
(** The hash-table order of the interpreter's dicts. *)
Variable order : DictOrder.
(** [FormatDefault(default='').format] of inselect/lib/utils.py, which
    is not among the sources: format string and keyword arguments to
    the formatted text. *)
Variable FormatDefault_format : string -> gmap string string -> string.
(** [Path('x').with_suffix(s).suffix] of pathlib; [None] when it raises
    [ValueError]. *)
Variable with_suffix : string -> option string.

(** [MetadataTemplate(spec)]: the state in which the constructor leaves
    the caller's [spec], and the template or the exception. *)
Definition MetadataTemplate_init (spec : TemplateSpec)
    : TemplateSpec * outcome MetadataTemplate :=
  (* fields = _fields_from_template_spec(spec.get('Fields', [])) *)
  let '(spec', r) :=
    match spec_Fields spec with
    | None => (spec, (_fields_from_template_spec []).2)
    | Some fs =>
        let '(fs', r) := _fields_from_template_spec fs in
        ({| spec_Name := spec_Name spec;
            spec_Object_label := spec_Object_label spec;
            spec_Cropped_file_suffix := spec_Cropped_file_suffix spec;
            spec_Fields := Some fs' |}, r)
    end in
  (spec',
   (fields <- r ;;
    if negb (truthy_opt (spec_Name spec')) then
      Raise (ValueError Msg_no_template_name)
    else if bool_decide (fields = []) then
      Raise (ValueError Msg_no_fields)
    else
      suffix <-
        match spec_Cropped_file_suffix spec' with
        | Some s =>
            match with_suffix s with
            | Some suffix => Return (Some suffix)
            | None => Raise (ValueError (Msg_invalid_suffix s))
            end
        | None => Return None
        end ;;
      named <- mapM (fun f => n <- getitem_Name f ;; Return (n, f)) fields ;;
      let fields_mapping := dict_from_items named in
      Return
        {| _name := default "" (spec_Name spec');
           _cropped_image_suffix := suffix;
           _fields := fields;
           _object_label := default "{catalogNumber}" (spec_Object_label spec');
           _fields_mapping := fields_mapping;
           _choices_with_data_mapping :=
             dict_from_items
               (filter (fun nf => is_Some (ChoicesWithData nf.2)) named);
           _parse_mapping :=
             dict_from_items
               (omap (fun kv => pair kv.1 <$> Parser kv.2)
                     (iteritems order fields_mapping));
           _mandatory :=
             (filter (fun nf => Mandatory nf.2 = Some true) named).*1
        |})%py).

(** [field_names()]: the values the generator yields. *)
Definition field_names (t : MetadataTemplate) : list string :=
  flat_map (fun field =>
              match Name field with
              | Some n =>
                  n :: (if bool_decide (is_Some (ChoicesWithData field))
                        then [value_field_name n] else [])
              | None => []
              end) (_fields t).

(** One turn of the loop of [box_metadata]: the filter's test, then the
    assignment into [md]. *)
Definition box_metadata_step (md : gmap string string) (field : FieldSpec)
    : gmap string string :=
  let name := default "" (Name field) in
  match cwd_lookup (ChoicesWithData field) (md !! name) with
  | Some value => <[value_field_name name := value]> md
  | None => md
  end.

(** [box_metadata(box)]: [md] is the box's own dict, so the box after
    the call is returned next to the result. *)
Definition box_metadata (t : MetadataTemplate) (box : Box)
    : Box * gmap string string :=
  let md := fields box in
  let md := fold_left box_metadata_step
              (itervalues order (_choices_with_data_mapping t)) md in
  ({| fields := md |}, md).

(** [format_label(box)] *)
Definition format_label (t : MetadataTemplate) (box : Box) : Box * string :=
  let '(box', md) := box_metadata t box in
  (box', FormatDefault_format (_object_label t) md).

(** [md[field]] *)
Definition getitem (md : gmap string string) (key : string) : outcome string :=
  match md !! key with
  | Some v => Return v
  | None => Raise (KeyError key)
  end.

(** The generator [((k, v) for k, v in self._parse_mapping.iteritems()
    if k in set(md.keys()))]. *)
Definition parseable (t : MetadataTemplate) (md : gmap string string)
    : list (string * parser) :=
  filter (fun kv => kv.1 ∈ dom md) (iteritems order (_parse_mapping t)).

(** [validate_box(box)] *)
Definition validate_box (t : MetadataTemplate) (box : Box) : outcome bool :=
  let md := fields box in
  if existsb (fun f => negb (truthy_opt (md !! f))) (_mandatory t) then
    Return false
  else
    match
      for_each (parseable t md)
        (fun '(field, parse) =>
           v <- getitem md field ;; call_parser parse v ;;; Return tt)%py
    with
    | Raise (ValueError _) => Return false      (* except ValueError *)
    | Raise e => Raise e
    | Return _ => Return true                   (* else *)
    end.

(** [validate_field(field, value)]; the calls of [debug_print] write to
    the console when debugging is on and are left out. *)
Definition validate_field (t : MetadataTemplate) (field value : string)
    : outcome bool :=
  if bool_decide (field ∉ dict_keys (_fields_mapping t)) then
    Return true
  else if negb (truthy value) && bool_decide (field ∈ _mandatory t) then
    Return false
  else if truthy value then
    match dict_get (_parse_mapping t) field with
    | Some parse =>
        match call_parser parse value with
        | Raise (ValueError _) => Return false
        | Raise e => Raise e
        | Return _ => Return true
        end
    | None => Return true
    end
  else Return true.
End Template.

(** ** The visitor protocol *)

(** A method of a visitor: the visitor's state after the call, and
    [None] or the exception. *)
Definition method (S : Type) := S -> S * outcome unit.

(** [class MetadataVisitor]: what a traversal calls. *)
Record MetadataVisitor (S : Type) := {
  begin_visit : Document -> method S;
  missing_mandatory : nat -> string -> string -> method S;
  failed_parse : nat -> string -> string -> method S;
  missing_label : nat -> method S;
  duplicated_labels : string -> method S;
  end_visit : Document -> method S
}.
Arguments begin_visit {S} _ _ _.
Arguments missing_mandatory {S} _ _ _ _ _.
Arguments failed_parse {S} _ _ _ _ _.
Arguments missing_label {S} _ _ _.
Arguments duplicated_labels {S} _ _ _.
Arguments end_visit {S} _ _ _.

(** [pass] *)
Definition pass {S} : method S := fun s => (s, Return tt).

(** Statements in sequence: an exception ends the sequence. *)
Definition and_then {S} (m1 m2 : method S) : method S :=
  fun s =>
    match m1 s with
    | (s', Return _) => m2 s'
    | (s', Raise e) => (s', Raise e)
    end.

(** [for x in l: body(x)] over a visitor. *)
Fixpoint for_each_call {S A} (l : list A) (body : A -> method S) : method S :=
  match l with
  | [] => pass
  | x :: l' => and_then (body x) (for_each_call l' body)
  end.

(** The base class: every method is [pass]. *)
Definition MetadataVisitor_base : MetadataVisitor unit :=
  {| begin_visit := fun _ => pass;
     missing_mandatory := fun _ _ _ => pass;
     failed_parse := fun _ _ _ => pass;
     missing_label := fun _ => pass;
     duplicated_labels := fun _ => pass;
     end_visit := fun _ => pass |}.

(** *** class PrintVisitor *)

Module PrintVisitor.
(** What a name of a method body can be bound to. *)
Inductive value :=
| V_self
| V_int (n : nat)
| V_str (s : string)
| V_document (d : Document)
| V_global (id : string).

(** The arguments of the calls of [print]: string literals and names. *)
Inductive expr :=
| Str (s : string)
| Load (id : string).

(** The names bound at module level in metadata.py. *)
Definition module_globals : list string :=
  [ "print_function"; "json"; "re"; "Counter"; "namedtuple"; "OrderedDict";
    "partial"; "chain"; "count"; "ifilter"; "izip"; "Path"; "debug_print";
    "duplicated"; "FormatDefault"; "_fields_from_template_spec";
    "MetadataTemplate"; "MetadataVisitor"; "PrintVisitor"; "MissingMandatory";
    "FailedParse"; "CollectVisitor"; "ValidationProblems" ].

(** The names of Python 2.7's [__builtin__] module. *)
Definition builtins : list string :=
  [ "abs"; "all"; "any"; "apply"; "basestring"; "bin"; "bool"; "buffer";
    "bytearray"; "bytes"; "callable"; "chr"; "classmethod"; "cmp"; "coerce";
    "compile"; "complex"; "copyright"; "credits"; "delattr"; "dict"; "dir";
    "divmod"; "enumerate"; "eval"; "execfile"; "exit"; "file"; "filter";
    "float"; "format"; "frozenset"; "getattr"; "globals"; "hasattr"; "hash";
    "help"; "hex"; "id"; "input"; "int"; "intern"; "isinstance";
    "issubclass"; "iter"; "len"; "license"; "list"; "locals"; "long"; "map";
    "max"; "memoryview"; "min"; "next"; "object"; "oct"; "open"; "ord";
    "pow"; "print"; "property"; "quit"; "range"; "raw_input"; "reduce";
    "reload"; "repr"; "reversed"; "round"; "set"; "setattr"; "slice";
    "sorted"; "staticmethod"; "str"; "sum"; "super"; "tuple"; "type";
    "unichr"; "unicode"; "vars"; "xrange"; "zip"; "True"; "False"; "None";
    "Ellipsis"; "NotImplemented"; "__debug__"; "__doc__"; "__import__";
    "__name__"; "__package__";
    "ArithmeticError"; "AssertionError"; "AttributeError"; "BaseException";
    "BufferError"; "BytesWarning"; "DeprecationWarning"; "EOFError";
    "EnvironmentError"; "Exception"; "FloatingPointError"; "FutureWarning";
    "GeneratorExit"; "IOError"; "ImportError"; "ImportWarning";
    "IndentationError"; "IndexError"; "KeyError"; "KeyboardInterrupt";
    "LookupError"; "MemoryError"; "NameError"; "NotImplementedError";
    "OSError"; "OverflowError"; "PendingDeprecationWarning";
    "ReferenceError"; "RuntimeError"; "RuntimeWarning"; "StandardError";
    "StopIteration"; "SyntaxError"; "SyntaxWarning"; "SystemError";
    "SystemExit"; "TabError"; "TypeError"; "UnboundLocalError";
    "UnicodeDecodeError"; "UnicodeEncodeError"; "UnicodeError";
    "UnicodeTranslateError"; "UnicodeWarning"; "UserWarning"; "ValueError";
    "Warning"; "ZeroDivisionError" ].

(** Name lookup in a method body: the parameters, then the module's
    globals, then the builtins, else [NameError]. *)
Definition load_name (locals : list (string * value)) (id : string)
    : outcome value :=
  match dict_get locals id with
  | Some v => Return v
  | None =>
      if bool_decide (id ∈ module_globals) || bool_decide (id ∈ builtins)
      then Return (V_global id)
      else Raise (NameError id)
  end.

Definition eval (locals : list (string * value)) (e : expr) : outcome value :=
  match e with
  | Str s => Return (V_str s)
  | Load id => load_name locals id
  end.

(** The console: one entry per completed call of [print], holding the
    values printed. *)
Definition console := list (list value).

(** [print(args...)]: the arguments are evaluated, left to right,
    before anything is written. *)
Definition print (locals : list (string * value)) (args : list expr)
    : method console :=
  fun out =>
    match mapM (eval locals) args with
    | Return vs => ((out ++ [vs])%list, Return tt)
    | Raise e => (out, Raise e)
    end.

Definition begin_visit (document : Document) : method console :=
  print [("self", V_self); ("document", V_document document)]
        [Str "begin_visit"; Load "document"].

Definition missing_mandatory (index : nat) (label field : string)
    : method console :=
  print [("self", V_self); ("index", V_int index); ("label", V_str label);
         ("field", V_str field)]
        [Str "missing_mandatory"; Load "box"; Load "field"].

Definition failed_parse (index : nat) (label field : string)
    : method console :=
  print [("self", V_self); ("index", V_int index); ("label", V_str label);
         ("field", V_str field)]
        [Str "failed_parse"; Load "box"; Load "field"].

Definition missing_label (index : nat) : method console :=
  print [("self", V_self); ("index", V_int index)]
        [Str "missing_label"; Load "index"].

Definition duplicated_labels (label : string) : method console :=
  print [("self", V_self); ("label", V_str label)]
        [Str "duplicated_labels"; Load "label"].

Definition end_visit (document : Document) : method console :=
  print [("self", V_self); ("document", V_document document)]
        [Str "end_visit"; Load "document"].

Definition visitor : MetadataVisitor console :=
  Build_MetadataVisitor console begin_visit missing_mandatory failed_parse
    missing_label duplicated_labels end_visit.
End PrintVisitor.

(** *** The named tuples and class ValidationProblems *)

(** [namedtuple('MissingMandatory', ['index', 'label', 'field'])]: the
    components hold whatever the positional arguments were. *)
Module MissingMandatory.
Record t := make { index : pyobject; label : pyobject; field : pyobject }.
End MissingMandatory.

(** [namedtuple('FailedParse', ['index', 'label', 'field'])] *)
Module FailedParse.
Record t := make { index : pyobject; label : pyobject; field : pyobject }.
End FailedParse.

Module ValidationProblems.
Record t := make {
  missing_mandatory : list MissingMandatory.t;
  failed_parse : list FailedParse.t;
  missing_label : list nat;
  duplicated_labels : list string
}.

(** The property [any_problems]: an empty list is falsy. *)
Definition any_problems (p : t) : bool :=
  negb (bool_decide (missing_mandatory p = [])
        && bool_decide (failed_parse p = [])
        && bool_decide (missing_label p = [])
        && bool_decide (duplicated_labels p = [])).
End ValidationProblems.

(** *** class CollectVisitor *)

Module CollectVisitor.
(** The instance's attributes; [None] is an attribute that has not been
    assigned.  The class has no [__init__]. *)
Record t := {
  _missing_mandatory : option (list MissingMandatory.t);
  _failed_parse : option (list FailedParse.t);
  _missing_label : option (list nat);
  _duplicated_labels : option (list string)
}.

(** [CollectVisitor()] *)
Definition new : t :=
  {| _missing_mandatory := None; _failed_parse := None;
     _missing_label := None; _duplicated_labels := None |}.

(** [self.<attr>] *)
Definition getattr {A} (attr : string) (a : option A) : outcome A :=
  match a with
  | Some v => Return v
  | None => Raise (AttributeError "CollectVisitor" attr)
  end.

Definition begin_visit (document : Document) : method t :=
  fun _ =>
    ({| _missing_mandatory := Some []; _failed_parse := Some [];
        _missing_label := Some []; _duplicated_labels := Some [] |},
     Return tt).

Definition missing_mandatory (index : nat) (label field : string) : method t :=
  fun self =>
    match getattr "_missing_mandatory" (_missing_mandatory self) with
    | Return l =>
        ({| _missing_mandatory :=
              Some (l ++ [MissingMandatory.make (PyInt (Z.of_nat index))
                                                (PyStr label) (PyStr field)])%list;
            _failed_parse := _failed_parse self;
            _missing_label := _missing_label self;
            _duplicated_labels := _duplicated_labels self |}, Return tt)
    | Raise e => (self, Raise e)
    end.

Definition failed_parse (index : nat) (label field : string) : method t :=
  fun self =>
    match getattr "_failed_parse" (_failed_parse self) with
    | Return l =>
        ({| _missing_mandatory := _missing_mandatory self;
            _failed_parse :=
              Some (l ++ [FailedParse.make (PyStr field)
                                           (PyInt (Z.of_nat index))
                                           (PyStr label)])%list;
            _missing_label := _missing_label self;
            _duplicated_labels := _duplicated_labels self |}, Return tt)
    | Raise e => (self, Raise e)
    end.

Definition missing_label (index : nat) : method t :=
  fun self =>
    match getattr "_missing_label" (_missing_label self) with
    | Return l =>
        ({| _missing_mandatory := _missing_mandatory self;
            _failed_parse := _failed_parse self;
            _missing_label := Some (l ++ [index])%list;
            _duplicated_labels := _duplicated_labels self |}, Return tt)
    | Raise e => (self, Raise e)
    end.

Definition duplicated_labels (label : string) : method t :=
  fun self =>
    match getattr "_duplicated_labels" (_duplicated_labels self) with
    | Return l =>
        ({| _missing_mandatory := _missing_mandatory self;
            _failed_parse := _failed_parse self;
            _missing_label := _missing_label self;
            _duplicated_labels := Some (l ++ [label])%list |}, Return tt)
    | Raise e => (self, Raise e)
    end.

(** [all_problems()]: the four attributes are read in the order of the
    arguments. *)
Definition all_problems (self : t) : outcome ValidationProblems.t :=
  (mm <- getattr "_missing_mandatory" (_missing_mandatory self) ;;
   fp <- getattr "_failed_parse" (_failed_parse self) ;;
   ml <- getattr "_missing_label" (_missing_label self) ;;
   dl <- getattr "_duplicated_labels" (_duplicated_labels self) ;;
   Return (ValidationProblems.make mm fp ml dl))%py.

(** [end_visit] is inherited from [MetadataVisitor]. *)
Definition visitor : MetadataVisitor t :=
  Build_MetadataVisitor t begin_visit missing_mandatory failed_parse
    missing_label duplicated_labels (fun _ => pass).
End CollectVisitor.

(** ** Document traversal *)

(** [Counter(labels)]: a dict from each distinct label to the number of
    its occurrences; a label enters the table at its first occurrence. *)
Definition Counter (labels : list string) : pydict nat :=
  fold_left (fun d l => dict_setitem d l (default 0 (dict_get d l) + 1))
            labels [].

Section Visit.
Variable order : DictOrder.
Variable FormatDefault_format : string -> gmap string string -> string.
Context {S : Type} (visitor : MetadataVisitor S).

Abbreviation format_label := (format_label order FormatDefault_format).

(** The two loops of [_visit_box], after the label has been formatted. *)
Definition report_box (t : MetadataTemplate) (index : nat)
    (box_label : string) (md : gmap string string) : method S :=
  and_then
    (for_each_call (filter (fun f => negb (truthy_opt (md !! f))) (_mandatory t))
       (fun field => missing_mandatory visitor index box_label field))
    (for_each_call (parseable order t md)
       (fun '(field, parse) =>
          match (v <- getitem md field ;; call_parser parse v)%py with
          | Raise (ValueError _) => failed_parse visitor index box_label field
          | Raise e => fun s => (s, Raise e)
          | Return _ => pass
          end)).

(** [_visit_box(visitor, index, box)]: the box after the call, and the
    visitor's method calls. *)
Definition _visit_box (t : MetadataTemplate) (index : nat) (box : Box)
    : Box * method S :=
  let '(box', box_label) := format_label t box in
  (box', report_box t index box_label (fields box')).

(** [_visit_boxes]: [enumerate(document.items)] from [index] on.  A box
    that was reached has been through [format_label], also when the
    visitor raises for it. *)
Fixpoint _visit_boxes_from (t : MetadataTemplate) (index : nat)
    (items : list Box) (s : S) : list Box * (S * outcome unit) :=
  match items with
  | [] => ([], (s, Return tt))
  | box :: rest =>
      let '(box', calls) := _visit_box t index box in
      match calls s with
      | (s', Return _) =>
          let '(rest', r) := _visit_boxes_from t (Datatypes.S index) rest s' in
          (box' :: rest', r)
      | (s', Raise e) => (box' :: rest, (s', Raise e))
      end
  end.

Definition _visit_boxes (t : MetadataTemplate) (document : Document) (s : S)
    : Document * (S * outcome unit) :=
  _visit_boxes_from t 0 document s.

(** The two loops of [_visit_labels], after the labels have been
    formatted. *)
Definition report_labels (labels : list string) : method S :=
  and_then
    (for_each_call (filter (fun il => negb (truthy il.2)) (imap pair labels))
       (fun il => missing_label visitor il.1))
    (for_each_call
       (filter (fun vn => truthy vn.1 && (1 <? vn.2)%nat) (iteritems order (Counter labels)))
       (fun vn => duplicated_labels visitor vn.1)).

Definition _visit_labels (t : MetadataTemplate) (document : Document) (s : S)
    : Document * (S * outcome unit) :=
  let formatted := format_label t <$> document in
  (formatted.*1, report_labels formatted.*2 s).

(** [visit_document(document, visitor)]: the document and the visitor
    after the call, and [None] or the exception. *)
Definition visit_document (t : MetadataTemplate) (document : Document) (s : S)
    : Document * (S * outcome unit) :=
  match begin_visit visitor document s with
  | (s1, Raise e) => (document, (s1, Raise e))
  | (s1, Return _) =>
      match _visit_boxes t document s1 with
      | (document2, (s2, Raise e)) => (document2, (s2, Raise e))
      | (document2, (s2, Return _)) =>
          match _visit_labels t document2 s2 with
          | (document3, (s3, Raise e)) => (document3, (s3, Raise e))
          | (document3, (s3, Return _)) =>
              (document3, end_visit visitor document3 s3)
          end
      end
  end.
End Visit.

(** *** A visitor that records the calls it receives *)

Inductive event :=
| Begin_visit
| Missing_mandatory (index : nat) (label field : string)
| Failed_parse (index : nat) (label field : string)
| Missing_label (index : nat)
| Duplicated_labels (label : string)
| End_visit.

Definition record_call (e : event) : method (list event) :=
  fun log => ((log ++ [e])%list, Return tt).

Definition RecordingVisitor : MetadataVisitor (list event) :=
  {| begin_visit := fun _ => record_call Begin_visit;
     missing_mandatory := fun i l f => record_call (Missing_mandatory i l f);
     failed_parse := fun i l f => record_call (Failed_parse i l f);
     missing_label := fun i => record_call (Missing_label i);
     duplicated_labels := fun l => record_call (Duplicated_labels l);
     end_visit := fun _ => record_call End_visit |}.

(** The calls that one traversal of [document] makes, in order. *)
Definition reported (order : DictOrder)
    (FormatDefault_format : string -> gmap string string -> string)
    (t : MetadataTemplate) (document : Document) : list event :=
  (visit_document order FormatDefault_format RecordingVisitor t document []).2.1.

(** ** CPython 2.7's dict order *)

(** The table layout of CPython 2.7's [dict] for [str] keys, after
    Objects/stringobject.c ([string_hash], hash randomisation off, which
    is the default) and Objects/dictobject.c ([lookdict_string],
    [insertdict], [dictresize], [PyDict_SetItem]), with a C [long] of 64
    bits.  Only the keys are kept: the values do not influence the
    layout. *)
Module CPython27.
Local Open Scope Z_scope.

Definition wrap (x : Z) : Z := x mod 2 ^ 64.

Definition string_hash (s : string) : Z :=
  match s with
  | EmptyString => 0
  | String c _ =>
      let x := Z.shiftl (Z.of_N (N_of_ascii c)) 7 in
      let x := fold_left
                 (fun x ch => Z.lxor (wrap (1000003 * x)) (Z.of_N (N_of_ascii ch)))
                 (list_ascii_of_string s) x in
      let x := Z.lxor x (Z.of_nat (String.length s)) in
      if x =? 2 ^ 64 - 1 then 2 ^ 64 - 2 else x
  end.

(** The slots of the table, [None] for a slot never used. *)
Definition table := list (option string).

(** The collision loop: [i = (i << 2) + i + perturb + 1], then
    [perturb >>= PERTURB_SHIFT]. *)
Fixpoint probe (fuel : nat) (tb : table) (mask : Z) (key : string)
    (i perturb : Z) : option nat :=
  match fuel with
  | O => None
  | S fuel' =>
      let i := wrap (Z.shiftl i 2 + i + perturb + 1) in
      let slot := Z.to_nat (Z.land i mask) in
      match tb !! slot with
      | Some None => Some slot
      | Some (Some k) =>
          if decide (k = key) then Some slot
          else probe fuel' tb mask key i (Z.shiftr perturb 5)
      | None => None
      end
  end.

Definition lookdict (tb : table) (key : string) : option nat :=
  let mask := Z.of_nat (length tb) - 1 in
  let h := string_hash key in
  let i := Z.land h mask in
  match tb !! Z.to_nat i with
  | Some None => Some (Z.to_nat i)
  | Some (Some k) =>
      if decide (k = key) then Some (Z.to_nat i)
      else probe (20 + length tb) tb mask key i h
  | None => None
  end.

Definition insertdict (tb : table) (key : string) : option table :=
  slot ← lookdict tb key; Some (<[slot := Some key]> tb).

Definition used (tb : table) : nat := length (omap id tb).

(** [for (newsize = PyDict_MINSIZE; newsize <= minused; newsize <<= 1);] *)
Fixpoint newsize (fuel : nat) (size minused : nat) : nat :=
  match fuel with
  | O => size
  | S fuel' =>
      if (size <=? minused)%nat then newsize fuel' (2 * size)%nat minused
      else size
  end.

(** The entries move to the new table in the order of the old slots. *)
Definition dictresize (tb : table) (minused : nat) : option table :=
  foldl (fun acc key => tb' ← acc; insertdict tb' key)
        (Some (replicate (newsize minused 8 minused) None)) (omap id tb).

(** [d[key] = value]: the table grows when an insertion leaves it at
    least two thirds full. *)
Definition PyDict_SetItem (tb : table) (key : string) : option table :=
  let n_used := used tb in
  tb' ← insertdict tb key;
  if (n_used <? used tb')%nat && (2 * length tb' <=? 3 * used tb')%nat
  then dictresize tb' ((if (50000 <? Z.of_nat (used tb'))%Z then 2%nat else 4%nat)
                      * used tb')%nat
  else Some tb'.

(** The keys in slot order, of the dict that got [l] inserted in order;
    [None] if a probe ran out of fuel. *)
Definition keys (l : list string) : option (list string) :=
  omap id <$> foldl (fun acc key => tb ← acc; PyDict_SetItem tb key)
                    (Some (replicate 8 None)) l.

(** The iteration order of the model; the test makes it a permutation
    by construction. *)
Definition hash_order (l : list string) : list string :=
  match keys l with
  | Some r => if decide (r ≡ₚ l) then r else l
  | None => l
  end.

Definition hash_order_perm (l : list string) : hash_order l ≡ₚ l :=
  match keys l as o
    return match o with
           | Some r => if decide (r ≡ₚ l) then r else l
           | None => l
           end ≡ₚ l
  with
  | Some r =>
      match decide (r ≡ₚ l) as d return (if d then r else l) ≡ₚ l with
      | left H => H
      | right _ => reflexivity l
      end
  | None => reflexivity l
  end.

Definition order : DictOrder :=
  {| iter_order := hash_order; iter_order_perm := fun l _ => hash_order_perm l |}.
End CPython27.

(** ** Stand-ins for the examples *)

(** Modelled from the spec: [FormatDefault] of inselect/lib/utils.py is
    not among the sources.  "Substituting {FieldName} placeholders; any
    placeholder absent from the metadata mapping substitutes the empty
    string."  [pending] is the placeholder being read, if any. *)
Fixpoint format_placeholders (fmt : string) (pending : option string)
    (md : gmap string string) : string :=
  match fmt with
  | EmptyString => EmptyString
  | String c rest =>
      match pending with
      | None =>
          if Ascii.eqb c "{" then format_placeholders rest (Some EmptyString) md
          else String c (format_placeholders rest None md)
      | Some name =>
          if Ascii.eqb c "}"
          then default EmptyString (md !! name) ++ format_placeholders rest None md
          else format_placeholders rest (Some (name ++ String c EmptyString)) md
      end
  end.

Definition format_default (fmt : string) (md : gmap string string) : string :=
  format_placeholders fmt None md.

(** The examples have no ['Cropped file suffix']. *)
Definition any_suffix (s : string) : option string := Some s.

(** [int]-like parser: the value must be a non-empty run of digits. *)
Definition is_digit (c : ascii) : bool :=
  (48 <=? N_of_ascii c)%N && (N_of_ascii c <=? 57)%N.

Definition parse_int (s : string) : option pyobject :=
  if negb (String.eqb s EmptyString) && forallb is_digit (list_ascii_of_string s)
  then Some (PyInt (fold_left (fun n c => 10 * n + (Z.of_N (N_of_ascii c) - 48))%Z
                              (list_ascii_of_string s) 0%Z))
  else None.

(** ** Vocabulary of the statements *)

(** A call of one of the methods that a traversal uses. *)
Inductive call :=
| Call_begin_visit (document : Document)
| Call_missing_mandatory (index : nat) (label field : string)
| Call_failed_parse (index : nat) (label field : string)
| Call_missing_label (index : nat)
| Call_duplicated_labels (label : string)
| Call_end_visit (document : Document).

Definition dispatch {S} (visitor : MetadataVisitor S) (c : call) : method S :=
  match c with
  | Call_begin_visit d => begin_visit visitor d
  | Call_missing_mandatory i l f => missing_mandatory visitor i l f
  | Call_failed_parse i l f => failed_parse visitor i l f
  | Call_missing_label i => missing_label visitor i
  | Call_duplicated_labels l => duplicated_labels visitor l
  | Call_end_visit d => end_visit visitor d
  end.

(** The visitor after a caller made the calls one after the other,
    going on after a call that raised. *)
Definition after_calls {S} (visitor : MetadataVisitor S) (cs : list call) (s : S) : S :=
  fold_left (fun s c => (dispatch visitor c s).1) cs s.

Definition is_begin_visit (c : call) : Prop :=
  match c with
  | Call_begin_visit _ => True
  | _ => False
  end.

(** All four lists of a [CollectVisitor] have been assigned. *)
Definition has_attributes (self : CollectVisitor.t) : Prop :=
  is_Some (CollectVisitor._missing_mandatory self)
  /\ is_Some (CollectVisitor._failed_parse self)
  /\ is_Some (CollectVisitor._missing_label self)
  /\ is_Some (CollectVisitor._duplicated_labels self).

Global Instance is_begin_visit_dec c : Decision (is_begin_visit c).
Proof. destruct c; simpl; apply _. Defined.

(** *** Well-formed and ill-formed field lists *)

Definition names_of (fields : list FieldSpec) : list string := omap Name fields.

Definition both_vocabularies (f : FieldSpec) : Prop :=
  is_Some (Choices f) /\ is_Some (ChoicesWithData f).

(** A ['Choices'] list that is empty or repeats a label. *)
Definition bad_choices (f : FieldSpec) : Prop :=
  exists c, Choices f = Some c /\ (c = [] \/ ~ NoDup c).

(** A ['ChoicesWithData'] list that is empty or repeats a label. *)
Definition bad_choices_with_data (f : FieldSpec) : Prop :=
  exists ps, ChoicesWithData f = Some (CWD_list ps) /\ (ps = [] \/ ~ NoDup ps.*1).

(** The name of a declared field is the derived name of another. *)
Definition shadows_value_field (fields : list FieldSpec) (n : string) : Prop :=
  exists f' n', f' ∈ fields /\ Name f' = Some n'
                /\ is_Some (ChoicesWithData f') /\ n = value_field_name n'.

(** The violations of the specification that the builder must refuse. *)
Definition violates (fields : list FieldSpec) : Prop :=
  (exists f, f ∈ fields /\ Name f = None)
  \/ ~ NoDup (names_of fields)
  \/ (exists f, f ∈ fields /\ both_vocabularies f)
  \/ (exists f, f ∈ fields /\ bad_choices f)
  \/ (exists f, f ∈ fields /\ bad_choices_with_data f).

(** A raw specification: every ['ChoicesWithData'] is still a list of
    pairs. *)
Definition raw_fields (fields : list FieldSpec) : Prop :=
  forall f c, f ∈ fields -> ChoicesWithData f = Some c -> exists ps, c = CWD_list ps.

(** The field names that a message carries. *)
Definition named_fields (m : message) : list string :=
  match m with
  | Msg_duplicated_fields names => names
  | Msg_both_choices name
  | Msg_duplicated_choices name _
  | Msg_empty_choices name
  | Msg_duplicated_choices_with_data name _
  | Msg_empty_choices_with_data name => [name]
  | Msg_value_field value_field => [value_field]
  | _ => []
  end.

(** [n] is the name of a declared field that breaks an invariant. *)
Definition offending (fields : list FieldSpec) (n : string) : Prop :=
  1 < count_of n (names_of fields)
  \/ exists f, f ∈ fields /\ Name f = Some n
       /\ (both_vocabularies f \/ bad_choices f \/ bad_choices_with_data f
           \/ shadows_value_field fields n).

(** What the checks of [_fields_from_template_spec] establish. *)
Definition field_ok (field_names : list string) (f : FieldSpec) : Prop :=
  is_Some (Name f)
  /\ ~ both_vocabularies f
  /\ (forall c, Choices f = Some c -> c ≠ [] /\ NoDup c)
  /\ (forall n c, Name f = Some n -> ChoicesWithData f = Some c ->
        (value_field_name n ∉ field_names)
        /\ cwd_empty c = false
        /\ exists labels, cwd_labels c = Return labels /\ NoDup labels).

Definition well_formed (fields : list FieldSpec) : Prop :=
  NoDup (names_of fields) /\ Forall (field_ok (names_of fields)) fields.

(** ** Example specifications and documents *)

Module Examples.
Definition field (name : string) : FieldSpec :=
  {| Name := Some name; Mandatory := None; Choices := None;
     ChoicesWithData := None; Parser := None |}.

Definition template (fields : list FieldSpec) : TemplateSpec :=
  {| spec_Name := Some "Specimens"; spec_Object_label := None;
     spec_Cropped_file_suffix := None; spec_Fields := Some fields |}.

Definition box (items : list (string * string)) : Box :=
  {| fields := list_to_map items |}.

(** Two fields of the same name. *)
Definition repeated_name : TemplateSpec :=
  template [field "catalogNumber"; field "catalogNumber"].

(** [{Name: "sex", ChoicesWithData: [("M", "Male"), ("F", "Female")]}] *)
Definition sex_field : FieldSpec :=
  {| Name := Some "sex"; Mandatory := None; Choices := None;
     ChoicesWithData := Some (CWD_list [("M", "Male"); ("F", "Female")]);
     Parser := None |}.

Definition sex : TemplateSpec := template [sex_field].

(** The same fields in a specification without a name. *)
Definition sex_unnamed : TemplateSpec :=
  {| spec_Name := None; spec_Object_label := None;
     spec_Cropped_file_suffix := None; spec_Fields := Some [sex_field] |}.

(** [{Name: "catalogNumber", Mandatory: true}] *)
Definition catalogNumber_field : FieldSpec :=
  {| Name := Some "catalogNumber"; Mandatory := Some true; Choices := None;
     ChoicesWithData := None; Parser := None |}.

Definition catalogNumber : TemplateSpec := template [catalogNumber_field].

Definition number_field (name : string) : FieldSpec :=
  {| Name := Some name; Mandatory := None; Choices := None;
     ChoicesWithData := None; Parser := Some parse_int |}.

(** Fields "b" and "a", declared in this order, both parsed as numbers. *)
Definition b_then_a : TemplateSpec :=
  {| spec_Name := Some "Specimens"; spec_Object_label := Some "{b}";
     spec_Cropped_file_suffix := None;
     spec_Fields := Some [number_field "b"; number_field "a"] |}.

(** A mandatory catalogue number and a count that must be a number. *)
Definition catalogue : TemplateSpec :=
  template [catalogNumber_field; number_field "count"].

(** Three records: a good one, one without its catalogue number, and
    one that shares the first one's label and has a bad count. *)
Definition specimens : Document :=
  [ box [("catalogNumber", "X123"); ("count", "12")];
    box [("catalogNumber", ""); ("count", "3")];
    box [("catalogNumber", "X123"); ("count", "many")] ].

(** A record in which neither "a" nor "b" is a number. *)
Definition letters : Document := [ box [("a", "x"); ("b", "y")] ].

(** The template that CPython 2.7 builds from a specification (the
    empty one if the constructor raises). *)
Definition build (spec : TemplateSpec) : MetadataTemplate :=
  match (MetadataTemplate_init CPython27.order any_suffix spec).2 with
  | Return t => t
  | Raise _ =>
      {| _name := ""; _cropped_image_suffix := None; _fields := [];
         _object_label := ""; _fields_mapping := [];
         _choices_with_data_mapping := []; _parse_mapping := [];
         _mandatory := [] |}
  end.
End Examples.

(** *** Templates that the constructor returned *)

(** [(f['Name'], f)] for the fields that have a name. *)
Definition named_items (fields : list FieldSpec) : list (string * FieldSpec) :=
  omap (fun f => (fun n => (n, f)) <$> Name f) fields.

(** What holds of a template that [MetadataTemplate(spec)] returned, in
    terms of its list of fields. *)
Record constructed (order : DictOrder) (t : MetadataTemplate) : Prop := {
  constructed_named : Forall (fun f => is_Some (Name f)) (_fields t);
  constructed_NoDup : NoDup (names_of (_fields t));
  constructed_value_field :
    forall f n, f ∈ _fields t -> Name f = Some n -> is_Some (ChoicesWithData f) ->
                value_field_name n ∉ names_of (_fields t);
  constructed_ordered :
    forall f c, f ∈ _fields t -> ChoicesWithData f = Some c ->
                exists d, c = CWD_ordered d;
  constructed_fields_mapping : _fields_mapping t = named_items (_fields t);
  constructed_choices_with_data_mapping :
    _choices_with_data_mapping t
    = filter (fun nf => is_Some (ChoicesWithData nf.2)) (named_items (_fields t));
  constructed_parse_mapping :
    _parse_mapping t
    = omap (fun kv => pair kv.1 <$> Parser kv.2)
           (iteritems order (named_items (_fields t)));
  constructed_mandatory :
    _mandatory t
    = (filter (fun nf => Mandatory nf.2 = Some true) (named_items (_fields t))).*1
}.

(** *** Derived metadata *)

(** The data that field [f] derives from the mapping [md]: its raw
    value is a label of the field's vocabulary. *)
Definition derived_value (md : gmap string string) (f : FieldSpec) : option string :=
  n ← Name f; cwd_lookup (ChoicesWithData f) (md !! n).

(** [k] is the derived name of a field whose raw value matches a label. *)
Definition derived_key (t : MetadataTemplate) (md : gmap string string)
    (k : string) : Prop :=
  exists f n, f ∈ _fields t /\ Name f = Some n
              /\ is_Some (derived_value md f) /\ k = value_field_name n.

(** [md'] is [md] plus the derived entries of the template. *)
Definition with_derived_entries (t : MetadataTemplate)
    (md md' : gmap string string) : Prop :=
  (forall f n v, f ∈ _fields t -> Name f = Some n -> derived_value md f = Some v ->
                 md' !! value_field_name n = Some v)
  /\ (forall k, ~ derived_key t md k -> md' !! k = md !! k).

(** Every derived entry that the template adds to [md] is in it. *)
Definition has_derived_entries (t : MetadataTemplate)
    (md : gmap string string) : Prop :=
  forall f n v, f ∈ _fields t -> Name f = Some n -> derived_value md f = Some v ->
                md !! value_field_name n = Some v.

(** The statement about [record_metadata] in the specification: the
    result is the fields plus the derived entries, the caller's record
    is as it was, and a second call returns an equal mapping. *)
Definition record_metadata_is_pure (order : DictOrder) (t : MetadataTemplate) : Prop :=
  forall box,
    with_derived_entries t (fields box) (box_metadata order t box).2
    /\ (box_metadata order t box).1 = box
    /\ (box_metadata order t (box_metadata order t box).1).2
       = (box_metadata order t box).2.

(** *** Record validation *)

(** The record has a non-empty value for the field. *)
Definition non_empty (md : gmap string string) (n : string) : Prop :=
  exists v, md !! n = Some v /\ v ≠ "".

(** Every mandatory field of the template has a non-empty value. *)
Definition mandatory_given (t : MetadataTemplate) (md : gmap string string) : Prop :=
  forall f n, f ∈ _fields t -> Name f = Some n -> Mandatory f = Some true ->
              non_empty md n.

(** Every field that is in the record and has a parser parses. *)
Definition present_parse (t : MetadataTemplate) (md : gmap string string) : Prop :=
  forall f n parse v, f ∈ _fields t -> Name f = Some n -> Parser f = Some parse ->
                      md !! n = Some v -> is_Some (parse v).

(** *** The calls of a traversal *)

(** Some [x] comes before some [y] in [l]. *)
Definition precedes {A} (x y : A) (l : list A) : Prop :=
  exists l1 l2 l3, l = (l1 ++ x :: l2 ++ y :: l3)%list.

Global Instance event_eq_dec : EqDecision event.
Proof. solve_decision. Defined.

(** How often a traversal made the call [e]. *)
Definition occurrences (e : event) (l : list event) : nat :=
  length (filter (fun x => x = e) l).

(** The call, if any, that the second loop of [_visit_box] makes for an
    item of the parse mapping. *)
Definition failed_parse_event (index : nat) (label : string)
    (md : gmap string string) (kv : string * parser) : option event :=
  match md !! kv.1 with
  | Some v =>
      match kv.2 v with
      | None => Some (Failed_parse index label kv.1)
      | Some _ => None
      end
  | None => None
  end.

(** The calls of [_visit_box], given the label and the fields. *)
Definition box_events (order : DictOrder) (t : MetadataTemplate) (index : nat)
    (label : string) (md : gmap string string) : list event :=
  ((Missing_mandatory index label
      <$> filter (fun f => negb (truthy_opt (md !! f))) (_mandatory t))
   ++ omap (failed_parse_event index label md) (parseable order t md))%list.

(** The calls of [_visit_boxes] for the boxes from [index] on. *)
Fixpoint boxes_events (order : DictOrder)
    (fmt : string -> gmap string string -> string) (t : MetadataTemplate)
    (index : nat) (items : list Box) : list event :=
  match items with
  | [] => []
  | box :: rest =>
      (box_events order t index (format_label order fmt t box).2
                  (fields (format_label order fmt t box).1)
       ++ boxes_events order fmt t (S index) rest)%list
  end.

(** The calls of [_visit_labels], given the labels. *)
Definition label_events (order : DictOrder) (labels : list string) : list event :=
  (((fun il => Missing_label il.1)
      <$> filter (fun il => negb (truthy il.2)) (imap pair labels))
   ++ ((fun vn => Duplicated_labels vn.1)
         <$> filter (fun vn => truthy vn.1 && (1 <? vn.2)%nat)
                    (iteritems order (Counter labels))))%list.

(** The formatted labels of the records of a document. *)
Definition labels_of (order : DictOrder)
    (fmt : string -> gmap string string -> string) (t : MetadataTemplate)
    (document : Document) : list string :=
  (fun box => (format_label order fmt t box).2) <$> document.

(** A call that [_visit_box] can make. *)
Definition is_box_event (e : event) : Prop :=
  match e with
  | Missing_mandatory _ _ _ | Failed_parse _ _ _ => True
  | _ => False
  end.

(** *** The order of the calls for one record *)

(** Field [a] is declared before field [b]. *)
Definition declared_before (t : MetadataTemplate) (a b : string) : Prop :=
  exists fa fb, precedes fa fb (_fields t) /\ Name fa = Some a /\ Name fb = Some b.

(** The parse mapping yields [a] before [b]. *)
Definition iterated_before (order : DictOrder) (t : MetadataTemplate)
    (a b : string) : Prop :=
  exists pa pb, precedes (a, pa) (b, pb) (iteritems order (_parse_mapping t)).

(** Field [n] has a parser, is in the record and fails to parse. *)
Definition fails_to_parse (t : MetadataTemplate) (md : gmap string string)
    (n : string) : Prop :=
  exists f parse v, f ∈ _fields t /\ Name f = Some n /\ Parser f = Some parse
                    /\ md !! n = Some v /\ parse v = None.

(** Field [n] is mandatory and absent from the record or empty. *)
Definition lacks_mandatory (t : MetadataTemplate) (md : gmap string string)
    (n : string) : Prop :=
  exists f, f ∈ _fields t /\ Name f = Some n /\ Mandatory f = Some true
            /\ ~ non_empty md n.

(** The statement about [validate_document] in the specification: for
    each record, both kinds of calls come in the order in which the
    fields are declared. *)
Definition reports_in_declared_order (order : DictOrder)
    (fmt : string -> gmap string string -> string) (t : MetadataTemplate)
    (document : Document) : Prop :=
  forall index box a b,
    document !! index = Some box ->
    declared_before t a b ->
    let label := (format_label order fmt t box).2 in
    let calls := reported order fmt t document in
    (fails_to_parse t (fields box) a -> fails_to_parse t (fields box) b ->
     precedes (Failed_parse index label a) (Failed_parse index label b) calls)
    /\ (lacks_mandatory t (fields box) a -> lacks_mandatory t (fields box) b ->
        precedes (Missing_mandatory index label a)
                 (Missing_mandatory index label b) calls).

(** *** Traversals with any visitor *)

(** The method call that a recorded call stands for; [begin_visit] gets
    the document as the caller passed it, [end_visit] the document as
    the traversal left it. *)
Definition call_of (before after : Document) (e : event) : call :=
  match e with
  | Begin_visit => Call_begin_visit before
  | Missing_mandatory i l f => Call_missing_mandatory i l f
  | Failed_parse i l f => Call_failed_parse i l f
  | Missing_label i => Call_missing_label i
  | Duplicated_labels l => Call_duplicated_labels l
  | End_visit => Call_end_visit after
  end.

(** The calls made one after the other; the first exception ends them. *)
Definition run_calls {S} (visitor : MetadataVisitor S) (cs : list call) : method S :=
  for_each_call cs (dispatch visitor).

(** The document after every box has been through [box_metadata]. *)
Definition formatted (order : DictOrder) (t : MetadataTemplate)
    (document : Document) : Document :=
  (fun box => (box_metadata order t box).1) <$> document.


(** *** Reports of the collecting visitor *)

(** The entry that [CollectVisitor] stores for a call, by kind. *)
Definition stored_missing_mandatory (e : event) : option MissingMandatory.t :=
  match e with
  | Missing_mandatory i l f =>
      Some (MissingMandatory.make (PyInt (Z.of_nat i)) (PyStr l) (PyStr f))
  | _ => None
  end.

Definition stored_failed_parse (e : event) : option FailedParse.t :=
  match e with
  | Failed_parse i l f =>
      Some (FailedParse.make (PyStr f) (PyInt (Z.of_nat i)) (PyStr l))
  | _ => None
  end.

Definition stored_missing_label (e : event) : option nat :=
  match e with
  | Missing_label i => Some i
  | _ => None
  end.

Definition stored_duplicated_labels (e : event) : option string :=
  match e with
  | Duplicated_labels l => Some l
  | _ => None
  end.

(** A [CollectVisitor] whose four lists have been assigned. *)
Definition collecting (p : ValidationProblems.t) : CollectVisitor.t :=
  {| CollectVisitor._missing_mandatory := Some (ValidationProblems.missing_mandatory p);
     CollectVisitor._failed_parse := Some (ValidationProblems.failed_parse p);
     CollectVisitor._missing_label := Some (ValidationProblems.missing_label p);
     CollectVisitor._duplicated_labels := Some (ValidationProblems.duplicated_labels p) |}.

(** The lists of [p] with the entries for the calls [events] appended. *)
Definition collected (p : ValidationProblems.t) (events : list event)
    : ValidationProblems.t :=
  ValidationProblems.make
    (ValidationProblems.missing_mandatory p ++ omap stored_missing_mandatory events)
    (ValidationProblems.failed_parse p ++ omap stored_failed_parse events)
    (ValidationProblems.missing_label p ++ omap stored_missing_label events)
    (ValidationProblems.duplicated_labels p ++ omap stored_duplicated_labels events).

(** The index that a call of [_visit_box] carries. *)
Definition box_event_index (e : event) : option nat :=
  match e with
  | Missing_mandatory i _ _ | Failed_parse i _ _ => Some i
  | _ => None
  end.

(** *** The console of the printing visitor *)

(** The values that [PrintVisitor] prints for a call whose method names
    only its own parameters. *)
Definition printed (before after : Document) (e : event) : list PrintVisitor.value :=
  match e with
  | Begin_visit => [PrintVisitor.V_str "begin_visit"; PrintVisitor.V_document before]
  | Missing_label i => [PrintVisitor.V_str "missing_label"; PrintVisitor.V_int i]
  | Duplicated_labels l =>
      [PrintVisitor.V_str "duplicated_labels"; PrintVisitor.V_str l]
  | End_visit => [PrintVisitor.V_str "end_visit"; PrintVisitor.V_document after]
  | _ => []
  end.

(** *** Single-field validation *)

(** The field [name] is declared and [value] is not acceptable for it:
    it is empty and the field is mandatory, or it is not empty and the
    field's parser fails on it. *)
Definition field_rejects (t : MetadataTemplate) (name value : string) : Prop :=
  exists f, f ∈ _fields t /\ Name f = Some name
    /\ ((value = "" /\ Mandatory f = Some true)
        \/ (value ≠ "" /\ exists parse, Parser f = Some parse /\ parse value = None)).

(** * Properties *)

Local Open Scope list_scope.

(** ** The printing visitor *)

Lemma load_name_box locals :
  dict_get locals "box" = None ->
  PrintVisitor.load_name locals "box" = Raise (NameError "box").
Proof. intros H. unfold PrintVisitor.load_name. rewrite H. reflexivity. Qed.

(** The four methods whose bodies name only their own parameters write
    one line and return [None]. *)
Lemma PrintVisitor_well_scoped_methods document index label out :
  PrintVisitor.begin_visit document out
    = ((out ++ [[PrintVisitor.V_str "begin_visit";
                 PrintVisitor.V_document document]])%list, Return tt)
  /\ PrintVisitor.missing_label index out
    = ((out ++ [[PrintVisitor.V_str "missing_label";
                 PrintVisitor.V_int index]])%list, Return tt)
  /\ PrintVisitor.duplicated_labels label out
    = ((out ++ [[PrintVisitor.V_str "duplicated_labels";
                 PrintVisitor.V_str label]])%list, Return tt)
  /\ PrintVisitor.end_visit document out
    = ((out ++ [[PrintVisitor.V_str "end_visit";
                 PrintVisitor.V_document document]])%list, Return tt).
Proof. repeat split; reflexivity. Qed.

(** C8 (the code departs from it): [PrintVisitor.missing_mandatory] and
    [PrintVisitor.failed_parse] pass the name [box] to [print]; no such
    name is bound in the method, in the module or among the builtins, so
    for all arguments both raise [NameError] and write nothing to the
    console. *)
Theorem C8_print_visitor_raises_NameError index label field out :
  PrintVisitor.missing_mandatory index label field out
    = (out, Raise (NameError "box"))
  /\ PrintVisitor.failed_parse index label field out
    = (out, Raise (NameError "box")).
Proof. split; reflexivity. Qed.

(** ** The collecting visitor *)

(** C2 (the code departs from it): [CollectVisitor.failed_parse] builds
    [FailedParse(field, index, label)], so in the report the [index]
    component holds the field name, the [label] component the index and
    the [field] component the label; [missing_mandatory] next to it
    stores (index, label, field). *)
Theorem C2_failed_parse_components_rotated document index label field :
  let self := (CollectVisitor.begin_visit document CollectVisitor.new).1 in
  CollectVisitor.all_problems (CollectVisitor.failed_parse index label field self).1
    = Return (ValidationProblems.make []
                [FailedParse.make (PyStr field) (PyInt (Z.of_nat index)) (PyStr label)]
                [] [])
  /\ CollectVisitor.all_problems
       (CollectVisitor.missing_mandatory index label field self).1
    = Return (ValidationProblems.make
                [MissingMandatory.make (PyInt (Z.of_nat index)) (PyStr label)
                                       (PyStr field)]
                [] [] []).
Proof. split; reflexivity. Qed.

Lemma all_problems_returns self :
  returns (CollectVisitor.all_problems self) <-> has_attributes self.
Proof.
  unfold returns, has_attributes, CollectVisitor.all_problems.
  destruct self as [[mm|] [fp|] [ml|] [dl|]]; simpl;
    (split; [intros [a Ha]; try discriminate; repeat split; eauto
            | intros (H1 & H2 & H3 & H4);
              try (by destruct H1); try (by destruct H2);
              try (by destruct H3); try (by destruct H4); eauto]).
Qed.

Lemma dispatch_keeps_attributes c self :
  has_attributes self ->
  has_attributes (dispatch CollectVisitor.visitor c self).1.
Proof.
  intros (H1 & H2 & H3 & H4).
  destruct self as [mm fp ml dl]; simpl in *.
  destruct H1 as [? ->], H2 as [? ->], H3 as [? ->], H4 as [? ->].
  destruct c; simpl; unfold has_attributes; simpl; eauto 10.
Qed.

Lemma dispatch_without_attributes c :
  ~ is_begin_visit c ->
  (dispatch CollectVisitor.visitor c CollectVisitor.new).1 = CollectVisitor.new.
Proof. destruct c; simpl; intros H; try reflexivity. by destruct H. Qed.

Lemma after_calls_keeps_attributes cs self :
  has_attributes self ->
  has_attributes (after_calls CollectVisitor.visitor cs self).
Proof.
  revert self. induction cs as [|c cs IH]; intros self H; simpl; [done|].
  apply IH. by apply dispatch_keeps_attributes.
Qed.

Lemma after_calls_new cs :
  has_attributes (after_calls CollectVisitor.visitor cs CollectVisitor.new)
  <-> Exists is_begin_visit cs.
Proof.
  induction cs as [|c cs IH]; simpl.
  - split.
    + intros (H & _). by destruct H.
    + intros H. inversion H.
  - destruct (decide (is_begin_visit c)) as [Hc|Hc].
    + split; [intros _; by apply Exists_cons_hd|intros _].
      apply after_calls_keeps_attributes.
      destruct c; simpl in Hc; try contradiction.
      unfold has_attributes; simpl; eauto 10.
    + rewrite (dispatch_without_attributes _ Hc), IH.
      split; [intros H; by apply Exists_cons_tl|].
      intros H. inversion H; [contradiction | done].
Qed.

(** C10: a new [CollectVisitor] has none of its four lists:
    [all_problems] on it raises [AttributeError], and so does each
    reporting method, leaving it as it was.  After any sequence of calls,
    [all_problems] returns a [ValidationProblems] exactly when one of
    the calls was [begin_visit]. *)
Theorem C10_collect_visitor_needs_begin_visit :
  CollectVisitor.all_problems CollectVisitor.new
    = Raise (AttributeError "CollectVisitor" "_missing_mandatory")
  /\ (forall c,
        dispatch CollectVisitor.visitor c CollectVisitor.new
        = match c with
          | Call_begin_visit _ =>
              ({| CollectVisitor._missing_mandatory := Some [];
                  CollectVisitor._failed_parse := Some [];
                  CollectVisitor._missing_label := Some [];
                  CollectVisitor._duplicated_labels := Some [] |}, Return tt)
          | Call_end_visit _ => (CollectVisitor.new, Return tt)
          | Call_missing_mandatory _ _ _ =>
              (CollectVisitor.new,
               Raise (AttributeError "CollectVisitor" "_missing_mandatory"))
          | Call_failed_parse _ _ _ =>
              (CollectVisitor.new,
               Raise (AttributeError "CollectVisitor" "_failed_parse"))
          | Call_missing_label _ =>
              (CollectVisitor.new,
               Raise (AttributeError "CollectVisitor" "_missing_label"))
          | Call_duplicated_labels _ =>
              (CollectVisitor.new,
               Raise (AttributeError "CollectVisitor" "_duplicated_labels"))
          end)
  /\ (forall cs,
        returns (CollectVisitor.all_problems
                   (after_calls CollectVisitor.visitor cs CollectVisitor.new))
        <-> Exists is_begin_visit cs)
  /\ (forall document,
        CollectVisitor.all_problems
          (CollectVisitor.begin_visit document CollectVisitor.new).1
        = Return (ValidationProblems.make [] [] [] [])).
Proof.
  split; [reflexivity|]. split.
  - intros c. destruct c; reflexivity.
  - split; [|reflexivity].
    intros cs. rewrite all_problems_returns. apply after_calls_new.
Qed.

(** ** Dicts *)

Section PyDictFacts.
Context {V : Type}.
Implicit Types (d : pydict V) (k : string) (v : V).

Lemma dict_keys_setitem d k v k' :
  k' ∈ dict_keys (dict_setitem d k v) <-> k' = k \/ k' ∈ dict_keys d.
Proof.
  unfold dict_keys. induction d as [|[k0 v0] d IH]; simpl.
  - rewrite elem_of_cons. set_solver.
  - destruct (decide (k = k0)) as [->|Hne]; simpl.
    + rewrite !elem_of_cons. tauto.
    + rewrite !elem_of_cons, IH. tauto.
Qed.

Lemma dict_setitem_fresh d k v :
  k ∉ dict_keys d -> dict_setitem d k v = d ++ [(k, v)].
Proof.
  unfold dict_keys. induction d as [|[k0 v0] d IH]; simpl; [done|].
  rewrite not_elem_of_cons. intros [Hne Hnin].
  destruct (decide (k = k0)); [done|]. by rewrite IH.
Qed.

Lemma fold_setitem_fresh (items acc : pydict V) :
  NoDup (dict_keys (acc ++ items)) ->
  fold_left (fun d kv => dict_setitem d kv.1 kv.2) items acc = acc ++ items.
Proof.
  revert acc. induction items as [|[k v] items IH]; intros acc Hnd; simpl.
  - by rewrite app_nil_r.
  - rewrite dict_setitem_fresh.
    + rewrite IH; rewrite <- app_assoc; done.
    + unfold dict_keys in *. rewrite fmap_app in Hnd.
      apply NoDup_app in Hnd as (_ & Hdisj & _).
      intros Hin. apply (Hdisj k Hin). simpl. left.
Qed.

(** A dict built from items with distinct keys holds the items, in
    the order of insertion. *)
Lemma dict_from_items_NoDup (items : pydict V) :
  NoDup (dict_keys items) -> dict_from_items items = items.
Proof. intros H. unfold dict_from_items. by rewrite fold_setitem_fresh. Qed.

Lemma dict_get_None d k : dict_get d k = None <-> k ∉ dict_keys d.
Proof.
  unfold dict_keys. induction d as [|[k0 v0] d IH]; simpl.
  - split; [intros _; apply not_elem_of_nil | done].
  - rewrite not_elem_of_cons. destruct (decide (k = k0)); naive_solver.
Qed.

Lemma dict_get_Some d k v :
  NoDup (dict_keys d) -> dict_get d k = Some v <-> (k, v) ∈ d.
Proof.
  unfold dict_keys. induction d as [|[k0 v0] d IH]; simpl; intros Hnd.
  - split; [done | intros H; by apply elem_of_nil in H].
  - apply NoDup_cons in Hnd as [Hk0 Hnd]. rewrite elem_of_cons.
    destruct (decide (k = k0)) as [->|Hne].
    + split; [intros [= ->]; by left|].
      intros [[= ->]|Hin]; [done|].
      destruct Hk0. apply list_elem_of_fmap. by exists (k0, v).
    + rewrite (IH Hnd). naive_solver.
Qed.

Lemma omap_dict_get_items (d0 d : pydict V) :
  (forall k v, (k, v) ∈ d -> dict_get d0 k = Some v) ->
  omap (fun k => pair k <$> dict_get d0 k) (dict_keys d) = d.
Proof.
  unfold dict_keys. induction d as [|[k v] d IH]; intros Hall; simpl; [done|].
  rewrite (Hall k v) by left. simpl. f_equal.
  apply IH. intros k' v' Hin. apply Hall. by right.
Qed.

Lemma omap_dict_get_keys d :
  NoDup (dict_keys d) ->
  omap (fun k => pair k <$> dict_get d k) (dict_keys d) = d.
Proof.
  intros Hnd. apply omap_dict_get_items.
  intros k v Hin. by apply dict_get_Some.
Qed.

(** Iteration yields every item once, in the hash-table order. *)
Lemma iteritems_Permutation (o : DictOrder) d :
  NoDup (dict_keys d) -> iteritems o d ≡ₚ d.
Proof.
  intros Hnd. unfold iteritems.
  rewrite (iter_order_perm o _ Hnd). by rewrite omap_dict_get_keys.
Qed.

Lemma iteritems_keys_Permutation (o : DictOrder) d :
  NoDup (dict_keys d) -> (iteritems o d).*1 ≡ₚ dict_keys d.
Proof. intros Hnd. unfold dict_keys. by rewrite iteritems_Permutation. Qed.

Lemma iteritems_keys (o : DictOrder) d :
  NoDup (dict_keys d) -> (iteritems o d).*1 = o (dict_keys d).
Proof.
  intros Hnd. unfold iteritems.
  assert (Hsub : forall k, k ∈ o (dict_keys d) -> k ∈ dict_keys d).
  { intros k. by rewrite (iter_order_perm o _ Hnd). }
  induction (o (dict_keys d)) as [|k l IH]; simpl; [done|].
  destruct (dict_get d k) as [v|] eqn:Hget; simpl.
  - f_equal. apply IH. intros k' Hk'. apply Hsub. by right.
  - apply dict_get_None in Hget. destruct Hget. apply Hsub. by left.
Qed.
End PyDictFacts.

(** ** [duplicated] and [sorted] *)

Lemma count_of_cons x y v :
  count_of x (y :: v) = (if decide (y = x) then 1 else 0) + count_of x v.
Proof.
  unfold count_of. rewrite filter_cons.
  destruct (decide (y = x)); reflexivity.
Qed.

Lemma count_of_zero x v : count_of x v = 0 <-> x ∉ v.
Proof.
  induction v as [|y v IH].
  - split; [intros _; apply not_elem_of_nil | done].
  - rewrite count_of_cons, not_elem_of_cons.
    destruct (decide (y = x)) as [->|]; simpl; [naive_solver lia|].
    rewrite IH. naive_solver.
Qed.

Lemma count_of_NoDup v : NoDup v <-> forall x, count_of x v <= 1.
Proof.
  induction v as [|y v IH].
  - split; [intros _ x; unfold count_of; simpl; lia | constructor].
  - rewrite NoDup_cons, IH. split.
    + intros [Hy Hv] x. rewrite count_of_cons.
      destruct (decide (y = x)) as [->|]; simpl; [|apply Hv].
      apply count_of_zero in Hy. lia.
    + intros H. split.
      * apply count_of_zero. specialize (H y). rewrite count_of_cons in H.
        destruct (decide (y = y)); [lia | done].
      * intros x. specialize (H x). rewrite count_of_cons in H. lia.
Qed.

Lemma elem_of_duplicated x v : x ∈ duplicated v <-> 1 < count_of x v.
Proof.
  unfold duplicated. rewrite elem_of_list_to_set, list_elem_of_filter.
  split; [tauto|]. intros H. split; [done|].
  destruct (decide (x ∈ v)) as [|Hn]; [done|].
  apply count_of_zero in Hn. lia.
Qed.

Lemma duplicated_empty v : duplicated v = ∅ <-> NoDup v.
Proof.
  rewrite count_of_NoDup. split.
  - intros He x. destruct (decide (1 < count_of x v)) as [Hd|]; [|lia].
    apply elem_of_duplicated in Hd. rewrite He in Hd. set_solver.
  - intros H. apply set_eq. intros x. rewrite elem_of_duplicated.
    specialize (H x). set_solver by lia.
Qed.

Lemma elem_of_sorted x l : x ∈ sorted l <-> x ∈ l.
Proof. unfold sorted. by rewrite merge_sort_Permutation. Qed.

Lemma sorted_elements_nonempty (s : gset string) :
  s ≠ ∅ -> sorted (elements s) ≠ [].
Proof.
  intros Hs He. apply Hs. apply set_eq. intros x.
  rewrite <- elem_of_elements, <- elem_of_sorted, He. set_solver.
Qed.

Lemma elem_of_sorted_duplicated x v :
  x ∈ sorted (elements (duplicated v)) <-> 1 < count_of x v.
Proof. by rewrite elem_of_sorted, elem_of_elements, elem_of_duplicated. Qed.

(** ** Loops that may raise *)

Lemma for_each_Return {A} (l : list A) body :
  for_each l body = Return tt <-> Forall (fun x => body x = Return tt) l.
Proof.
  induction l as [|x l IH]; simpl.
  - split; [constructor | done].
  - rewrite Forall_cons, <- IH. unfold obind.
    destruct (body x) as [[]|e]; naive_solver.
Qed.

Lemma for_each_Raise {A} (l : list A) body e :
  for_each l body = Raise e -> exists x, x ∈ l /\ body x = Raise e.
Proof.
  induction l as [|x l IH]; simpl; [done|]. unfold obind.
  destruct (body x) as [[]|e'] eqn:Hx.
  - intros H. destruct (IH H) as (y & Hy & Hb). exists y. split; [by right | done].
  - intros [= ->]. exists x. split; [by left | done].
Qed.

Lemma mapM_Return {A B} (f : A -> outcome B) (g : A -> B) l :
  Forall (fun x => f x = Return (g x)) l -> mapM f l = Return (g <$> l).
Proof.
  induction 1 as [|x l Hx _ IH]; simpl; [done|].
  rewrite Hx. simpl. rewrite IH. done.
Qed.

(** ** The checks of the template builder *)

Lemma mapM_getitem_Name fields :
  Forall (fun f => is_Some (Name f)) fields ->
  mapM getitem_Name fields = Return (names_of fields).
Proof.
  unfold names_of. induction 1 as [|f l [n Hn] _ IH]; simpl; [done|].
  unfold getitem_Name at 1. rewrite Hn. simpl. rewrite IH. done.
Qed.

Lemma existsb_no_name fields :
  existsb (fun f => bool_decide (Name f = None)) fields = true
  <-> exists f, f ∈ fields /\ Name f = None.
Proof.
  rewrite existsb_exists. split; intros (f & H1 & H2); exists f.
  - apply list_elem_of_In in H1. by apply bool_decide_eq_true in H2.
  - apply list_elem_of_In in H1. split; [done|]. by apply bool_decide_eq_true.
Qed.

Lemma existsb_no_name_false fields :
  existsb (fun f => bool_decide (Name f = None)) fields = false
  <-> Forall (fun f => is_Some (Name f)) fields.
Proof.
  rewrite <- not_true_iff_false, existsb_no_name, Forall_forall. split.
  - intros H f Hf. destruct (Name f) eqn:E; [eauto|]. destruct H; eauto.
  - intros H (f & Hf & E). destruct (H f Hf) as [n Hn]. congruence.
Qed.

Lemma names_of_elem fields f n :
  f ∈ fields -> Name f = Some n -> n ∈ names_of fields.
Proof. intros Hf Hn. unfold names_of. apply list_elem_of_omap. eauto. Qed.

Lemma find_has_both_Some fields bad :
  List.find has_both fields = Some bad -> bad ∈ fields /\ both_vocabularies bad.
Proof.
  intros H. apply find_some in H as [Hin Hb]. split; [by apply list_elem_of_In|].
  unfold has_both in Hb. apply andb_true_iff in Hb as [H1 H2].
  split; by eapply bool_decide_eq_true.
Qed.

Lemma find_has_both_None fields :
  List.find has_both fields = None <-> Forall (fun f => ~ both_vocabularies f) fields.
Proof.
  rewrite Forall_forall. split.
  - intros H f Hf [H1 H2]. apply list_elem_of_In in Hf.
    pose proof (find_none _ _ H f Hf) as Hb. unfold has_both in Hb.
    rewrite !bool_decide_eq_true_2 in Hb by done. done.
  - intros H. destruct (List.find has_both fields) as [bad|] eqn:E; [|done].
    apply find_has_both_Some in E as [Hin Hb]. destruct (H bad Hin Hb).
Qed.

(** The outcome of the ['Choices'] check of one named field. *)
Lemma validate_choices_Return f :
  is_Some (Name f) ->
  validate_choices f = Return tt
  <-> (forall c, Choices f = Some c -> c ≠ [] /\ NoDup c).
Proof.
  intros [n Hn]. unfold validate_choices, getitem_Name. rewrite Hn.
  destruct (Choices f) as [c|]; [|by split]. simpl.
  case_bool_decide as Hd.
  - split; [done|]. intros H. destruct (H c eq_refl) as [_ Hnd].
    by apply duplicated_empty in Hnd.
  - apply duplicated_empty in Hd.
    case_bool_decide as He.
    + split; [done|]. intros H. by destruct (H c eq_refl).
    + split; [|done]. by intros _ c' [= <-].
Qed.

Lemma validate_choices_Raise f e :
  validate_choices f = Raise e ->
  is_Some (Name f) ->
  exists n m, Name f = Some n /\ e = ValueError m /\ named_fields m = [n]
              /\ bad_choices f.
Proof.
  intros H [n Hn]. exists n. revert H.
  unfold validate_choices, getitem_Name, bad_choices. rewrite Hn.
  destruct (Choices f) as [c|]; [|done]. simpl.
  case_bool_decide as Hd.
  - intros [= <-]. eexists. repeat split. exists c. split; [done|]. right.
    intros Hnd. by apply duplicated_empty in Hnd.
  - case_bool_decide as He; [|done].
    intros [= <-]. eexists. repeat split. exists c. split; [done|]. by left.
Qed.

Lemma cwd_labels_raw ps : cwd_labels (CWD_list ps) = Return ps.*1.
Proof. reflexivity. Qed.

Lemma validate_choices_with_data_Return field_names f :
  is_Some (Name f) ->
  validate_choices_with_data field_names f = Return tt
  <-> (forall n c, Name f = Some n -> ChoicesWithData f = Some c ->
         (value_field_name n ∉ field_names)
         /\ cwd_empty c = false
         /\ exists labels, cwd_labels c = Return labels /\ NoDup labels).
Proof.
  intros [n Hn]. unfold validate_choices_with_data, getitem_Name. rewrite Hn.
  destruct (ChoicesWithData f) as [c|]; [|by split]. simpl.
  case_bool_decide as Hv.
  { split; [done|]. intros H. by destruct (H n c eq_refl eq_refl) as [Hn' _]. }
  destruct (cwd_labels c) as [labels|e] eqn:Hl; simpl.
  2:{ split; [done|]. intros H.
      destruct (H n c eq_refl eq_refl) as (_ & _ & l & Hl' & _). congruence. }
  case_bool_decide as Hd.
  { split; [done|]. intros H.
    destruct (H n c eq_refl eq_refl) as (_ & _ & l & Hl' & Hnd).
    rewrite Hl in Hl'. injection Hl' as <-. by apply duplicated_empty in Hnd. }
  apply duplicated_empty in Hd.
  destruct (cwd_empty c) eqn:He.
  { split; [done|]. intros H.
    destruct (H n c eq_refl eq_refl) as (_ & He' & _). congruence. }
  split; [|done]. intros _ n' c' [= <-] [= <-]. eauto.
Qed.

Lemma validate_choices_with_data_Raise fields f e :
  validate_choices_with_data (names_of fields) f = Raise e ->
  f ∈ fields -> is_Some (Name f) ->
  (forall c, ChoicesWithData f = Some c -> exists ps, c = CWD_list ps) ->
  exists m, e = ValueError m /\ named_fields m ≠ []
            /\ forall n, n ∈ named_fields m -> offending fields n.
Proof.
  intros H Hin [n Hn] Hraw. revert H.
  unfold validate_choices_with_data, getitem_Name. rewrite Hn.
  destruct (ChoicesWithData f) as [c|] eqn:Hc; [|done]. simpl.
  destruct (Hraw c eq_refl) as [ps ->].
  case_bool_decide as Hv.
  { intros [= <-]. eexists. split; [done|]. split; [done|].
    intros n' Hn'%list_elem_of_singleton. subst n'.
    apply list_elem_of_omap in Hv as (g & Hg & Hgn).
    right. exists g. repeat split; [done..|].
    do 3 right. exists f, n. rewrite Hc. eauto. }
  simpl. case_bool_decide as Hd.
  { intros [= <-]. eexists. split; [done|]. split; [done|].
    intros n' Hn'%list_elem_of_singleton. subst n'.
    right. exists f. repeat split; [done..|].
    do 2 right. left. exists ps. split; [done|]. right.
    intros Hnd. by apply duplicated_empty in Hnd. }
  case_bool_decide as He; [|done].
  intros [= <-]. eexists. split; [done|]. split; [done|].
  intros n' Hn'%list_elem_of_singleton. subst n'.
  right. exists f. repeat split; [done..|].
  do 2 right. left. exists ps. split; [done|]. by left.
Qed.

Lemma check_fields_Return fields :
  check_fields fields = Return tt <-> well_formed fields.
Proof.
  unfold check_fields, well_formed.
  destruct (existsb _ fields) eqn:Hex.
  { split; [done|]. intros [_ Hok].
    apply existsb_no_name in Hex as (f & Hf & Hn).
    rewrite Forall_forall in Hok. destruct (Hok f Hf) as [[n Hn'] _]. congruence. }
  apply existsb_no_name_false in Hex.
  rewrite (mapM_getitem_Name _ Hex). simpl.
  case_bool_decide as Hd.
  { split; [done|]. intros [Hnd _]. by apply duplicated_empty in Hnd. }
  apply duplicated_empty in Hd.
  destruct (List.find has_both fields) as [bad|] eqn:Hb.
  { apply find_has_both_Some in Hb as [Hin Hboth].
    rewrite Forall_forall in Hex. destruct (Hex bad Hin) as [n Hn].
    unfold getitem_Name. rewrite Hn. simpl.
    split; [done|]. intros [_ Hok].
    rewrite Forall_forall in Hok. by destruct (Hok bad Hin) as (_ & Hnb & _). }
  apply find_has_both_None in Hb.
  destruct (for_each fields validate_choices) as [[]|e] eqn:Hc; simpl.
  - apply for_each_Return in Hc. rewrite for_each_Return.
    split.
    + intros Hw. split; [done|].
      rewrite Forall_forall in *. intros f Hf. split; [by apply Hex|].
      split; [by apply Hb|]. split.
      * apply validate_choices_Return; [by apply Hex | by apply Hc].
      * apply validate_choices_with_data_Return; [by apply Hex | by apply Hw].
    + intros [_ Hok]. rewrite Forall_forall in *. intros f Hf.
      apply validate_choices_with_data_Return; [by apply Hex|].
      by destruct (Hok f Hf) as (_ & _ & _ & H).
  - split; [done|]. intros [_ Hok].
    apply for_each_Raise in Hc as (f & Hf & Hc).
    rewrite Forall_forall in Hok, Hex.
    destruct (Hok f Hf) as (_ & _ & H & _).
    apply validate_choices_Return in H; [congruence | by apply Hex].
Qed.

(** Whatever [check_fields] raises for a raw list of fields is a
    [ValueError] of the builder: either the message for a field without
    a name, or a message that names fields, each of them a declared
    field that breaks an invariant. *)
Lemma check_fields_Raise fields e :
  raw_fields fields ->
  check_fields fields = Raise e ->
  exists m, e = ValueError m
    /\ ((m = Msg_no_field_name /\ exists f, f ∈ fields /\ Name f = None)
        \/ (named_fields m ≠ [] /\ forall n, n ∈ named_fields m -> offending fields n)).
Proof.
  intros Hraw. unfold check_fields.
  destruct (existsb _ fields) eqn:Hex.
  { intros [= <-]. eexists. split; [done|]. left.
    split; [done|]. by apply existsb_no_name. }
  apply existsb_no_name_false in Hex.
  rewrite (mapM_getitem_Name _ Hex). simpl.
  pose proof Hex as Hnamed. rewrite Forall_forall in Hnamed.
  case_bool_decide as Hd.
  { intros [= <-]. eexists. split; [done|]. right. simpl.
    split; [by apply sorted_elements_nonempty|].
    intros n Hn%elem_of_sorted_duplicated. by left. }
  destruct (List.find has_both fields) as [bad|] eqn:Hb.
  { apply find_has_both_Some in Hb as [Hin Hboth].
    destruct (Hnamed bad Hin) as [n Hn].
    unfold getitem_Name. rewrite Hn. simpl.
    intros [= <-]. eexists. split; [done|]. right. simpl. split; [done|].
    intros n' Hn'%list_elem_of_singleton. subst n'.
    right. exists bad. eauto. }
  destruct (for_each fields validate_choices) as [[]|e'] eqn:Hc; simpl.
  - intros Hw. apply for_each_Raise in Hw as (f & Hf & Hw).
    apply validate_choices_with_data_Raise in Hw; eauto.
    destruct Hw as (m & -> & Hne & Hoff). eauto.
  - intros [= <-]. apply for_each_Raise in Hc as (f & Hf & Hc).
    apply validate_choices_Raise in Hc as (n & m & Hn & -> & Hm & Hbad); eauto.
    exists m. split; [done|]. right. rewrite Hm. split; [done|].
    intros n' Hn'%list_elem_of_singleton. subst n'.
    right. exists f. eauto.
Qed.

Lemma well_formed_not_violates fields : well_formed fields -> ~ violates fields.
Proof.
  intros [Hnd Hok]. rewrite Forall_forall in Hok.
  intros [(f & Hf & Hn)|[Hdup|[(f & Hf & Hb)|[(f & Hf & Hb)|(f & Hf & Hb)]]]].
  - destruct (Hok f Hf) as [[n Hn'] _]. congruence.
  - done.
  - by destruct (Hok f Hf) as (_ & Hnb & _).
  - destruct (Hok f Hf) as (_ & _ & Hc & _).
    destruct Hb as (c & Hc' & Hbad). destruct (Hc c Hc') as [Hne Hndc].
    by destruct Hbad.
  - destruct (Hok f Hf) as ([n Hn] & _ & _ & Hc).
    destruct Hb as (ps & Hps & Hbad).
    destruct (Hc n _ Hn Hps) as (_ & He & labels & Hl & Hndl).
    simpl in He, Hl. injection Hl as <-.
    destruct Hbad as [->|Hbad]; [by rewrite bool_decide_eq_true_2 in He | done].
Qed.

(** The constructor stops at what [_fields_from_template_spec] raises,
    with the caller's specification as it was. *)
Lemma MetadataTemplate_init_check_Raise order suffix spec fs e :
  spec_Fields spec = Some fs ->
  check_fields fs = Raise e ->
  MetadataTemplate_init order suffix spec = (spec, Raise e).
Proof.
  intros Hfs Hc. unfold MetadataTemplate_init, _fields_from_template_spec.
  rewrite Hfs, Hc. simpl. destruct spec; simpl in *. by rewrite Hfs.
Qed.

(** C6: a raw specification with a field without a name, or a repeated
    field name, or a field with both ['Choices'] and ['ChoicesWithData'],
    or an empty vocabulary or one that repeats a label, is refused: the
    constructor raises a [ValueError] and returns no template (and
    leaves the specification as it was).  The error is the one for a
    field without a name, which has no name to give, or it names at
    least one field and names only declared fields that break an
    invariant. *)
Theorem C6_ill_formed_specification_is_refused order suffix spec :
  let fs := default [] (spec_Fields spec) in
  raw_fields fs ->
  violates fs ->
  exists m,
    MetadataTemplate_init order suffix spec = (spec, Raise (ValueError m))
    /\ ((m = Msg_no_field_name /\ exists f, f ∈ fs /\ Name f = None)
        \/ (named_fields m ≠ [] /\ forall n, n ∈ named_fields m -> offending fs n)).
Proof.
  intros fs Hraw Hbad. subst fs.
  destruct (spec_Fields spec) as [fs|] eqn:Hfs; simpl in *.
  - destruct (check_fields fs) as [[]|e] eqn:Hc.
    + apply check_fields_Return in Hc.
      destruct (well_formed_not_violates _ Hc Hbad).
    + destruct (check_fields_Raise _ _ Hraw Hc) as (m & -> & Hm).
      exists m. split; [|done].
      by apply MetadataTemplate_init_check_Raise with (fs := fs).
  - exfalso.
    destruct Hbad as [(f & Hf & _)|[Hdup|[(f & Hf & _)|[(f & Hf & _)|(f & Hf & _)]]]];
      try (by apply elem_of_nil in Hf).
    apply Hdup. constructor.
Qed.

Lemma C6_witness :
  exists m,
    MetadataTemplate_init CPython27.order any_suffix Examples.repeated_name
      = (Examples.repeated_name, Raise (ValueError m))
    /\ ((m = Msg_no_field_name
         /\ exists f, f ∈ default [] (spec_Fields Examples.repeated_name)
                      /\ Name f = None)
        \/ (named_fields m ≠ []
            /\ forall n, n ∈ named_fields m ->
                 offending (default [] (spec_Fields Examples.repeated_name)) n)).
Proof.
  apply (C6_ill_formed_specification_is_refused
           CPython27.order any_suffix Examples.repeated_name).
  - intros f c Hf Hc. simpl in Hf.
    apply elem_of_cons in Hf as [->|Hf]; [discriminate|].
    apply elem_of_cons in Hf as [->|Hf]; [discriminate|].
    by apply elem_of_nil in Hf.
  - right. left. simpl. intros Hnd.
    apply NoDup_cons in Hnd as [Hnin _]. apply Hnin. left.
Defined.

(** The message for the repeated name. *)
Example repeated_name_refused :
  (MetadataTemplate_init CPython27.order any_suffix Examples.repeated_name).2
  = Raise (ValueError (Msg_duplicated_fields ["catalogNumber"])).
Proof. vm_compute. reflexivity. Qed.

(** ** What the constructor returns *)

Lemma named_items_keys fields : dict_keys (named_items fields) = names_of fields.
Proof.
  unfold dict_keys, named_items, names_of.
  induction fields as [|f fs IH]; simpl; [done|].
  destruct (Name f); simpl; [f_equal|]; exact IH.
Qed.

Lemma named_items_values fields :
  Forall (fun f => is_Some (Name f)) fields -> (named_items fields).*2 = fields.
Proof.
  unfold named_items. induction 1 as [|f fs [n Hn] _ IH]; simpl; [done|].
  rewrite Hn. simpl. f_equal. exact IH.
Qed.

Lemma elem_of_named_items fields n f :
  (n, f) ∈ named_items fields <-> f ∈ fields /\ Name f = Some n.
Proof.
  unfold named_items. rewrite list_elem_of_omap. split.
  - intros (g & Hg & Hn). destruct (Name g) eqn:E; [|done].
    simpl in Hn. injection Hn as <- <-. done.
  - intros [Hf Hn]. exists f. by rewrite Hn.
Qed.

Lemma mapM_named fields :
  Forall (fun f => is_Some (Name f)) fields ->
  mapM (fun f => n <- getitem_Name f ;; Return (n, f))%py fields
  = Return (named_items fields).
Proof.
  unfold named_items. induction 1 as [|f fs [n Hn] _ IH]; simpl; [done|].
  unfold getitem_Name at 1. rewrite Hn. simpl. rewrite IH. done.
Qed.

Lemma names_of_store_OrderedDict fields :
  names_of (store_OrderedDict <$> fields) = names_of fields.
Proof.
  unfold names_of. induction fields as [|f fs IH]; simpl; [done|].
  destruct (Name f); simpl; [f_equal|]; exact IH.
Qed.

Lemma well_formed_named fields :
  well_formed fields -> Forall (fun f => is_Some (Name f)) fields.
Proof. intros [_ H]. eapply Forall_impl; [exact H|]. by intros f [? _]. Qed.

(** A successful construction: the specification had a list of fields
    that passed every check, the caller's specification now holds the
    fields with their [OrderedDict]s, and the template aliases them. *)
Lemma MetadataTemplate_init_Return order suffix spec spec' t :
  MetadataTemplate_init order suffix spec = (spec', Return t) ->
  exists fs,
    spec_Fields spec = Some fs /\ well_formed fs /\ fs ≠ []
    /\ spec_Fields spec' = Some (store_OrderedDict <$> fs)
    /\ _fields t = store_OrderedDict <$> fs
    /\ _object_label t = default "{catalogNumber}" (spec_Object_label spec)
    /\ constructed order t.
Proof.
  unfold MetadataTemplate_init.
  destruct (spec_Fields spec) as [fs|] eqn:Hfs.
  2:{ simpl. destruct (truthy_opt (spec_Name spec)); simpl; intros [= _ ?]. }
  unfold _fields_from_template_spec.
  destruct (check_fields fs) as [[]|e] eqn:Hc; [|intros [= _ ?]].
  apply check_fields_Return in Hc. cbn [obind spec_Name spec_Cropped_file_suffix
    spec_Object_label spec_Fields].
  destruct (truthy_opt (spec_Name spec)); cbn [negb]; [|intros [= _ ?]].
  case_bool_decide as Hnil; [intros [= _ ?]|].
  pose proof (well_formed_named _ Hc) as Hnamed.
  assert (Hnamed' : Forall (fun f => is_Some (Name f)) (store_OrderedDict <$> fs)).
  { apply Forall_fmap. eapply Forall_impl; [exact Hnamed|]. by intros f. }
  destruct (match spec_Cropped_file_suffix spec with
            | Some s => _ | None => _ end) as [sfx|e]; [|intros [= _ ?]].
  cbn [obind]. rewrite (mapM_named _ Hnamed'). cbn [obind].
  intros [= <- <-]. exists fs. cbn.
  destruct Hc as [Hnd Hok]. rewrite Forall_forall in Hok.
  assert (Hkeys : NoDup (dict_keys (named_items (store_OrderedDict <$> fs)))).
  { by rewrite named_items_keys, names_of_store_OrderedDict. }
  split; [done|]. split; [split; [done | by apply Forall_forall]|].
  split; [by intros ->|]. do 3 (split; [done|]).
  constructor; cbn [_fields _fields_mapping _choices_with_data_mapping
                    _parse_mapping _mandatory]; [done| | | | | | |done].
  - by rewrite names_of_store_OrderedDict.
  - intros f n Hf Hn Hcwd. rewrite names_of_store_OrderedDict.
    apply list_elem_of_fmap in Hf as (g & -> & Hg).
    destruct (Hok g Hg) as (_ & _ & _ & H).
    destruct (ChoicesWithData g) as [c|] eqn:Hgc.
    + by destruct (H n c Hn eq_refl) as [? _].
    + simpl in Hcwd. rewrite Hgc in Hcwd. by destruct Hcwd.
  - intros f c Hf Hfc.
    apply list_elem_of_fmap in Hf as (g & -> & Hg). simpl in Hfc.
    destruct (ChoicesWithData g) as [[ps|d]|]; simpl in Hfc; [| |done];
      injection Hfc as <-; eauto.
  - cbn. by apply dict_from_items_NoDup.
  - cbn. apply dict_from_items_NoDup.
    unfold dict_keys in *. apply NoDup_fmap_fst.
    + intros k f1 f2 H1%list_elem_of_filter H2%list_elem_of_filter.
      destruct H1 as [_ H1], H2 as [_ H2].
      apply (dict_get_Some _ _ _ Hkeys) in H1, H2. congruence.
    + apply NoDup_filter. eapply NoDup_fmap_1. exact Hkeys.
  - cbn. rewrite (dict_from_items_NoDup (named_items _)) by done.
    apply dict_from_items_NoDup.
    pose proof (iteritems_Permutation order _ Hkeys) as Hperm.
    assert (Hnd' : NoDup (iteritems order (named_items (store_OrderedDict <$> fs))).*1).
    { by rewrite Hperm. }
    revert Hnd'. generalize (iteritems order (named_items (store_OrderedDict <$> fs))).
    unfold dict_keys. induction l as [|[k f] l IH]; simpl; [done|].
    rewrite NoDup_cons. intros [Hk Hl].
    destruct (Parser f); simpl; [|by apply IH].
    apply NoDup_cons. split; [|by apply IH].
    intros Hin. apply Hk. apply list_elem_of_fmap in Hin as ([k' p'] & -> & Hin).
    apply list_elem_of_omap in Hin as ([k'' f''] & Hin & Hp).
    simpl in Hp. destruct (Parser f''); [|done]. injection Hp as <- <-.
    apply list_elem_of_fmap. by exists (k'', f'').
Qed.

Lemma MetadataTemplate_init_constructed order suffix spec t :
  (MetadataTemplate_init order suffix spec).2 = Return t -> constructed order t.
Proof.
  destruct (MetadataTemplate_init order suffix spec) as [spec' r] eqn:Hinit.
  simpl. intros ->.
  by destruct (MetadataTemplate_init_Return _ _ _ _ _ Hinit) as (? & ? & ? & ? & ? & ? & ? & ?).
Qed.

(** ** Single-field validation *)

(** C7: for a template that the constructor returned, a field name
    that none of its fields has, and any value, the empty string
    included, [validate_field] returns [True]. *)
Theorem C7_validate_field_unknown_name order suffix spec t name value :
  (MetadataTemplate_init order suffix spec).2 = Return t ->
  name ∉ names_of (_fields t) ->
  validate_field t name value = Return true.
Proof.
  intros Ht Hname. apply MetadataTemplate_init_constructed in Ht.
  unfold validate_field.
  rewrite (constructed_fields_mapping _ _ Ht), named_items_keys.
  by rewrite bool_decide_eq_true_2.
Qed.

Lemma C7_witness :
  validate_field (Examples.build Examples.catalogNumber) "collector" ""
  = Return true.
Proof.
  apply (C7_validate_field_unknown_name
           CPython27.order any_suffix Examples.catalogNumber).
  - vm_compute. reflexivity.
  - vm_compute. intros H. apply list_elem_of_In in H. simpl in H.
    destruct H as [H|[]]. discriminate H.
Defined.

(** ** The constructor and the caller's specification *)

Lemma store_OrderedDict_list f ps :
  ChoicesWithData f = Some (CWD_list ps) ->
  NoDup ps.*1 ->
  ChoicesWithData (store_OrderedDict f) = Some (CWD_ordered ps).
Proof.
  intros Hf Hnd. simpl. rewrite Hf. simpl.
  by rewrite dict_from_items_NoDup.
Qed.

Lemma store_OrderedDict_changes (fs : list FieldSpec) f ps :
  f ∈ fs -> ChoicesWithData f = Some (CWD_list ps) ->
  store_OrderedDict <$> fs ≠ fs.
Proof.
  intros Hf Hc Heq. apply list_elem_of_lookup in Hf as [i Hi].
  pose proof (list_lookup_fmap store_OrderedDict fs i) as Hl.
  rewrite Heq, Hi in Hl. simpl in Hl. injection Hl as Hl.
  apply (f_equal ChoicesWithData) in Hl. simpl in Hl. rewrite Hc in Hl.
  discriminate Hl.
Qed.

(** C9: when the fields of the caller's specification pass the checks,
    the constructor leaves every field's list of (label, data) pairs
    replaced by an ordered mapping holding the same pairs; so it does
    also when it then raises because the specification has no name, and
    the specification is then no longer what it was. *)
Theorem C9_constructor_mutates_specification order suffix spec fs :
  spec_Fields spec = Some fs ->
  check_fields fs = Return tt ->
  let spec' := (MetadataTemplate_init order suffix spec).1 in
  spec_Fields spec' = Some (store_OrderedDict <$> fs)
  /\ (forall f ps, f ∈ fs -> ChoicesWithData f = Some (CWD_list ps) ->
        ChoicesWithData (store_OrderedDict f) = Some (CWD_ordered ps))
  /\ (truthy_opt (spec_Name spec) = false ->
        (MetadataTemplate_init order suffix spec).2
        = Raise (ValueError Msg_no_template_name))
  /\ ((exists f ps, f ∈ fs /\ ChoicesWithData f = Some (CWD_list ps)) ->
        spec' ≠ spec).
Proof.
  intros Hfs Hc spec'.
  assert (Hspec' : spec_Fields spec' = Some (store_OrderedDict <$> fs)).
  { subst spec'. unfold MetadataTemplate_init, _fields_from_template_spec.
    by rewrite Hfs, Hc. }
  split; [done|]. split; [|split].
  - intros f ps Hf Hps. apply store_OrderedDict_list; [done|].
    apply check_fields_Return in Hc as [_ Hok].
    rewrite Forall_forall in Hok.
    destruct (Hok f Hf) as ([n Hn] & _ & _ & H).
    destruct (H n _ Hn Hps) as (_ & _ & labels & Hl & Hnd).
    simpl in Hl. by injection Hl as <-.
  - intros Hname. unfold MetadataTemplate_init, _fields_from_template_spec.
    rewrite Hfs, Hc. simpl. by rewrite Hname.
  - intros (f & ps & Hf & Hps) Heq. rewrite Heq, Hfs in Hspec'.
    injection Hspec' as Hspec'.
    by apply (store_OrderedDict_changes fs f ps).
Qed.

Lemma C9_witness :
  let spec' :=
    (MetadataTemplate_init CPython27.order any_suffix Examples.sex_unnamed).1 in
  spec_Fields spec' = Some (store_OrderedDict <$> [Examples.sex_field])
  /\ (forall f ps, f ∈ [Examples.sex_field] ->
        ChoicesWithData f = Some (CWD_list ps) ->
        ChoicesWithData (store_OrderedDict f) = Some (CWD_ordered ps))
  /\ (truthy_opt (spec_Name Examples.sex_unnamed) = false ->
        (MetadataTemplate_init CPython27.order any_suffix Examples.sex_unnamed).2
        = Raise (ValueError Msg_no_template_name))
  /\ ((exists f ps, f ∈ [Examples.sex_field]
                    /\ ChoicesWithData f = Some (CWD_list ps)) ->
        spec' ≠ Examples.sex_unnamed).
Proof.
  apply (C9_constructor_mutates_specification
           CPython27.order any_suffix Examples.sex_unnamed [Examples.sex_field]).
  - reflexivity.
  - vm_compute. reflexivity.
Defined.

(** The specification without a name, after the constructor raised. *)
Example sex_unnamed_after_failure :
  MetadataTemplate_init CPython27.order any_suffix Examples.sex_unnamed
  = ({| spec_Name := None; spec_Object_label := None;
        spec_Cropped_file_suffix := None;
        spec_Fields :=
          Some [ {| Name := Some "sex"; Mandatory := None; Choices := None;
                    ChoicesWithData :=
                      Some (CWD_ordered [("M", "Male"); ("F", "Female")]);
                    Parser := None |} ] |},
     Raise (ValueError Msg_no_template_name)).
Proof. vm_compute. reflexivity. Qed.

(** ** Derived metadata *)

Lemma string_append_cons c (a b : string) :
  (String c a ++ b)%string = String c (a ++ b)%string.
Proof. reflexivity. Qed.

Lemma string_length_append (a b : string) :
  String.length (a ++ b)%string = String.length a + String.length b.
Proof.
  induction a as [|c a IH]; [done|].
  rewrite string_append_cons. simpl. by rewrite IH.
Qed.

Lemma string_append_inj_r (s a b : string) :
  (a ++ s)%string = (b ++ s)%string -> a = b.
Proof.
  revert b. induction a as [|c a IH]; intros [|c' b] H.
  - done.
  - apply (f_equal String.length) in H.
    rewrite !string_length_append in H. simpl in H. lia.
  - apply (f_equal String.length) in H.
    rewrite !string_length_append in H. simpl in H. lia.
  - rewrite !string_append_cons in H. injection H as -> H. f_equal. by apply IH.
Qed.

Lemma value_field_name_inj a b : value_field_name a = value_field_name b -> a = b.
Proof. apply string_append_inj_r. Qed.

Section BoxMetadataLoop.
Implicit Types (md : gmap string string) (f : FieldSpec) (fs : list FieldSpec).

(** The name and the derived name that the loop body uses for [f]. *)
Let nm f : string := default "" (Name f).
Let vf f : string := value_field_name (nm f).

Lemma box_metadata_step_lookup md f k :
  k ≠ vf f -> box_metadata_step md f !! k = md !! k.
Proof.
  intros Hk. unfold box_metadata_step. fold (nm f).
  destruct (cwd_lookup _ _); [|done]. by rewrite lookup_insert_ne.
Qed.

Lemma box_metadata_step_derived md f :
  box_metadata_step md f !! vf f
  = match cwd_lookup (ChoicesWithData f) (md !! nm f) with
    | Some v => Some v
    | None => md !! vf f
    end.
Proof.
  unfold box_metadata_step. fold (nm f).
  destruct (cwd_lookup _ _); [|done]. apply lookup_insert_eq.
Qed.

(** The loop writes only under derived names. *)
Lemma box_metadata_loop_other fs md k :
  k ∉ vf <$> fs -> fold_left box_metadata_step fs md !! k = md !! k.
Proof.
  revert md. induction fs as [|g fs IH]; intros md Hk; simpl; [done|].
  rewrite fmap_cons, not_elem_of_cons in Hk. destruct Hk as [Hg Hfs].
  rewrite IH by done. by apply box_metadata_step_lookup.
Qed.

(** When the fields have distinct names and no derived name is the name
    of a field, each turn sees the raw values of the mapping as it was
    before the loop. *)
Lemma box_metadata_loop_derived fs md f :
  NoDup (nm <$> fs) ->
  (forall g h, g ∈ fs -> h ∈ fs -> vf g ≠ nm h) ->
  f ∈ fs ->
  fold_left box_metadata_step fs md !! vf f
  = match cwd_lookup (ChoicesWithData f) (md !! nm f) with
    | Some v => Some v
    | None => md !! vf f
    end.
Proof.
  revert md. induction fs as [|g fs IH]; intros md Hnd Hvf Hf; simpl.
  { by apply elem_of_nil in Hf. }
  rewrite fmap_cons in Hnd. apply NoDup_cons in Hnd as [Hg Hnd].
  destruct (decide (nm f = nm g)) as [Hfg|Hfg].
  - assert (Hk : vf f ∉ vf <$> fs).
    { intros (h & Hh & Hin)%list_elem_of_fmap. apply Hg.
      apply value_field_name_inj in Hh. rewrite <- Hfg, Hh.
      by apply list_elem_of_fmap_2. }
    rewrite box_metadata_loop_other by done.
    apply elem_of_cons in Hf as [->|Hf]; [apply box_metadata_step_derived|].
    destruct Hg. rewrite <- Hfg. by apply list_elem_of_fmap_2.
  - apply elem_of_cons in Hf as [->|Hf]; [done|].
    rewrite IH; [|done| |done].
    2:{ intros g' h Hg' Hh. apply Hvf; by right. }
    rewrite !box_metadata_step_lookup; [done| |].
    + intros Heq. apply Hfg. by apply value_field_name_inj.
    + intros Heq. symmetry in Heq. revert Heq. apply Hvf; [left | by right].
Qed.

(** A mapping that has its derived entries goes through the loop as it
    is. *)
Lemma box_metadata_loop_fixpoint fs md :
  (forall f v, f ∈ fs -> cwd_lookup (ChoicesWithData f) (md !! nm f) = Some v ->
               md !! vf f = Some v) ->
  fold_left box_metadata_step fs md = md.
Proof.
  induction fs as [|g fs IH]; intros H; simpl; [done|].
  assert (Hstep : box_metadata_step md g = md).
  { unfold box_metadata_step. fold (nm g).
    destruct (cwd_lookup _ _) as [v|] eqn:Hv; [|done].
    apply insert_id. apply H; [left | done]. }
  rewrite Hstep. apply IH. intros f v Hf. apply H. by right.
Qed.
End BoxMetadataLoop.

Section BoxMetadata.
Variable order : DictOrder.
Variable t : MetadataTemplate.
Hypothesis Ht : constructed order t.

(** The fields that the loop of [box_metadata] visits. *)
Let visited : list FieldSpec := itervalues order (_choices_with_data_mapping t).

Lemma choices_with_data_mapping_keys :
  NoDup (dict_keys (_choices_with_data_mapping t)).
Proof.
  rewrite (constructed_choices_with_data_mapping _ _ Ht).
  unfold dict_keys. apply NoDup_fmap_fst.
  - intros k f1 f2 [_ H1]%list_elem_of_filter [_ H2]%list_elem_of_filter.
    apply elem_of_named_items in H1 as [H1 Hn1], H2 as [H2 Hn2].
    pose proof (constructed_NoDup _ _ Ht) as Hnd.
    rewrite <- named_items_keys in Hnd.
    assert (Hg1 : dict_get (named_items (_fields t)) k = Some f1).
    { apply dict_get_Some; [done|]. by apply elem_of_named_items. }
    assert (Hg2 : dict_get (named_items (_fields t)) k = Some f2).
    { apply dict_get_Some; [done|]. by apply elem_of_named_items. }
    congruence.
  - apply NoDup_filter. apply (NoDup_fmap_1 fst).
    pose proof (named_items_keys (_fields t)) as Hk. unfold dict_keys in Hk.
    rewrite Hk. apply (constructed_NoDup _ _ Ht).
Qed.

Lemma visited_Permutation :
  visited ≡ₚ (filter (fun nf => is_Some (ChoicesWithData nf.2))
                     (named_items (_fields t))).*2.
Proof.
  unfold visited, itervalues.
  rewrite (iteritems_Permutation order _ choices_with_data_mapping_keys).
  by rewrite (constructed_choices_with_data_mapping _ _ Ht).
Qed.

Lemma elem_of_visited f :
  f ∈ visited <-> f ∈ _fields t /\ is_Some (ChoicesWithData f).
Proof.
  rewrite visited_Permutation, list_elem_of_fmap. split.
  - intros ([n g] & -> & [Hc Hin]%list_elem_of_filter).
    apply elem_of_named_items in Hin as [Hin _]. done.
  - intros [Hf Hc].
    pose proof (constructed_named _ _ Ht) as Hnamed.
    rewrite Forall_forall in Hnamed. destruct (Hnamed f Hf) as [n Hn].
    exists (n, f). split; [done|]. apply list_elem_of_filter.
    split; [done|]. by apply elem_of_named_items.
Qed.

Lemma visited_names_NoDup : NoDup ((fun f => default "" (Name f)) <$> visited).
Proof.
  rewrite visited_Permutation.
  pose proof choices_with_data_mapping_keys as Hnd.
  rewrite (constructed_choices_with_data_mapping _ _ Ht) in Hnd.
  unfold dict_keys in Hnd.
  assert (Hnames : forall nf, nf ∈ named_items (_fields t) ->
                              default "" (Name nf.2) = nf.1).
  { intros [n f] [_ Hn]%elem_of_named_items. simpl. by rewrite Hn. }
  revert Hnd Hnames. generalize (named_items (_fields t)) as l.
  induction l as [|nf l IH]; intros Hnd Hnames; [constructor|].
  rewrite filter_cons in *.
  destruct (decide (is_Some (ChoicesWithData nf.2))).
  - rewrite !fmap_cons in *. rewrite Hnames by left.
    apply NoDup_cons in Hnd as [Hnf Hnd]. apply NoDup_cons. split.
    + intros (g & Hg & Hin)%list_elem_of_fmap. apply Hnf.
      apply list_elem_of_fmap in Hin as (ng & -> & Hin).
      apply list_elem_of_fmap. exists ng. split; [|done].
      rewrite Hg. apply Hnames. right.
      by apply list_elem_of_filter in Hin as [_ Hin].
    + apply IH; [done|]. intros nf' Hin. apply Hnames. by right.
  - apply IH; [done|]. intros nf' Hin. apply Hnames. by right.
Qed.

Lemma visited_value_field g h :
  g ∈ visited -> h ∈ visited ->
  value_field_name (default "" (Name g)) ≠ default "" (Name h).
Proof.
  intros [Hg Hgc]%elem_of_visited [Hh _]%elem_of_visited.
  pose proof (constructed_named _ _ Ht) as Hnamed.
  rewrite Forall_forall in Hnamed.
  destruct (Hnamed g Hg) as [n Hn], (Hnamed h Hh) as [m Hm].
  rewrite Hn, Hm. simpl. intros Heq.
  apply (constructed_value_field _ _ Ht g n Hg Hn Hgc).
  rewrite Heq. by apply names_of_elem with (f := h).
Qed.

(** The derived name of a visited field is not the name of a field. *)
Lemma value_field_not_declared g n :
  g ∈ visited -> n ∈ names_of (_fields t) ->
  value_field_name (default "" (Name g)) ≠ n.
Proof.
  intros [Hg Hgc]%elem_of_visited Hn Heq.
  pose proof (constructed_named _ _ Ht) as Hnamed.
  rewrite Forall_forall in Hnamed. destruct (Hnamed g Hg) as [m Hm].
  rewrite Hm in Heq. simpl in Heq. subst n.
  by apply (constructed_value_field _ _ Ht g m Hg Hm Hgc).
Qed.

(** [box_metadata] leaves the raw values of the declared fields alone. *)
Lemma box_metadata_declared box n :
  n ∈ names_of (_fields t) ->
  (box_metadata order t box).2 !! n = fields box !! n.
Proof.
  intros Hn. unfold box_metadata. simpl. fold visited.
  apply box_metadata_loop_other.
  intros (g & Hg & Hin)%list_elem_of_fmap.
  by apply (value_field_not_declared g n Hin Hn).
Qed.

Lemma box_metadata_derived box f n :
  f ∈ _fields t -> Name f = Some n -> is_Some (ChoicesWithData f) ->
  (box_metadata order t box).2 !! value_field_name n
  = match derived_value (fields box) f with
    | Some v => Some v
    | None => fields box !! value_field_name n
    end.
Proof.
  intros Hf Hn Hc. unfold box_metadata, derived_value. simpl. fold visited.
  pose proof (box_metadata_loop_derived visited (fields box) f
                visited_names_NoDup visited_value_field) as H.
  assert (Hv : f ∈ visited) by (by apply elem_of_visited).
  specialize (H Hv). cbv beta zeta in H. rewrite Hn in H. simpl in H.
  rewrite Hn. simpl. exact H.
Qed.

Lemma derived_value_Some md f v :
  derived_value md f = Some v -> is_Some (Name f) /\ is_Some (ChoicesWithData f).
Proof.
  unfold derived_value. destruct (Name f) as [n|]; [|done]. simpl.
  destruct (ChoicesWithData f); [eauto | done].
Qed.

Lemma box_metadata_with_derived_entries box :
  with_derived_entries t (fields box) (box_metadata order t box).2.
Proof.
  split.
  - intros f n v Hf Hn Hv.
    destruct (derived_value_Some _ _ _ Hv) as [_ Hc].
    by rewrite (box_metadata_derived box f n Hf Hn Hc), Hv.
  - intros k Hk. unfold box_metadata. simpl. fold visited.
    destruct (decide (k ∈ (fun f => value_field_name (default "" (Name f)))
                            <$> visited)) as [Hin|Hnin].
    2:{ by apply box_metadata_loop_other. }
    apply list_elem_of_fmap in Hin as (f & -> & Hf).
    pose proof Hf as [Hf' Hc]%elem_of_visited.
    pose proof (constructed_named _ _ Ht) as Hnamed.
    rewrite Forall_forall in Hnamed. destruct (Hnamed f Hf') as [n Hn].
    pose proof (box_metadata_derived box f n Hf' Hn Hc) as H.
    unfold box_metadata in H. simpl in H. fold visited in H.
    rewrite Hn. simpl. rewrite H.
    destruct (derived_value (fields box) f) as [v|] eqn:Hv; [|done].
    destruct Hk. exists f, n. rewrite Hv, Hn. eauto.
Qed.

(** A mapping with its derived entries is what [box_metadata] returns
    for it. *)
Lemma box_metadata_fixpoint box :
  has_derived_entries t (fields box) ->
  box_metadata order t box = (box, fields box).
Proof.
  intros H. unfold box_metadata. fold visited.
  rewrite box_metadata_loop_fixpoint; [by destruct box|].
  intros f v [Hf Hc]%elem_of_visited Hv.
  pose proof (constructed_named _ _ Ht) as Hnamed.
  rewrite Forall_forall in Hnamed. destruct (Hnamed f Hf) as [n Hn].
  rewrite Hn in *. simpl in *. apply (H f n v Hf Hn).
  unfold derived_value. by rewrite Hn.
Qed.

Lemma derived_value_named md f n :
  Name f = Some n -> derived_value md f = cwd_lookup (ChoicesWithData f) (md !! n).
Proof. intros Hn. unfold derived_value. by rewrite Hn. Qed.

Lemma box_metadata_has_derived_entries box :
  has_derived_entries t (box_metadata order t box).2.
Proof.
  intros f n v Hf Hn Hv.
  destruct (derived_value_Some _ _ _ Hv) as [_ Hc].
  rewrite (box_metadata_derived box f n Hf Hn Hc).
  rewrite (derived_value_named _ _ _ Hn) in Hv.
  rewrite (derived_value_named _ _ _ Hn).
  rewrite box_metadata_declared in Hv by (by apply names_of_elem with (f := f)).
  by rewrite Hv.
Qed.

Lemma box_metadata_alias box :
  fields (box_metadata order t box).1 = (box_metadata order t box).2.
Proof. reflexivity. Qed.

Lemma box_metadata_idempotent box :
  box_metadata order t (box_metadata order t box).1 = box_metadata order t box.
Proof.
  rewrite box_metadata_fixpoint.
  - reflexivity.
  - rewrite box_metadata_alias. apply box_metadata_has_derived_entries.
Qed.
End BoxMetadata.

(** Scenario B of the specification: the result for [{"sex": "M"}], and
    the record after the call. *)
Example box_metadata_sex :
  box_metadata CPython27.order (Examples.build Examples.sex)
               (Examples.box [("sex", "M")])
  = (Examples.box [("sex", "M"); ("sex-value", "Male")],
     list_to_map [("sex", "M"); ("sex-value", "Male")]).
Proof. vm_compute. reflexivity. Qed.

(** C1 as the specification states it fails: [box_metadata] writes the
    derived entry into the caller's record. *)
Lemma C1_counterexample :
  ~ record_metadata_is_pure CPython27.order (Examples.build Examples.sex).
Proof.
  intros H. destruct (H (Examples.box [("sex", "M")])) as (_ & Hsame & _).
  apply (f_equal (fun b => fields b !! "sex-value")) in Hsame.
  vm_compute in Hsame. discriminate Hsame.
Qed.

(** C1, amended: for a template that the constructor returned,
    [box_metadata] returns the record's own mapping, after adding to it
    the entry ["<name>-value"] for each ['ChoicesWithData'] field whose
    raw value is a label of its vocabulary, and nothing else; a second
    call on the record changes nothing and returns an equal mapping;
    and the record is as it was before the call exactly when it already
    had every such entry. *)
Theorem C1_box_metadata_adds_derived_entries_in_place order suffix spec t box :
  (MetadataTemplate_init order suffix spec).2 = Return t ->
  let r := box_metadata order t box in
  r.2 = fields r.1
  /\ with_derived_entries t (fields box) r.2
  /\ box_metadata order t r.1 = r
  /\ (r.1 = box <-> has_derived_entries t (fields box)).
Proof.
  intros Ht r. apply MetadataTemplate_init_constructed in Ht. subst r.
  split; [reflexivity|].
  split; [by apply box_metadata_with_derived_entries|].
  split; [by apply box_metadata_idempotent|].
  split.
  - intros Heq. rewrite <- Heq. rewrite box_metadata_alias.
    by apply box_metadata_has_derived_entries.
  - intros H. by rewrite (box_metadata_fixpoint order t Ht box H).
Qed.

Lemma C1_witness :
  let t := Examples.build Examples.sex in
  let box := Examples.box [("sex", "M")] in
  let r := box_metadata CPython27.order t box in
  r.2 = fields r.1
  /\ with_derived_entries t (fields box) r.2
  /\ box_metadata CPython27.order t r.1 = r
  /\ (r.1 = box <-> has_derived_entries t (fields box)).
Proof.
  apply (C1_box_metadata_adds_derived_entries_in_place
           CPython27.order any_suffix Examples.sex).
  vm_compute. reflexivity.
Defined.

(** ** Record validation *)

Lemma truthy_opt_true md n : truthy_opt (md !! n) = true <-> non_empty md n.
Proof.
  unfold non_empty, truthy_opt, truthy. destruct (md !! n) as [v|].
  - rewrite negb_true_iff. split.
    + intros H. exists v. split; [done|]. intros ->. by rewrite String.eqb_refl in H.
    + intros (v' & [= <-] & Hne). by apply String.eqb_neq.
  - split; [done|]. by intros (v & ? & _).
Qed.

Lemma omap_parser_keys_NoDup (l : list (string * FieldSpec)) :
  NoDup l.*1 -> NoDup (omap (fun kv => pair kv.1 <$> Parser kv.2) l).*1.
Proof.
  induction l as [|[k f] l IH]; simpl; [done|].
  rewrite NoDup_cons. intros [Hk Hl].
  destruct (Parser f); simpl; [|by apply IH].
  apply NoDup_cons. split; [|by apply IH].
  intros Hin. apply Hk. apply list_elem_of_fmap in Hin as ([k' p'] & -> & Hin).
  apply list_elem_of_omap in Hin as ([k'' f''] & Hin & Hp).
  simpl in Hp. destruct (Parser f''); [|done]. injection Hp as <- <-.
  apply list_elem_of_fmap. by exists (k'', f'').
Qed.

Section Validation.
Variable order : DictOrder.
Variable t : MetadataTemplate.
Hypothesis Ht : constructed order t.

Lemma named_items_NoDup : NoDup (dict_keys (named_items (_fields t))).
Proof. rewrite named_items_keys. apply (constructed_NoDup _ _ Ht). Qed.

Lemma parse_mapping_NoDup : NoDup (dict_keys (_parse_mapping t)).
Proof.
  rewrite (constructed_parse_mapping _ _ Ht). unfold dict_keys.
  apply omap_parser_keys_NoDup.
  rewrite (iteritems_Permutation order _ named_items_NoDup).
  apply named_items_NoDup.
Qed.

Lemma elem_of_parse_mapping n parse :
  (n, parse) ∈ _parse_mapping t
  <-> exists f, f ∈ _fields t /\ Name f = Some n /\ Parser f = Some parse.
Proof.
  rewrite (constructed_parse_mapping _ _ Ht), list_elem_of_omap. split.
  - intros ([k f] & Hin & Hp). simpl in Hp.
    rewrite (iteritems_Permutation order _ named_items_NoDup) in Hin.
    apply elem_of_named_items in Hin as [Hf Hn].
    destruct (Parser f) as [p|] eqn:E; [|done]. injection Hp as <- <-. eauto.
  - intros (f & Hf & Hn & Hp). exists (n, f). simpl. rewrite Hp. split; [|done].
    rewrite (iteritems_Permutation order _ named_items_NoDup).
    by apply elem_of_named_items.
Qed.

Lemma elem_of_parseable md n parse :
  (n, parse) ∈ parseable order t md
  <-> is_Some (md !! n)
      /\ exists f, f ∈ _fields t /\ Name f = Some n /\ Parser f = Some parse.
Proof.
  unfold parseable. rewrite list_elem_of_filter. simpl.
  rewrite (iteritems_Permutation order _ parse_mapping_NoDup).
  by rewrite elem_of_parse_mapping, elem_of_dom.
Qed.

Lemma elem_of_mandatory n :
  n ∈ _mandatory t
  <-> exists f, f ∈ _fields t /\ Name f = Some n /\ Mandatory f = Some true.
Proof.
  rewrite (constructed_mandatory _ _ Ht), list_elem_of_fmap. split.
  - intros ([k f] & -> & [Hm Hin]%list_elem_of_filter).
    apply elem_of_named_items in Hin as [Hf Hn]. eauto.
  - intros (f & Hf & Hn & Hm). exists (n, f). split; [done|].
    apply list_elem_of_filter. split; [done|]. by apply elem_of_named_items.
Qed.

(** The mandatory names, in the order in which the fields are declared. *)
Lemma mandatory_declared_order :
  _mandatory t
  = omap (fun f => if decide (Mandatory f = Some true) then Name f else None)
         (_fields t).
Proof.
  rewrite (constructed_mandatory _ _ Ht). unfold named_items.
  induction (_fields t) as [|f fs IH]; [done|]. simpl.
  destruct (Name f) as [n|]; simpl.
  - rewrite filter_cons. simpl.
    destruct (decide (Mandatory f = Some true)); simpl; [f_equal|]; exact IH.
  - destruct (decide (Mandatory f = Some true)); exact IH.
Qed.

Lemma any_mandatory_missing md :
  existsb (fun f => negb (truthy_opt (md !! f))) (_mandatory t) = false
  <-> mandatory_given t md.
Proof.
  rewrite <- not_true_iff_false, existsb_exists. unfold mandatory_given. split.
  - intros H f n Hf Hn Hm. apply truthy_opt_true.
    destruct (truthy_opt (md !! n)) eqn:E; [done|]. destruct H.
    exists n. rewrite E. split; [|done].
    apply list_elem_of_In, elem_of_mandatory. eauto.
  - intros H (n & Hin & Hneg).
    apply list_elem_of_In, elem_of_mandatory in Hin as (f & Hf & Hn & Hm).
    specialize (H f n Hf Hn Hm). apply truthy_opt_true in H.
    by rewrite H in Hneg.
Qed.

(** The body of the loop of [validate_box] on a field of the record. *)
Lemma parse_present md n parse v :
  md !! n = Some v ->
  (v' <- getitem md n ;; call_parser parse v' ;;; Return tt)%py
  = match parse v with
    | Some _ => Return tt
    | None => Raise (ValueError (Msg_parse v))
    end.
Proof.
  intros Hv. unfold getitem, call_parser. rewrite Hv. simpl.
  by destruct (parse v).
Qed.

Lemma validate_box_loop md :
  let loop :=
    for_each (parseable order t md)
      (fun '(field, parse) =>
         v <- getitem md field ;; call_parser parse v ;;; Return tt)%py in
  (loop = Return tt /\ present_parse t md)
  \/ ((exists m, loop = Raise (ValueError m)) /\ ~ present_parse t md).
Proof.
  intros loop. destruct loop as [[]|e] eqn:Hloop; subst loop.
  - left. split; [done|]. apply for_each_Return in Hloop.
    rewrite Forall_forall in Hloop.
    intros f n parse v Hf Hn Hp Hv.
    assert (Hin : (n, parse) ∈ parseable order t md).
    { apply elem_of_parseable. eauto 10. }
    specialize (Hloop _ Hin). simpl in Hloop.
    rewrite (parse_present _ _ _ _ Hv) in Hloop.
    by destruct (parse v).
  - right. apply for_each_Raise in Hloop as ([n parse] & Hin & Hbody).
    apply elem_of_parseable in Hin as ([v Hv] & f & Hf & Hn & Hp).
    rewrite (parse_present _ _ _ _ Hv) in Hbody.
    destruct (parse v) eqn:Hpv; [done|]. injection Hbody as <-.
    split; [eauto|]. intros H.
    destruct (H f n parse v Hf Hn Hp Hv) as [? ?]. congruence.
Qed.

Lemma validate_box_spec box :
  exists b, validate_box order t box = Return b
    /\ (b = true <-> mandatory_given t (fields box) /\ present_parse t (fields box)).
Proof.
  unfold validate_box.
  destruct (existsb _ (_mandatory t)) eqn:Hm.
  { exists false. split; [done|]. split; [done|]. intros [H _].
    apply any_mandatory_missing in H. congruence. }
  apply any_mandatory_missing in Hm.
  destruct (validate_box_loop (fields box)) as [[-> Hp]|[[m ->] Hp]].
  - exists true. by split.
  - exists false. split; [done|]. split; [done|]. by intros [_ ?].
Qed.
End Validation.

(** C4: for a template that the constructor returned and every record,
    [validate_box] returns a boolean (the [ValueError] of a parser does
    not leave it), and it returns [True] if and only if every mandatory
    field has a non-empty value in the record's fields and every field
    of the record that has a parser parses. *)
Theorem C4_validate_box_iff order suffix spec t box :
  (MetadataTemplate_init order suffix spec).2 = Return t ->
  exists b, validate_box order t box = Return b
    /\ (b = true <-> mandatory_given t (fields box) /\ present_parse t (fields box)).
Proof.
  intros Ht. apply MetadataTemplate_init_constructed in Ht.
  by apply validate_box_spec.
Qed.

(** ** The calls of a traversal *)

Lemma for_each_call_recorded {A} (l : list A) (body : A -> method (list event))
    (g : A -> option event) log :
  (forall x, x ∈ l ->
     body x = match g x with Some e => record_call e | None => pass end) ->
  for_each_call l body log = (log ++ omap g l, Return tt).
Proof.
  revert log. induction l as [|x l IH]; intros log Hbody; simpl.
  - by rewrite app_nil_r.
  - unfold and_then. rewrite (Hbody x) by left.
    assert (Hl : forall y, y ∈ l ->
              body y = match g y with Some e => record_call e | None => pass end).
    { intros y Hy. apply Hbody. by right. }
    destruct (g x) as [e|]; simpl.
    + rewrite (IH _ Hl). by rewrite <- app_assoc.
    + by rewrite (IH _ Hl).
Qed.

Lemma omap_Some_fmap {A B} (f : A -> B) (l : list A) :
  omap (fun x => Some (f x)) l = f <$> l.
Proof. induction l as [|x l IH]; simpl; [done|]. by f_equal. Qed.

Section Recorded.
Variable order : DictOrder.
Variable fmt : string -> gmap string string -> string.
Variable t : MetadataTemplate.

Lemma report_box_recorded index label md log :
  report_box order RecordingVisitor t index label md log
  = (log ++ box_events order t index label md, Return tt).
Proof.
  unfold report_box, and_then, box_events.
  rewrite (for_each_call_recorded _ _
             (fun f => Some (Missing_mandatory index label f))) by done.
  rewrite omap_Some_fmap.
  rewrite (for_each_call_recorded _ _ (failed_parse_event index label md)).
  - by rewrite app_assoc.
  - intros [field parse] Hin. unfold failed_parse_event. simpl.
    apply list_elem_of_filter in Hin as [Hdom _]. simpl in Hdom.
    apply elem_of_dom in Hdom as [v Hv].
    unfold getitem, call_parser. rewrite Hv. simpl.
    by destruct (parse v).
Qed.

Lemma _visit_boxes_from_recorded index items log :
  _visit_boxes_from order fmt RecordingVisitor t index items log
  = ((fun box => (format_label order fmt t box).1) <$> items,
     (log ++ boxes_events order fmt t index items, Return tt)).
Proof.
  revert index log. induction items as [|box rest IH]; intros index log; simpl.
  - by rewrite app_nil_r.
  - unfold _visit_box.
    destruct (format_label order fmt t box) as [box' label] eqn:Hfl.
    rewrite report_box_recorded, IH. simpl. by rewrite <- app_assoc.
Qed.

Lemma report_labels_recorded labels log :
  report_labels order RecordingVisitor labels log
  = (log ++ label_events order labels, Return tt).
Proof.
  unfold report_labels, and_then, label_events.
  rewrite (for_each_call_recorded _ _ (fun il => Some (Missing_label il.1)))
    by done.
  rewrite (for_each_call_recorded _ _ (fun vn => Some (Duplicated_labels vn.1)))
    by done.
  by rewrite !omap_Some_fmap, app_assoc.
Qed.

(** The calls of a traversal with any template: the labels of the
    second pass are those of the boxes as the first pass left them. *)
Lemma reported_calls document :
  reported order fmt t document
  = Begin_visit
    :: boxes_events order fmt t 0 document
    ++ label_events order
         (labels_of order fmt t
            ((fun box => (format_label order fmt t box).1) <$> document))
    ++ [End_visit].
Proof.
  unfold reported, visit_document, _visit_boxes, _visit_labels. simpl.
  rewrite _visit_boxes_from_recorded, report_labels_recorded. simpl.
  unfold record_call, labels_of. simpl.
  rewrite <- !app_assoc. do 3 f_equal.
  by rewrite <- list_fmap_compose.
Qed.

Hypothesis Ht : constructed order t.

Lemma format_label_idempotent box :
  format_label order fmt t (format_label order fmt t box).1
  = format_label order fmt t box.
Proof.
  unfold format_label.
  pose proof (box_metadata_idempotent order t Ht box) as H.
  destruct (box_metadata order t box) as [box' md'] eqn:E.
  cbn [fst snd] in *. by rewrite H.
Qed.

Lemma labels_of_formatted document :
  labels_of order fmt t ((fun box => (format_label order fmt t box).1) <$> document)
  = labels_of order fmt t document.
Proof.
  unfold labels_of. rewrite <- list_fmap_compose.
  apply list_fmap_ext. intros i box _. unfold compose.
  by rewrite format_label_idempotent.
Qed.

(** The calls of a traversal with a template that the constructor
    returned. *)
Lemma reported_constructed document :
  reported order fmt t document
  = Begin_visit
    :: boxes_events order fmt t 0 document
    ++ label_events order (labels_of order fmt t document)
    ++ [End_visit].
Proof. by rewrite reported_calls, labels_of_formatted. Qed.
End Recorded.

(** ** Counting calls *)

Lemma occurrences_app e l1 l2 :
  occurrences e (l1 ++ l2) = occurrences e l1 + occurrences e l2.
Proof. unfold occurrences. by rewrite filter_app, length_app. Qed.

Lemma occurrences_cons e x l :
  occurrences e (x :: l) = (if decide (x = e) then 1 else 0) + occurrences e l.
Proof.
  unfold occurrences. rewrite filter_cons. by destruct (decide (x = e)).
Qed.

Lemma occurrences_not_elem e l : e ∉ l -> occurrences e l = 0.
Proof.
  induction l as [|x l IH]; [done|].
  rewrite not_elem_of_cons, occurrences_cons. intros [Hne Hl].
  rewrite IH by done. destruct (decide (x = e)); [congruence | done].
Qed.

Lemma occurrences_NoDup e l :
  NoDup l -> occurrences e l = if decide (e ∈ l) then 1 else 0.
Proof.
  induction l as [|x l IH]; [done|].
  rewrite NoDup_cons, occurrences_cons. intros [Hx Hl].
  destruct (decide (x = e)) as [->|Hne].
  - rewrite occurrences_not_elem by done.
    rewrite decide_True by left. done.
  - rewrite IH by done. simpl.
    destruct (decide (e ∈ l)) as [Hin|Hnin].
    + rewrite decide_True by (by right). done.
    + rewrite decide_False; [done|]. rewrite not_elem_of_cons. split; congruence.
Qed.

Lemma NoDup_fmap_filter {A B} (f : A -> B) (P : A -> Prop)
    `{forall x, Decision (P x)} (l : list A) :
  NoDup (f <$> l) -> NoDup (f <$> filter P l).
Proof.
  induction l as [|x l IH]; [done|].
  rewrite fmap_cons, NoDup_cons, filter_cons. intros [Hx Hl].
  destruct (decide (P x)); [|by apply IH].
  rewrite fmap_cons. apply NoDup_cons. split; [|by apply IH].
  intros (y & Hy & Hin)%list_elem_of_fmap. apply Hx.
  apply list_elem_of_fmap. exists y. split; [done|].
  by apply list_elem_of_filter in Hin as [_ Hin].
Qed.

Lemma box_events_are_box_events order t index label md :
  Forall is_box_event (box_events order t index label md).
Proof.
  unfold box_events. apply Forall_app. split.
  - apply Forall_fmap, Forall_true. by intros f.
  - apply Forall_forall. intros e ([k p] & _ & He)%list_elem_of_omap.
    unfold failed_parse_event in He. simpl in He.
    destruct (md !! k) as [v|]; [|done]. destruct (p v); [done|].
    by injection He as <-.
Qed.

Lemma boxes_events_are_box_events order fmt t index items :
  Forall is_box_event (boxes_events order fmt t index items).
Proof.
  revert index. induction items as [|box rest IH]; intros index; simpl.
  - constructor.
  - apply Forall_app. split; [apply box_events_are_box_events | apply IH].
Qed.

Lemma occurrences_box_events e l :
  Forall is_box_event l -> ~ is_box_event e -> occurrences e l = 0.
Proof.
  intros Hl He. apply occurrences_not_elem. intros Hin.
  rewrite Forall_forall in Hl. by apply He, Hl.
Qed.

(** ** Labels that are missing *)

Lemma not_truthy s : negb (truthy s) <-> s = "".
Proof.
  unfold truthy. rewrite negb_involutive. split.
  - intros H. apply String.eqb_eq. by apply Is_true_true.
  - intros ->. done.
Qed.

Lemma fst_imap_pair {A} (f : nat -> nat) (l : list A) :
  (imap (fun i x => (f i, x)) l).*1 = imap (fun i _ => f i) l.
Proof.
  revert f. induction l as [|x l IH]; intros f; simpl; [done|].
  f_equal. apply (IH (f ∘ S)).
Qed.

Lemma imap_pair_indices {A} (l : list A) : (imap pair l).*1 = seq 0 (length l).
Proof.
  rewrite <- (list_fmap_id (seq 0 (length l))).
  rewrite <- (imap_seq_0 l id).
  apply (fst_imap_pair id).
Qed.

Lemma missing_label_events_NoDup labels :
  NoDup ((fun il : nat * string => Missing_label il.1)
           <$> filter (fun il => negb (truthy il.2)) (imap pair labels)).
Proof.
  change (fun il : nat * string => Missing_label il.1) with (Missing_label ∘ @fst nat string).
  rewrite list_fmap_compose.
  apply NoDup_fmap_2; [by intros i j [= ->]|].
  apply NoDup_fmap_filter. rewrite imap_pair_indices. apply NoDup_seq.
Qed.

Lemma elem_of_missing_label_events labels index :
  Missing_label index
    ∈ (fun il : nat * string => Missing_label il.1)
        <$> filter (fun il => negb (truthy il.2)) (imap pair labels)
  <-> labels !! index = Some "".
Proof.
  rewrite list_elem_of_fmap. split.
  - intros ([i l] & [= ->] & [Hl Hin]%list_elem_of_filter).
    simpl in Hl. apply not_truthy in Hl. subst l.
    apply elem_of_lookup_imap in Hin as (j & y & [= -> ->] & Hj). done.
  - intros Hl. exists (index, ""). split; [done|].
    apply list_elem_of_filter. split; [done|].
    apply elem_of_lookup_imap. eauto.
Qed.

(** ** [Counter] *)

Lemma dict_get_setitem {V} (d : pydict V) k v k' :
  dict_get (dict_setitem d k v) k'
  = if decide (k' = k) then Some v else dict_get d k'.
Proof.
  induction d as [|[k0 v0] d IH]; simpl.
  - by destruct (decide (k' = k)).
  - destruct (decide (k = k0)) as [->|Hne]; simpl.
    + by destruct (decide (k' = k0)).
    + rewrite IH. destruct (decide (k' = k0)) as [->|]; [|done].
      by rewrite decide_False.
Qed.

Lemma dict_setitem_NoDup {V} (d : pydict V) k v :
  NoDup (dict_keys d) -> NoDup (dict_keys (dict_setitem d k v)).
Proof.
  unfold dict_keys. induction d as [|[k0 v0] d IH]; simpl; intros Hnd.
  - apply NoDup_singleton.
  - apply NoDup_cons in Hnd as [Hk0 Hnd].
    destruct (decide (k = k0)) as [->|Hne]; simpl.
    + by apply NoDup_cons.
    + apply NoDup_cons. split; [|by apply IH].
      intros Hin. apply (dict_keys_setitem d k v k0) in Hin as [Heq|Hin].
      * by apply Hne.
      * by apply Hk0.
Qed.

Lemma Counter_loop labels (d : pydict nat) :
  NoDup (dict_keys d) ->
  let r := fold_left (fun d l => dict_setitem d l (default 0 (dict_get d l) + 1))
                     labels d in
  NoDup (dict_keys r)
  /\ forall l, dict_get r l
               = if decide (l ∈ labels)
                 then Some (default 0 (dict_get d l) + count_of l labels)
                 else dict_get d l.
Proof.
  revert d. induction labels as [|x labels IH]; intros d Hnd; cbn [fold_left].
  { split; [done|]. intros l. rewrite decide_False; [done | apply not_elem_of_nil]. }
  destruct (IH (dict_setitem d x (default 0 (dict_get d x) + 1))
               (dict_setitem_NoDup _ _ _ Hnd)) as [Hnd' Hget].
  cbv zeta. split; [exact Hnd'|]. intros l.
  rewrite Hget, dict_get_setitem, count_of_cons.
  pose proof (proj2 (count_of_zero l labels)) as Hzero.
  destruct (decide (l = x)) as [->|Hne].
  - rewrite (decide_True (P := x = x)) by done.
    rewrite (decide_True (P := x ∈ x :: labels)) by left. simpl.
    destruct (decide (x ∈ labels)) as [Hin|Hnin]; f_equal; [lia|].
    rewrite (Hzero Hnin). lia.
  - rewrite (decide_False (P := x = l)) by congruence. simpl.
    destruct (decide (l ∈ labels)) as [Hin|Hnin].
    + rewrite (decide_True (P := l ∈ x :: labels)) by (by right). done.
    + rewrite (decide_False (P := l ∈ x :: labels)); [done|].
      rewrite not_elem_of_cons. done.
Qed.

Lemma Counter_NoDup labels : NoDup (dict_keys (Counter labels)).
Proof. apply (Counter_loop labels []). constructor. Qed.

Lemma Counter_get labels l :
  dict_get (Counter labels) l
  = if decide (l ∈ labels) then Some (count_of l labels) else None.
Proof.
  destruct (Counter_loop labels [] (NoDup_nil_2)) as [_ H]. apply H.
Qed.

Lemma duplicated_label_events_NoDup order labels :
  NoDup ((fun vn : string * nat => Duplicated_labels vn.1)
           <$> filter (fun vn => truthy vn.1 && (1 <? vn.2)%nat)
                      (iteritems order (Counter labels))).
Proof.
  change (fun vn : string * nat => Duplicated_labels vn.1)
    with (Duplicated_labels ∘ @fst string nat).
  rewrite list_fmap_compose.
  apply NoDup_fmap_2; [by intros i j [= ->]|].
  apply NoDup_fmap_filter.
  rewrite (iteritems_keys_Permutation order _ (Counter_NoDup labels)).
  apply Counter_NoDup.
Qed.

Lemma elem_of_duplicated_label_events order labels label :
  Duplicated_labels label
    ∈ (fun vn : string * nat => Duplicated_labels vn.1)
        <$> filter (fun vn => truthy vn.1 && (1 <? vn.2)%nat)
                   (iteritems order (Counter labels))
  <-> label ≠ "" /\ 1 < count_of label labels.
Proof.
  rewrite list_elem_of_fmap. split.
  - intros ([l n] & [= ->] & [HQ Hin]%list_elem_of_filter).
    rewrite (iteritems_Permutation order _ (Counter_NoDup labels)) in Hin.
    apply (dict_get_Some _ _ _ (Counter_NoDup labels)) in Hin.
    rewrite Counter_get in Hin. simpl in HQ.
    apply andb_prop_elim in HQ as [Hl Hn].
    destruct (decide (l ∈ labels)); [|done]. injection Hin as <-.
    split.
    + intros ->. done.
    + apply Is_true_true, Nat.ltb_lt in Hn. done.
  - intros [Hne Hc]. exists (label, count_of label labels). split; [done|].
    apply list_elem_of_filter. split.
    + simpl. apply andb_prop_intro. split.
      * unfold truthy. apply Is_true_true, negb_true_iff.
        by apply String.eqb_neq.
      * by apply Is_true_true, Nat.ltb_lt.
    + rewrite (iteritems_Permutation order _ (Counter_NoDup labels)).
      apply (dict_get_Some _ _ _ (Counter_NoDup labels)).
      rewrite Counter_get, decide_True; [done|].
      destruct (decide (label ∈ labels)) as [|Hn]; [done|].
      apply count_of_zero in Hn. lia.
Qed.

Lemma occurrences_label_event order fmt t document e :
  constructed order t ->
  ~ is_box_event e -> e ≠ Begin_visit -> e ≠ End_visit ->
  occurrences e (reported order fmt t document)
  = occurrences e (label_events order (labels_of order fmt t document)).
Proof.
  intros Ht Hbox Hb He. rewrite (reported_constructed order fmt t Ht).
  rewrite occurrences_cons, !occurrences_app, occurrences_cons.
  rewrite (occurrences_box_events e _
             (boxes_events_are_box_events order fmt t 0 document) Hbox).
  rewrite !decide_False by congruence. unfold occurrences at 2. simpl. lia.
Qed.

(** C5: in one traversal with a template that the constructor returned,
    [missing_label(index)] is called once for each record whose label
    is the empty string and for no other index; [duplicated_labels] is
    called once for each label that is not empty and is the label of
    more than one record, and for no other label, so never for the
    empty label. *)
Theorem C5_missing_and_duplicated_labels order fmt suffix spec t document :
  (MetadataTemplate_init order suffix spec).2 = Return t ->
  let labels := labels_of order fmt t document in
  let calls := reported order fmt t document in
  (forall index,
     occurrences (Missing_label index) calls
     = if decide (labels !! index = Some "") then 1 else 0)
  /\ (forall label,
        occurrences (Duplicated_labels label) calls
        = if decide (label ≠ "" /\ 1 < count_of label labels) then 1 else 0).
Proof.
  intros Ht labels calls. apply MetadataTemplate_init_constructed in Ht.
  subst labels calls. split.
  - intros index.
    rewrite (occurrences_label_event order fmt t document _ Ht);
      [|simpl; tauto|done|done].
    unfold label_events. rewrite occurrences_app.
    rewrite (occurrences_NoDup _ _ (missing_label_events_NoDup _)).
    rewrite (occurrences_not_elem (Missing_label index)).
    2:{ intros ([l n] & [=] & _)%list_elem_of_fmap. }
    rewrite Nat.add_0_r.
    apply decide_ext, elem_of_missing_label_events.
  - intros label.
    rewrite (occurrences_label_event order fmt t document _ Ht);
      [|simpl; tauto|done|done].
    unfold label_events. rewrite occurrences_app.
    rewrite (occurrences_NoDup _ _ (duplicated_label_events_NoDup order _)).
    rewrite (occurrences_not_elem (Duplicated_labels label)).
    2:{ intros ([i l] & [=] & _)%list_elem_of_fmap. }
    simpl. apply decide_ext, elem_of_duplicated_label_events.
Qed.

(** ** The order of calls *)

Section Precedes.
Context {A B : Type}.
Implicit Types (x y z : A) (l k : list A).

Lemma precedes_app_l x y l k : precedes x y l -> precedes x y (l ++ k).
Proof.
  intros (l1 & l2 & l3 & ->). exists l1, l2, (l3 ++ k).
  by rewrite <- !app_assoc, <- !app_comm_cons, <- !app_assoc.
Qed.

Lemma precedes_app_r x y l k : precedes x y k -> precedes x y (l ++ k).
Proof.
  intros (l1 & l2 & l3 & ->). exists (l ++ l1), l2, l3.
  by rewrite <- !app_assoc.
Qed.

Lemma precedes_cons x y z l : precedes x y l -> precedes x y (z :: l).
Proof. apply (precedes_app_r x y [z]). Qed.

Lemma precedes_fmap (f : A -> B) x y l :
  precedes x y l -> precedes (f x) (f y) (f <$> l).
Proof.
  intros (l1 & l2 & l3 & ->). exists (f <$> l1), (f <$> l2), (f <$> l3).
  by rewrite !fmap_app, !fmap_cons, !fmap_app, !fmap_cons.
Qed.

Lemma precedes_filter (P : A -> Prop) `{forall x, Decision (P x)} x y l :
  precedes x y l -> P x -> P y -> precedes x y (filter P l).
Proof.
  intros (l1 & l2 & l3 & ->) Hx Hy.
  exists (filter P l1), (filter P l2), (filter P l3).
  rewrite !filter_app, !filter_cons, !filter_app, !filter_cons.
  by rewrite !decide_True by done.
Qed.

Lemma precedes_omap (f : A -> option B) x y (u v : B) l :
  precedes x y l -> f x = Some u -> f y = Some v ->
  precedes u v (omap f l).
Proof.
  intros (l1 & l2 & l3 & ->) Hx Hy.
  exists (omap f l1), (omap f l2), (omap f l3).
  rewrite !omap_app. simpl. rewrite Hx. rewrite !omap_app. simpl. by rewrite Hy.
Qed.

Lemma precedes_lookup x y l :
  precedes x y l -> exists i j, i < j /\ l !! i = Some x /\ l !! j = Some y.
Proof.
  intros (l1 & l2 & l3 & ->).
  exists (length l1), (length l1 + S (length l2)). split; [lia|]. split.
  - by rewrite list_lookup_middle.
  - rewrite lookup_app_r by lia.
    replace (length l1 + S (length l2) - length l1) with (S (length l2)) by lia.
    simpl. by rewrite list_lookup_middle.
Qed.
End Precedes.

Lemma boxes_events_lookup order fmt t k document index box :
  document !! index = Some box ->
  exists before after,
    boxes_events order fmt t k document
    = before
      ++ box_events order t (k + index) (format_label order fmt t box).2
                    (fields (format_label order fmt t box).1)
      ++ after.
Proof.
  revert k index. induction document as [|b rest IH]; intros k index Hl; [done|].
  destruct index as [|index]; simpl in *.
  - injection Hl as ->. exists [], (boxes_events order fmt t (S k) rest).
    by rewrite Nat.add_0_r.
  - destruct (IH (S k) index Hl) as (before & after & ->).
    exists (box_events order t k (format_label order fmt t b).2
                       (fields (format_label order fmt t b).1) ++ before), after.
    replace (k + S index) with (S k + index) by lia.
    by rewrite <- app_assoc.
Qed.

Lemma precedes_reported order fmt t document index box e1 e2 :
  document !! index = Some box ->
  precedes e1 e2 (box_events order t index (format_label order fmt t box).2
                             (fields (format_label order fmt t box).1)) ->
  precedes e1 e2 (reported order fmt t document).
Proof.
  intros Hl H. rewrite reported_calls. apply precedes_cons, precedes_app_l.
  destruct (boxes_events_lookup order fmt t 0 document index box Hl)
    as (before & after & ->).
  by apply precedes_app_r, precedes_app_l.
Qed.

Section CallOrder.
Variable order : DictOrder.
Variable fmt : string -> gmap string string -> string.
Variable t : MetadataTemplate.
Hypothesis Ht : constructed order t.

(** Fields of the same name are the same field. *)
Lemma field_by_name f g n :
  f ∈ _fields t -> g ∈ _fields t -> Name f = Some n -> Name g = Some n -> f = g.
Proof.
  intros Hf Hg Hfn Hgn.
  pose proof (named_items_NoDup order t Ht) as Hnd.
  assert (H1 : dict_get (named_items (_fields t)) n = Some f).
  { apply dict_get_Some; [done|]. by apply elem_of_named_items. }
  assert (H2 : dict_get (named_items (_fields t)) n = Some g).
  { apply dict_get_Some; [done|]. by apply elem_of_named_items. }
  congruence.
Qed.

(** The fields that [_visit_box] reads are those of the record. *)
Lemma format_label_declared box f n :
  f ∈ _fields t -> Name f = Some n ->
  fields (format_label order fmt t box).1 !! n = fields box !! n.
Proof.
  intros Hf Hn. unfold format_label.
  pose proof (box_metadata_declared order t Ht box n
                (names_of_elem _ _ _ Hf Hn)) as H.
  rewrite <- box_metadata_alias in H.
  by destruct (box_metadata order t box) as [box' md'].
Qed.

Lemma missing_mandatory_in_declared_order index label box a b :
  declared_before t a b ->
  lacks_mandatory t (fields box) a -> lacks_mandatory t (fields box) b ->
  precedes (Missing_mandatory index label a) (Missing_mandatory index label b)
    (box_events order t index label (fields (format_label order fmt t box).1)).
Proof.
  intros (fa & fb & Hprec & Hna & Hnb)
         (fa' & Hfa & Hna' & Hma & Ha) (fb' & Hfb & Hnb' & Hmb & Hb).
  assert (Hfa0 : fa ∈ _fields t).
  { destruct Hprec as (l1 & l2 & l3 & ->). rewrite elem_of_app, elem_of_cons. auto. }
  assert (Hfb0 : fb ∈ _fields t).
  { destruct Hprec as (l1 & l2 & l3 & ->).
    rewrite elem_of_app, elem_of_cons, elem_of_app, elem_of_cons. auto. }
  rewrite (field_by_name fa' fa a) in Hma by done.
  rewrite (field_by_name fb' fb b) in Hmb by done.
  unfold box_events. apply precedes_app_l, precedes_fmap.
  apply precedes_filter.
  - rewrite (mandatory_declared_order order t Ht).
    apply (precedes_omap _ fa fb); [done| |].
    + by rewrite decide_True.
    + by rewrite decide_True.
  - rewrite (format_label_declared box fa a) by done.
    destruct (truthy_opt (fields box !! a)) eqn:E; [|done].
    by apply truthy_opt_true in E.
  - rewrite (format_label_declared box fb b) by done.
    destruct (truthy_opt (fields box !! b)) eqn:E; [|done].
    by apply truthy_opt_true in E.
Qed.

Lemma failed_parse_in_iteration_order index label box a b :
  iterated_before order t a b ->
  fails_to_parse t (fields box) a -> fails_to_parse t (fields box) b ->
  precedes (Failed_parse index label a) (Failed_parse index label b)
    (box_events order t index label (fields (format_label order fmt t box).1)).
Proof.
  intros (pa & pb & Hprec)
         (fa & pa' & va & Hfa & Hna & Hpa & Hva & Hfail_a)
         (fb & pb' & vb & Hfb & Hnb & Hpb & Hvb & Hfail_b).
  assert (Hin : forall n p, (n, p) ∈ iteritems order (_parse_mapping t) ->
                forall f p', f ∈ _fields t -> Name f = Some n ->
                             Parser f = Some p' -> p = p').
  { intros n p Hnp f p' Hf Hn Hp.
    rewrite (iteritems_Permutation order _ (parse_mapping_NoDup order t Ht)) in Hnp.
    apply (elem_of_parse_mapping order t Ht) in Hnp as (g & Hg & Hgn & Hgp).
    rewrite (field_by_name g f n) in Hgp by done. congruence. }
  assert (Hpa0 : pa = pa').
  { apply (Hin a pa) with (f := fa); [|done..].
    destruct Hprec as (l1 & l2 & l3 & ->). rewrite elem_of_app, elem_of_cons. auto. }
  assert (Hpb0 : pb = pb').
  { apply (Hin b pb) with (f := fb); [|done..].
    destruct Hprec as (l1 & l2 & l3 & ->).
    rewrite elem_of_app, elem_of_cons, elem_of_app, elem_of_cons. auto. }
  subst pa' pb'.
  pose proof (format_label_declared box fa a Hfa Hna) as Ha.
  pose proof (format_label_declared box fb b Hfb Hnb) as Hb.
  unfold box_events. apply precedes_app_r.
  apply (precedes_omap _ (a, pa) (b, pb)).
  - unfold parseable. apply precedes_filter; [done| |]; cbn [fst snd].
    + apply elem_of_dom. rewrite Ha, Hva. eauto.
    + apply elem_of_dom. rewrite Hb, Hvb. eauto.
  - unfold failed_parse_event. cbn [fst snd]. by rewrite Ha, Hva, Hfail_a.
  - unfold failed_parse_event. cbn [fst snd]. by rewrite Hb, Hvb, Hfail_b.
Qed.
End CallOrder.

(** C3, amended: in a traversal with a template that the constructor
    returned, for each record, the [missing_mandatory] calls for two
    mandatory fields that the record lacks come in the order in which
    the fields are declared; the [failed_parse] calls for two fields
    that fail to parse come in the order in which the name-to-parser
    dict yields them, which is the order of its hash table. *)
Theorem C3_order_of_calls_per_record order fmt suffix spec t document index box a b :
  (MetadataTemplate_init order suffix spec).2 = Return t ->
  document !! index = Some box ->
  let label := (format_label order fmt t box).2 in
  let calls := reported order fmt t document in
  (declared_before t a b ->
   lacks_mandatory t (fields box) a -> lacks_mandatory t (fields box) b ->
   precedes (Missing_mandatory index label a) (Missing_mandatory index label b) calls)
  /\ (iterated_before order t a b ->
      fails_to_parse t (fields box) a -> fails_to_parse t (fields box) b ->
      precedes (Failed_parse index label a) (Failed_parse index label b) calls).
Proof.
  intros Ht Hbox label calls. apply MetadataTemplate_init_constructed in Ht.
  subst label calls. split.
  - intros Hab Ha Hb. apply (precedes_reported _ _ _ _ index box); [done|].
    by apply missing_mandatory_in_declared_order.
  - intros Hab Ha Hb. apply (precedes_reported _ _ _ _ index box); [done|].
    by apply failed_parse_in_iteration_order.
Qed.

(** The calls for the record of [Examples.letters]: "b" is declared
    first, and "a" is reported first. *)
Example letters_reported :
  reported CPython27.order format_default (Examples.build Examples.b_then_a)
           Examples.letters
  = [Begin_visit; Failed_parse 0 "y" "a"; Failed_parse 0 "y" "b"; End_visit].
Proof. vm_compute. reflexivity. Qed.

Example letters_parse_mapping_order :
  dict_keys (iteritems CPython27.order
               (_parse_mapping (Examples.build Examples.b_then_a)))
  = ["a"; "b"]
  /\ names_of (_fields (Examples.build Examples.b_then_a)) = ["b"; "a"].
Proof. split; vm_compute; reflexivity. Qed.

Lemma C3_witness :
  let t := Examples.build Examples.b_then_a in
  let box := Examples.box [("a", "x"); ("b", "y")] in
  let label := (format_label CPython27.order format_default t box).2 in
  let calls := reported CPython27.order format_default t Examples.letters in
  (declared_before t "a" "b" ->
   lacks_mandatory t (fields box) "a" -> lacks_mandatory t (fields box) "b" ->
   precedes (Missing_mandatory 0 label "a") (Missing_mandatory 0 label "b") calls)
  /\ (iterated_before CPython27.order t "a" "b" ->
      fails_to_parse t (fields box) "a" -> fails_to_parse t (fields box) "b" ->
      precedes (Failed_parse 0 label "a") (Failed_parse 0 label "b") calls).
Proof.
  apply (C3_order_of_calls_per_record
           CPython27.order format_default any_suffix Examples.b_then_a).
  - vm_compute. reflexivity.
  - reflexivity.
Defined.

(** C3 as the specification states it fails: the [failed_parse] calls
    for "b" and "a" come in the order of the dict, "a" first. *)
Lemma C3_counterexample :
  ~ reports_in_declared_order CPython27.order format_default
      (Examples.build Examples.b_then_a) Examples.letters.
Proof.
  intros H.
  pose (box := Examples.box [("a", "x"); ("b", "y")]).
  destruct (H 0 box "b" "a") as [Hfp _].
  { reflexivity. }
  { exists (Examples.number_field "b"), (Examples.number_field "a").
    split; [|done]. exists [], [], []. vm_compute. reflexivity. }
  assert (Hb : fails_to_parse (Examples.build Examples.b_then_a) (fields box) "b").
  { exists (Examples.number_field "b"), parse_int, "y".
    split; [|repeat split; vm_compute; reflexivity].
    apply list_elem_of_In. vm_compute. auto. }
  assert (Ha : fails_to_parse (Examples.build Examples.b_then_a) (fields box) "a").
  { exists (Examples.number_field "a"), parse_int, "x".
    split; [|repeat split; vm_compute; reflexivity].
    apply list_elem_of_In. vm_compute. auto. }
  specialize (Hfp Hb Ha). rewrite letters_reported in Hfp.
  replace (format_label CPython27.order format_default
             (Examples.build Examples.b_then_a) box).2 with "y" in Hfp
    by (vm_compute; reflexivity).
  apply precedes_lookup in Hfp as (i & j & Hij & Hi & Hj).
  destruct i as [|[|[|[|i]]]]; try discriminate Hi.
  destruct j as [|[|[|[|j]]]]; try discriminate Hj; lia.
Qed.

(** ** The example document *)

(** Scenario A of the specification: the record without its catalogue
    number does not validate; neither does the one with a bad count. *)
Example specimens_validate :
  validate_box CPython27.order (Examples.build Examples.catalogue)
    <$> Examples.specimens
  = [Return true; Return false; Return false].
Proof. vm_compute. reflexivity. Qed.

(** Scenarios C and D: one call for the missing label, one call for the
    label that two records share. *)
Example specimens_reported :
  reported CPython27.order format_default (Examples.build Examples.catalogue)
           Examples.specimens
  = [Begin_visit;
     Missing_mandatory 1 "" "catalogNumber";
     Failed_parse 2 "X123" "count";
     Missing_label 1;
     Duplicated_labels "X123";
     End_visit].
Proof. vm_compute. reflexivity. Qed.

(** The report of the collecting visitor for the same traversal. *)
Example specimens_collected :
  let r := visit_document CPython27.order format_default CollectVisitor.visitor
             (Examples.build Examples.catalogue) Examples.specimens
             CollectVisitor.new in
  CollectVisitor.all_problems r.2.1
  = Return (ValidationProblems.make
              [MissingMandatory.make (PyInt 1) (PyStr "") (PyStr "catalogNumber")]
              [FailedParse.make (PyStr "count") (PyInt 2) (PyStr "X123")]
              [1] ["X123"]).
Proof. vm_compute. reflexivity. Qed.

(** With the printing visitor the same traversal ends at the first
    problem of a box. *)
Example specimens_printed :
  (visit_document CPython27.order format_default PrintVisitor.visitor
     (Examples.build Examples.catalogue) Examples.specimens []).2.2
  = Raise (NameError "box").
Proof. vm_compute. reflexivity. Qed.

Lemma C4_witness :
  exists b,
    validate_box CPython27.order (Examples.build Examples.catalogue)
                 (Examples.box [("catalogNumber", "X123"); ("count", "many")])
    = Return b
    /\ (b = true
        <-> mandatory_given (Examples.build Examples.catalogue)
              (fields (Examples.box [("catalogNumber", "X123"); ("count", "many")]))
            /\ present_parse (Examples.build Examples.catalogue)
                 (fields (Examples.box [("catalogNumber", "X123");
                                        ("count", "many")]))).
Proof.
  apply (C4_validate_box_iff CPython27.order any_suffix Examples.catalogue).
  vm_compute. reflexivity.
Defined.

Lemma C5_witness :
  let labels := labels_of CPython27.order format_default
                  (Examples.build Examples.catalogue) Examples.specimens in
  let calls := reported CPython27.order format_default
                 (Examples.build Examples.catalogue) Examples.specimens in
  (forall index,
     occurrences (Missing_label index) calls
     = if decide (labels !! index = Some "") then 1 else 0)
  /\ (forall label,
        occurrences (Duplicated_labels label) calls
        = if decide (label ≠ "" /\ 1 < count_of label labels) then 1 else 0).
Proof.
  apply (C5_missing_and_duplicated_labels
           CPython27.order format_default any_suffix Examples.catalogue).
  vm_compute. reflexivity.
Defined.

(** * Further properties *)

(** ** A visitor sees the recorded calls and nothing else *)

Section AnyVisitor.
Context {S : Type} (visitor : MetadataVisitor S).

Lemma run_calls_app cs1 cs2 s :
  run_calls visitor (cs1 ++ cs2) s
  = and_then (run_calls visitor cs1) (run_calls visitor cs2) s.
Proof.
  unfold run_calls. revert s. induction cs1 as [|c cs1 IH]; intros s; simpl.
  - done.
  - unfold and_then in *.
    destruct (dispatch visitor c s) as [s' [[]|e]]; [|done]. apply IH.
Qed.

Lemma for_each_call_run {A} (l : list A) (body : A -> method S)
    (g : A -> option call) s :
  (forall x, x ∈ l ->
     body x = match g x with Some c => dispatch visitor c | None => pass end) ->
  for_each_call l body s = run_calls visitor (omap g l) s.
Proof.
  unfold run_calls. revert s. induction l as [|x l IH]; intros s Hbody; simpl.
  - done.
  - assert (Hl : forall y, y ∈ l ->
              body y = match g y with Some c => dispatch visitor c | None => pass end).
    { intros y Hy. apply Hbody. by right. }
    rewrite (Hbody x) by left. destruct (g x) as [c|]; simpl.
    + unfold and_then. destruct (dispatch visitor c s) as [s' [[]|e]]; [|done].
      by apply IH.
    + unfold and_then, pass. by apply IH.
Qed.

Lemma omap_fmap_call {A} (before after : Document) (g : A -> option event) (l : list A) :
  omap (fun x => call_of before after <$> g x) l
  = call_of before after <$> omap g l.
Proof.
  induction l as [|x l IH]; simpl; [done|].
  destruct (g x); simpl; [f_equal|]; exact IH.
Qed.

Variable order : DictOrder.
Variable fmt : string -> gmap string string -> string.
Variable t : MetadataTemplate.

Lemma report_box_run before after index label md s :
  report_box order visitor t index label md s
  = run_calls visitor (call_of before after <$> box_events order t index label md) s.
Proof.
  unfold report_box, box_events. rewrite fmap_app, run_calls_app.
  unfold and_then.
  rewrite (for_each_call_run _ _
             (fun f => Some (Call_missing_mandatory index label f))) by done.
  rewrite omap_Some_fmap, <- list_fmap_compose.
  change (call_of before after ∘ Missing_mandatory index label)
    with (Call_missing_mandatory index label).
  destruct (run_calls visitor _ s) as [s' [[]|e]]; [|done].
  rewrite <- omap_fmap_call. apply for_each_call_run.
  intros [field parse] Hin. unfold failed_parse_event. cbn [fst snd].
  apply list_elem_of_filter in Hin as [Hdom _]. cbn [fst] in Hdom.
  apply elem_of_dom in Hdom as [v Hv].
  unfold getitem, call_parser. rewrite Hv. simpl.
  by destruct (parse v).
Qed.

Lemma _visit_boxes_from_run before after index items s :
  (_visit_boxes_from order fmt visitor t index items s).2
  = run_calls visitor
      (call_of before after <$> boxes_events order fmt t index items) s.
Proof.
  revert index s. induction items as [|box rest IH]; intros index s; simpl.
  - done.
  - unfold _visit_box.
    destruct (format_label order fmt t box) as [box' label] eqn:Hfl.
    rewrite fmap_app, run_calls_app. unfold and_then. cbn [fst snd].
    rewrite (report_box_run before after).
    destruct (run_calls visitor _ s) as [s' [[]|e]]; [|done].
    specialize (IH (Datatypes.S index) s').
    destruct (_visit_boxes_from order fmt visitor t (Datatypes.S index) rest s')
      as [rest' r]. exact IH.
Qed.

(** When no call raises, every box has been through [format_label]. *)
Lemma _visit_boxes_from_document index items s s' :
  (_visit_boxes_from order fmt visitor t index items s).2 = (s', Return tt) ->
  (_visit_boxes_from order fmt visitor t index items s).1
  = (fun box => (format_label order fmt t box).1) <$> items.
Proof.
  revert index s. induction items as [|box rest IH]; intros index s.
  - done.
  - cbn [_visit_boxes_from]. unfold _visit_box. rewrite fmap_cons.
    destruct (format_label order fmt t box) as [box' label] eqn:Hfl.
    destruct (report_box order visitor t index label (fields box') s)
      as [s1 [[]|e]].
    2:{ cbn [fst snd]. intros H. inversion H. }
    specialize (IH (Datatypes.S index) s1).
    destruct (_visit_boxes_from order fmt visitor t (Datatypes.S index) rest s1)
      as [rest' r]. cbn [fst snd] in *. intros Hr. by rewrite (IH Hr).
Qed.

Lemma report_labels_run before after labels s :
  report_labels order visitor labels s
  = run_calls visitor (call_of before after <$> label_events order labels) s.
Proof.
  unfold report_labels, label_events. rewrite fmap_app, run_calls_app.
  unfold and_then.
  rewrite (for_each_call_run _ _
             (fun il : nat * string => Some (Call_missing_label il.1))) by done.
  rewrite omap_Some_fmap, <- list_fmap_compose.
  change (call_of before after ∘ (fun il : nat * string => Missing_label il.1))
    with (fun il : nat * string => Call_missing_label il.1).
  destruct (run_calls visitor _ s) as [s' [[]|e]]; [|done].
  rewrite (for_each_call_run _ _
             (fun vn : string * nat => Some (Call_duplicated_labels vn.1))) by done.
  by rewrite omap_Some_fmap, <- list_fmap_compose.
Qed.
End AnyVisitor.

Lemma run_calls_cons {S} (visitor : MetadataVisitor S) c cs s :
  run_calls visitor (c :: cs) s
  = and_then (dispatch visitor c) (run_calls visitor cs) s.
Proof. reflexivity. Qed.

Lemma format_label_box order fmt t box :
  (format_label order fmt t box).1 = (box_metadata order t box).1.
Proof. unfold format_label. by destruct (box_metadata order t box). Qed.

Lemma formatted_twice order fmt t document :
  constructed order t ->
  (fun box => (format_label order fmt t box).1)
    <$> ((fun box => (format_label order fmt t box).1) <$> document)
  = formatted order t document.
Proof.
  intros Ht. unfold formatted. rewrite <- list_fmap_compose.
  apply list_fmap_ext. intros i box _. unfold compose.
  by rewrite (format_label_idempotent order fmt t Ht), format_label_box.
Qed.

Lemma labels_of_snd order fmt t (document : Document) :
  (format_label order fmt t <$> document).*2 = labels_of order fmt t document.
Proof. unfold labels_of. by rewrite <- list_fmap_compose. Qed.

Section AnyVisitorTraversal.
Context {S : Type} (visitor : MetadataVisitor S).
Variable order : DictOrder.
Variable fmt : string -> gmap string string -> string.
Variable t : MetadataTemplate.
Hypothesis Ht : constructed order t.

Lemma visit_document_run document s :
  (visit_document order fmt visitor t document s).2
  = run_calls visitor
      (call_of document (formatted order t document)
         <$> reported order fmt t document) s.
Proof.
  rewrite (reported_constructed order fmt t Ht).
  rewrite fmap_cons, run_calls_cons.
  unfold visit_document, and_then. cbn [call_of dispatch].
  destruct (begin_visit visitor document s) as [s1 [[]|e]]; [|done].
  rewrite fmap_app, run_calls_app. unfold and_then, _visit_boxes.
  pose proof (_visit_boxes_from_run visitor order fmt t document
                (formatted order t document) 0 document s1) as Hrun.
  pose proof (_visit_boxes_from_document visitor order fmt t 0 document s1) as Hdoc.
  destruct (_visit_boxes_from order fmt visitor t 0 document s1)
    as [document2 [s2 r2]]. cbn [fst snd] in Hrun, Hdoc.
  rewrite <- Hrun. destruct r2 as [[]|e]; [|done].
  rewrite (Hdoc s2 eq_refl). unfold _visit_labels.
  rewrite fmap_app, run_calls_app. unfold and_then.
  rewrite (report_labels_run visitor order document (formatted order t document)).
  rewrite labels_of_snd, (labels_of_formatted order fmt t Ht).
  destruct (run_calls visitor _ s2) as [s3 [[]|e]]; [|done].
  cbn [fst snd]. unfold run_calls. cbn [for_each_call fmap list_fmap call_of].
  unfold and_then, pass. cbn [dispatch].
  rewrite <- list_fmap_compose.
  change (fst ∘ format_label order fmt t)
    with (fun box => (format_label order fmt t box).1).
  rewrite (formatted_twice order fmt t document Ht).
  by destruct (end_visit visitor (formatted order t document) s3) as [s4 [[]|e]].
Qed.

Lemma visit_document_formatted document s s' :
  (visit_document order fmt visitor t document s).2 = (s', Return tt) ->
  (visit_document order fmt visitor t document s).1 = formatted order t document.
Proof.
  unfold visit_document.
  destruct (begin_visit visitor document s) as [s1 [[]|e]].
  2:{ cbn [fst snd]. intros H. inversion H. }
  unfold _visit_boxes.
  pose proof (_visit_boxes_from_document visitor order fmt t 0 document s1) as Hdoc.
  destruct (_visit_boxes_from order fmt visitor t 0 document s1)
    as [document2 [s2 r2]]. cbn [fst snd] in Hdoc.
  destruct r2 as [[]|e].
  2:{ cbn [fst snd]. intros H. inversion H. }
  rewrite (Hdoc s2 eq_refl). unfold _visit_labels.
  destruct (report_labels order visitor _ s2) as [s3 [[]|e]].
  2:{ cbn [fst snd]. intros H. inversion H. }
  cbn [fst snd]. intros _.
  rewrite <- list_fmap_compose.
  change (fst ∘ format_label order fmt t)
    with (fun box => (format_label order fmt t box).1).
  by apply formatted_twice.
Qed.
End AnyVisitorTraversal.

(** X1: whatever the visitor, its state and the outcome after
    [visit_document] with a template that the constructor returned are
    those of receiving the recorded calls one after the other, up to the
    first that raises. *)
Theorem X1_visitor_receives_the_recorded_calls
    {S : Type} (visitor : MetadataVisitor S) order fmt suffix spec t document s :
  (MetadataTemplate_init order suffix spec).2 = Return t ->
  (visit_document order fmt visitor t document s).2
  = run_calls visitor
      (call_of document (formatted order t document)
         <$> reported order fmt t document) s.
Proof.
  intros Ht. apply MetadataTemplate_init_constructed in Ht.
  by apply visit_document_run.
Qed.

Lemma X1_witness :
  (visit_document CPython27.order format_default PrintVisitor.visitor
     (Examples.build Examples.catalogue) Examples.specimens []).2
  = run_calls PrintVisitor.visitor
      (call_of Examples.specimens
         (formatted CPython27.order (Examples.build Examples.catalogue)
                    Examples.specimens)
         <$> reported CPython27.order format_default
               (Examples.build Examples.catalogue) Examples.specimens) [].
Proof.
  apply (X1_visitor_receives_the_recorded_calls PrintVisitor.visitor
           CPython27.order format_default any_suffix Examples.catalogue).
  vm_compute. reflexivity.
Defined.

(** ** The document after a traversal *)

Lemma formatted_lookup order t (document : Document) index :
  formatted order t document !! index
  = (fun box => (box_metadata order t box).1) <$> document !! index.
Proof. unfold formatted. apply list_lookup_fmap. Qed.

Lemma formatted_idempotent order t document :
  constructed order t ->
  formatted order t (formatted order t document) = formatted order t document.
Proof.
  intros Ht. unfold formatted. rewrite <- list_fmap_compose.
  apply list_fmap_ext. intros i box _. unfold compose.
  by rewrite (box_metadata_idempotent order t Ht).
Qed.

(** X2: when no call of the visitor raises, [visit_document] leaves in
    the document, in place of each record, the record with its derived
    entries added (and nothing else changed); a document that has been
    through a traversal goes through the next one unchanged. *)
Theorem X2_traversal_adds_derived_entries
    {S : Type} (visitor : MetadataVisitor S) order fmt suffix spec t document s s' :
  (MetadataTemplate_init order suffix spec).2 = Return t ->
  (visit_document order fmt visitor t document s).2 = (s', Return tt) ->
  let document' := (visit_document order fmt visitor t document s).1 in
  length document' = length document
  /\ (forall index box, document !! index = Some box ->
        exists box', document' !! index = Some box'
                     /\ with_derived_entries t (fields box) (fields box')
                     /\ has_derived_entries t (fields box'))
  /\ formatted order t document' = document'.
Proof.
  intros Ht Hrun document'. apply MetadataTemplate_init_constructed in Ht.
  subst document'.
  rewrite (visit_document_formatted visitor order fmt t Ht document s s' Hrun).
  split; [unfold formatted; by rewrite length_fmap|]. split.
  - intros index box Hbox. exists (box_metadata order t box).1.
    rewrite formatted_lookup, Hbox. split; [done|].
    rewrite box_metadata_alias. split.
    + by apply box_metadata_with_derived_entries.
    + by apply box_metadata_has_derived_entries.
  - by apply formatted_idempotent.
Qed.

Lemma X2_witness :
  let document' :=
    (visit_document CPython27.order format_default RecordingVisitor
       (Examples.build Examples.sex) [Examples.box [("sex", "M")]] []).1 in
  length document' = length [Examples.box [("sex", "M")]]
  /\ (forall index box, [Examples.box [("sex", "M")]] !! index = Some box ->
        exists box', document' !! index = Some box'
                     /\ with_derived_entries (Examples.build Examples.sex)
                          (fields box) (fields box')
                     /\ has_derived_entries (Examples.build Examples.sex)
                          (fields box'))
  /\ formatted CPython27.order (Examples.build Examples.sex) document' = document'.
Proof.
  apply (X2_traversal_adds_derived_entries RecordingVisitor
           CPython27.order format_default any_suffix Examples.sex
           (Examples.build Examples.sex) [Examples.box [("sex", "M")]] []
           [Begin_visit; Missing_label 0; End_visit]).
  - vm_compute. reflexivity.
  - vm_compute. reflexivity.
Defined.

(** ** The collecting visitor in a traversal *)

Lemma run_calls_collecting before after events p :
  Begin_visit ∉ events ->
  run_calls CollectVisitor.visitor (call_of before after <$> events) (collecting p)
  = (collecting (collected p events), Return tt).
Proof.
  revert p. induction events as [|e events IH]; intros p Hb.
  - unfold collected. simpl. rewrite !app_nil_r. by destruct p.
  - apply not_elem_of_cons in Hb as [He Hb].
    rewrite fmap_cons, run_calls_cons. unfold and_then.
    assert (Hstep : dispatch CollectVisitor.visitor (call_of before after e)
                      (collecting p)
                    = (collecting (collected p [e]), Return tt)).
    { destruct e, p; try done; unfold collected; simpl; by rewrite ?app_nil_r. }
    rewrite Hstep, (IH _ Hb). f_equal. f_equal.
    unfold collected. destruct p. simpl.
    destruct e; simpl; by rewrite ?app_nil_r, <- ?app_assoc.
Qed.

Lemma Begin_visit_not_box_event order fmt t index items :
  Begin_visit ∉ boxes_events order fmt t index items.
Proof.
  intros Hin.
  pose proof (boxes_events_are_box_events order fmt t index items) as H.
  rewrite Forall_forall in H. apply (H _ Hin).
Qed.

Lemma Begin_visit_not_label_event order labels :
  Begin_visit ∉ label_events order labels.
Proof.
  unfold label_events. rewrite elem_of_app, !list_elem_of_fmap.
  intros [(x & H & _)|(x & H & _)]; discriminate H.
Qed.

Lemma visit_document_collecting order fmt t document s :
  constructed order t ->
  (visit_document order fmt CollectVisitor.visitor t document s).2
  = (collecting (collected (ValidationProblems.make [] [] [] [])
                           (reported order fmt t document)),
     Return tt).
Proof.
  intros Ht. rewrite (visit_document_run CollectVisitor.visitor order fmt t Ht).
  rewrite (reported_constructed order fmt t Ht).
  rewrite fmap_cons, run_calls_cons. unfold and_then.
  change (dispatch CollectVisitor.visitor
            (call_of document (formatted order t document) Begin_visit) s)
    with (collecting (ValidationProblems.make [] [] [] []), @Return unit tt).
  cbv beta iota. rewrite run_calls_collecting; [done|].
  rewrite !elem_of_app. intros [H|[H|H]].
  - by apply Begin_visit_not_box_event in H.
  - by apply Begin_visit_not_label_event in H.
  - apply list_elem_of_singleton in H. discriminate H.
Qed.

(** X3: with a template that the constructor returned, a traversal
    with a [CollectVisitor] never raises, whatever the visitor held
    before; afterwards [all_problems] returns the report whose four
    lists hold, in the order of the calls, the entries for the recorded
    calls of each kind. *)
Theorem X3_collect_visitor_report order fmt suffix spec t document s :
  (MetadataTemplate_init order suffix spec).2 = Return t ->
  let r := visit_document order fmt CollectVisitor.visitor t document s in
  let calls := reported order fmt t document in
  r.2.2 = Return tt
  /\ CollectVisitor.all_problems r.2.1
     = Return (ValidationProblems.make
                 (omap stored_missing_mandatory calls)
                 (omap stored_failed_parse calls)
                 (omap stored_missing_label calls)
                 (omap stored_duplicated_labels calls)).
Proof.
  intros Ht r calls. apply MetadataTemplate_init_constructed in Ht.
  subst r calls. by rewrite (visit_document_collecting order fmt t document s Ht).
Qed.

Lemma X3_witness :
  let r := visit_document CPython27.order format_default CollectVisitor.visitor
             (Examples.build Examples.catalogue) Examples.specimens
             CollectVisitor.new in
  let calls := reported CPython27.order format_default
                 (Examples.build Examples.catalogue) Examples.specimens in
  r.2.2 = Return tt
  /\ CollectVisitor.all_problems r.2.1
     = Return (ValidationProblems.make
                 (omap stored_missing_mandatory calls)
                 (omap stored_failed_parse calls)
                 (omap stored_missing_label calls)
                 (omap stored_duplicated_labels calls)).
Proof.
  apply (X3_collect_visitor_report CPython27.order format_default any_suffix
           Examples.catalogue).
  vm_compute. reflexivity.
Defined.

(** ** Every problem is reported, and reported once *)

Lemma elem_of_boxes_events order fmt t k items e :
  e ∈ boxes_events order fmt t k items
  <-> exists j box, items !! j = Some box
        /\ e ∈ box_events order t (k + j) (format_label order fmt t box).2
                          (fields (format_label order fmt t box).1).
Proof.
  revert k. induction items as [|b rest IH]; intros k.
  - simpl. split; [by intros ?%elem_of_nil | by intros (j & box & ? & _)].
  - cbn [boxes_events]. rewrite elem_of_app, IH. split.
    + intros [H|(j & box & Hj & H)].
      * exists 0, b. by rewrite Nat.add_0_r.
      * exists (S j), box. split; [done|].
        by replace (k + S j) with (S k + j) by lia.
    + intros ([|j] & box & Hj & H).
      * left. injection Hj as ->. by rewrite Nat.add_0_r in H.
      * right. exists j, box. split; [done|].
        by replace (S k + j) with (k + S j) by lia.
Qed.

Lemma elem_of_box_events_missing_mandatory order t index label md i l n :
  Missing_mandatory i l n ∈ box_events order t index label md
  <-> i = index /\ l = label /\ n ∈ _mandatory t /\ truthy_opt (md !! n) = false.
Proof.
  unfold box_events. rewrite elem_of_app, list_elem_of_fmap, list_elem_of_omap.
  split.
  - intros [(f & [= -> -> ->] & [Hf Hin]%list_elem_of_filter)|((k & p) & _ & H)].
    + repeat split; [done|]. by destruct (truthy_opt (md !! f)).
    + unfold failed_parse_event in H. cbn [fst snd] in H.
      destruct (md !! k); [|done]. by destruct (p s).
  - intros (-> & -> & Hin & Hn). left. exists n. split; [done|].
    apply list_elem_of_filter. split; [by rewrite Hn | done].
Qed.

Lemma elem_of_box_events_failed_parse order t index label md i l n :
  Failed_parse i l n ∈ box_events order t index label md
  <-> i = index /\ l = label
      /\ exists p v, (n, p) ∈ parseable order t md /\ md !! n = Some v /\ p v = None.
Proof.
  unfold box_events. rewrite elem_of_app, list_elem_of_fmap, list_elem_of_omap.
  split.
  - intros [(f & [=] & _)|((k & p) & Hin & H)].
    unfold failed_parse_event in H. cbn [fst snd] in H.
    destruct (md !! k) as [v|] eqn:Hv; [|done].
    destruct (p v) eqn:Hp; [done|]. injection H as -> -> ->. eauto 10.
  - intros (-> & -> & p & v & Hin & Hv & Hp). right. exists (n, p).
    split; [done|]. unfold failed_parse_event. cbn [fst snd]. by rewrite Hv, Hp.
Qed.

Lemma box_events_index order t index label md e :
  e ∈ box_events order t index label md -> box_event_index e = Some index.
Proof.
  intros Hin.
  pose proof (box_events_are_box_events order t index label md) as Hbox.
  rewrite Forall_forall in Hbox. specialize (Hbox e Hin).
  destruct e; try done.
  - by apply elem_of_box_events_missing_mandatory in Hin as (-> & _).
  - by apply elem_of_box_events_failed_parse in Hin as (-> & _).
Qed.

Lemma boxes_events_index order fmt t k items e :
  e ∈ boxes_events order fmt t k items ->
  exists i, box_event_index e = Some i /\ k <= i.
Proof.
  intros (j & box & _ & Hin)%elem_of_boxes_events.
  exists (k + j). split; [by eapply box_events_index | lia].
Qed.

Lemma NoDup_omap_fst {A B} (g : string * A -> option B) (key : B -> string)
    (l : list (string * A)) :
  (forall x y, g x = Some y -> key y = x.1) ->
  NoDup l.*1 -> NoDup (omap g l).
Proof.
  intros Hkey. induction l as [|x l IH]; simpl; [constructor|].
  rewrite NoDup_cons. intros [Hx Hl]. destruct (g x) as [y|] eqn:Hy; [|by apply IH].
  apply NoDup_cons. split; [|by apply IH].
  intros (x' & Hin & Hx')%list_elem_of_omap. apply Hx.
  apply list_elem_of_fmap. exists x'. split; [|done].
  by rewrite <- (Hkey x y Hy), <- (Hkey x' y Hx').
Qed.

Section ReportedOnce.
Variable order : DictOrder.
Variable fmt : string -> gmap string string -> string.
Variable t : MetadataTemplate.
Hypothesis Ht : constructed order t.

Lemma mandatory_NoDup : NoDup (_mandatory t).
Proof.
  rewrite (constructed_mandatory _ _ Ht).
  apply NoDup_fmap_filter. fold (dict_keys (named_items (_fields t))).
  apply (named_items_NoDup order t Ht).
Qed.

Lemma parseable_NoDup md : NoDup (parseable order t md).*1.
Proof.
  unfold parseable. apply NoDup_fmap_filter.
  rewrite (iteritems_keys_Permutation order _ (parse_mapping_NoDup order t Ht)).
  apply (parse_mapping_NoDup order t Ht).
Qed.

Lemma box_events_NoDup index label md :
  NoDup (box_events order t index label md).
Proof.
  unfold box_events. apply NoDup_app. split; [|split].
  - apply NoDup_fmap_2; [by intros n m [= ->]|].
    apply NoDup_filter, mandatory_NoDup.
  - intros e (n & -> & _)%list_elem_of_fmap ((k & p) & _ & H)%list_elem_of_omap.
    unfold failed_parse_event in H. cbn [fst snd] in H.
    destruct (md !! k); [|done]. by destruct (p s).
  - apply (NoDup_omap_fst _ (fun e => match e with
                                      | Failed_parse _ _ f => f
                                      | _ => ""
                                      end)); [|apply parseable_NoDup].
    intros [k p] e H. unfold failed_parse_event in H. cbn [fst snd] in *.
    destruct (md !! k); [|done]. destruct (p s); [done|]. by injection H as <-.
Qed.

Lemma boxes_events_NoDup k items : NoDup (boxes_events order fmt t k items).
Proof.
  revert k. induction items as [|b rest IH]; intros k; cbn [boxes_events].
  - constructor.
  - apply NoDup_app. split; [apply box_events_NoDup|]. split; [|apply IH].
    intros e He Hrest. apply box_events_index in He.
    apply boxes_events_index in Hrest as (i & Hi & Hle).
    rewrite He in Hi. injection Hi as <-. lia.
Qed.

Lemma label_events_NoDup labels : NoDup (label_events order labels).
Proof.
  unfold label_events. apply NoDup_app. split; [|split].
  - apply missing_label_events_NoDup.
  - intros e (x & -> & _)%list_elem_of_fmap (y & H & _)%list_elem_of_fmap.
    discriminate H.
  - apply duplicated_label_events_NoDup.
Qed.

Lemma label_event_not_box_event labels e :
  e ∈ label_events order labels -> ~ is_box_event e.
Proof.
  unfold label_events. rewrite elem_of_app, !list_elem_of_fmap.
  intros [(x & -> & _)|(x & -> & _)]; simpl; tauto.
Qed.

Lemma reported_NoDup document : NoDup (reported order fmt t document).
Proof.
  rewrite (reported_constructed order fmt t Ht).
  pose proof (boxes_events_are_box_events order fmt t 0 document) as Hbox.
  rewrite Forall_forall in Hbox.
  apply NoDup_cons. split.
  - rewrite !elem_of_app. intros [H|[H|H]].
    + by apply Begin_visit_not_box_event in H.
    + by apply Begin_visit_not_label_event in H.
    + apply list_elem_of_singleton in H. discriminate H.
  - apply NoDup_app. split; [apply boxes_events_NoDup|]. split.
    + intros e He. rewrite elem_of_app. intros [H|H].
      * apply label_event_not_box_event in H. by apply H, Hbox.
      * apply list_elem_of_singleton in H. subst e. by apply Hbox in He.
    + apply NoDup_app. split; [apply label_events_NoDup|].
      split; [|apply NoDup_singleton].
      intros e He H. apply list_elem_of_singleton in H. subst e.
      revert He. unfold label_events. rewrite elem_of_app, !list_elem_of_fmap.
      intros [(x & H & _)|(x & H & _)]; discriminate H.
Qed.

Lemma elem_of_reported_box_event document e :
  is_box_event e ->
  e ∈ reported order fmt t document
  <-> exists index box, document !! index = Some box
        /\ e ∈ box_events order t index (format_label order fmt t box).2
                          (fields (format_label order fmt t box).1).
Proof.
  intros He. rewrite (reported_constructed order fmt t Ht).
  rewrite elem_of_cons, !elem_of_app, elem_of_boxes_events. split.
  - intros [->|[H|[H|H]]]; [done|done| |].
    + by apply label_event_not_box_event in H.
    + apply list_elem_of_singleton in H. by subst e.
  - intros H. right. left. done.
Qed.

Lemma lacks_mandatory_formatted box n :
  n ∈ _mandatory t
  /\ truthy_opt (fields (format_label order fmt t box).1 !! n) = false
  <-> lacks_mandatory t (fields box) n.
Proof.
  unfold lacks_mandatory. rewrite (elem_of_mandatory order t Ht). split.
  - intros [(f & Hf & Hn & Hm) Hv]. exists f. repeat split; try done.
    rewrite (format_label_declared order fmt t Ht box f n Hf Hn) in Hv.
    intros H%truthy_opt_true. congruence.
  - intros (f & Hf & Hn & Hm & Hv). split; [eauto|].
    rewrite (format_label_declared order fmt t Ht box f n Hf Hn).
    destruct (truthy_opt (fields box !! n)) eqn:E; [|done].
    by apply truthy_opt_true in E.
Qed.

Lemma fails_to_parse_formatted box n :
  (exists p v, (n, p) ∈ parseable order t (fields (format_label order fmt t box).1)
               /\ fields (format_label order fmt t box).1 !! n = Some v
               /\ p v = None)
  <-> fails_to_parse t (fields box) n.
Proof.
  unfold fails_to_parse. split.
  - intros (p & v & Hin & Hv & Hp).
    apply (elem_of_parseable order t Ht) in Hin as (_ & f & Hf & Hn & Hfp).
    rewrite (format_label_declared order fmt t Ht box f n Hf Hn) in Hv.
    eauto 10.
  - intros (f & p & v & Hf & Hn & Hfp & Hv & Hp). exists p, v.
    rewrite (elem_of_parseable order t Ht).
    rewrite (format_label_declared order fmt t Ht box f n Hf Hn).
    rewrite Hv. eauto 10.
Qed.
End ReportedOnce.

(** X4: in a traversal with a template that the constructor returned,
    no call is made twice: the recorded calls are pairwise different. *)
Theorem X4_no_call_is_made_twice order fmt suffix spec t document :
  (MetadataTemplate_init order suffix spec).2 = Return t ->
  NoDup (reported order fmt t document).
Proof.
  intros Ht. apply MetadataTemplate_init_constructed in Ht.
  by apply reported_NoDup.
Qed.

Lemma X4_witness :
  NoDup (reported CPython27.order format_default
           (Examples.build Examples.catalogue) Examples.specimens).
Proof.
  apply (X4_no_call_is_made_twice CPython27.order format_default any_suffix
           Examples.catalogue).
  vm_compute. reflexivity.
Defined.

(** X5: [missing_mandatory(index, label, field)] is called exactly for
    the records of the document, with their index and their label, and
    the mandatory fields that the record lacks or has empty. *)
Theorem X5_missing_mandatory_is_reported_iff
    order fmt suffix spec t document index label n :
  (MetadataTemplate_init order suffix spec).2 = Return t ->
  Missing_mandatory index label n ∈ reported order fmt t document
  <-> exists box, document !! index = Some box
        /\ label = (format_label order fmt t box).2
        /\ lacks_mandatory t (fields box) n.
Proof.
  intros Ht. apply MetadataTemplate_init_constructed in Ht.
  rewrite (elem_of_reported_box_event order fmt t Ht) by done. split.
  - intros (i & box & Hbox & Hin).
    apply elem_of_box_events_missing_mandatory in Hin as (-> & -> & Hm & Hv).
    exists box. repeat split; [done|].
    apply (lacks_mandatory_formatted order fmt t Ht). done.
  - intros (box & Hbox & -> & Hl). exists index, box. split; [done|].
    apply elem_of_box_events_missing_mandatory.
    apply (lacks_mandatory_formatted order fmt t Ht) in Hl as [Hm Hv]. done.
Qed.

Lemma X5_witness :
  Missing_mandatory 1 "" "catalogNumber"
    ∈ reported CPython27.order format_default
        (Examples.build Examples.catalogue) Examples.specimens
  <-> exists box, Examples.specimens !! 1 = Some box
        /\ "" = (format_label CPython27.order format_default
                   (Examples.build Examples.catalogue) box).2
        /\ lacks_mandatory (Examples.build Examples.catalogue) (fields box)
                           "catalogNumber".
Proof.
  apply (X5_missing_mandatory_is_reported_iff
           CPython27.order format_default any_suffix Examples.catalogue).
  vm_compute. reflexivity.
Defined.

(** X6: [failed_parse(index, label, field)] is called exactly for the
    records of the document, with their index and their label, and the
    fields that have a parser, are in the record and fail to parse. *)
Theorem X6_failed_parse_is_reported_iff
    order fmt suffix spec t document index label n :
  (MetadataTemplate_init order suffix spec).2 = Return t ->
  Failed_parse index label n ∈ reported order fmt t document
  <-> exists box, document !! index = Some box
        /\ label = (format_label order fmt t box).2
        /\ fails_to_parse t (fields box) n.
Proof.
  intros Ht. apply MetadataTemplate_init_constructed in Ht.
  rewrite (elem_of_reported_box_event order fmt t Ht) by done. split.
  - intros (i & box & Hbox & Hin).
    apply elem_of_box_events_failed_parse in Hin as (-> & -> & H).
    exists box. repeat split; [done|].
    by apply (fails_to_parse_formatted order fmt t Ht).
  - intros (box & Hbox & -> & Hl). exists index, box. split; [done|].
    apply elem_of_box_events_failed_parse. repeat split.
    by apply (fails_to_parse_formatted order fmt t Ht).
Qed.

Lemma X6_witness :
  Failed_parse 2 "X123" "count"
    ∈ reported CPython27.order format_default
        (Examples.build Examples.catalogue) Examples.specimens
  <-> exists box, Examples.specimens !! 2 = Some box
        /\ "X123" = (format_label CPython27.order format_default
                       (Examples.build Examples.catalogue) box).2
        /\ fails_to_parse (Examples.build Examples.catalogue) (fields box) "count".
Proof.
  apply (X6_failed_parse_is_reported_iff
           CPython27.order format_default any_suffix Examples.catalogue).
  vm_compute. reflexivity.
Defined.

(** ** Record validation and the traversal agree *)

Section ValidateAndVisit.
Variable order : DictOrder.
Variable fmt : string -> gmap string string -> string.
Variable t : MetadataTemplate.
Hypothesis Ht : constructed order t.

Lemma validate_box_true box :
  validate_box order t box = Return true
  <-> mandatory_given t (fields box) /\ present_parse t (fields box).
Proof.
  destruct (validate_box_spec order t Ht box) as (b & Hb & Hiff).
  rewrite Hb. rewrite <- Hiff. split; [by intros [= ->] | by intros ->].
Qed.

(** A record that does not validate has a problem that a traversal
    reports. *)
Lemma validate_box_false box :
  validate_box order t box = Return false ->
  (exists n, lacks_mandatory t (fields box) n)
  \/ (exists n, fails_to_parse t (fields box) n).
Proof.
  unfold validate_box.
  destruct (existsb _ (_mandatory t)) eqn:Hm.
  - intros _. left. apply existsb_exists in Hm as (n & Hin & Hn).
    apply list_elem_of_In, (elem_of_mandatory order t Ht) in Hin
      as (f & Hf & Hfn & Hfm).
    exists n, f. repeat split; try done.
    intros H%truthy_opt_true. by rewrite H in Hn.
  - destruct (for_each _ _) as [[]|e] eqn:Hloop; [done|].
    intros _. right.
    apply for_each_Raise in Hloop as ([n parse] & Hin & Hbody).
    apply (elem_of_parseable order t Ht) in Hin as ([v Hv] & f & Hf & Hn & Hp).
    rewrite (parse_present _ _ _ _ Hv) in Hbody.
    destruct (parse v) eqn:Hpv; [done|]. exists n, f, parse, v. done.
Qed.

Lemma validate_box_true_no_problem box n :
  validate_box order t box = Return true ->
  ~ lacks_mandatory t (fields box) n /\ ~ fails_to_parse t (fields box) n.
Proof.
  intros [Hm Hp]%validate_box_true. split.
  - intros (f & Hf & Hn & Hfm & Hv). apply Hv. by apply (Hm f n).
  - intros (f & parse & v & Hf & Hn & Hfp & Hv & Hpv).
    destruct (Hp f n parse v Hf Hn Hfp Hv) as [? ?]. congruence.
Qed.

Lemma validate_box_outcome box :
  validate_box order t box = Return true \/ validate_box order t box = Return false.
Proof.
  destruct (validate_box_spec order t Ht box) as ([] & Hb & _); auto.
Qed.

Lemma validate_box_iff_nothing_reported document index box :
  document !! index = Some box ->
  validate_box order t box = Return true
  <-> forall e, e ∈ reported order fmt t document -> box_event_index e ≠ Some index.
Proof.
  intros Hbox. split.
  - intros Hv e He Hi.
    assert (Hb : is_box_event e) by (by destruct e).
    apply (elem_of_reported_box_event order fmt t Ht document e Hb) in He
      as (i & box' & Hbox' & Hin).
    pose proof (box_events_index _ _ _ _ _ _ Hin) as Hi'.
    rewrite Hi in Hi'. injection Hi' as ->.
    rewrite Hbox in Hbox'. injection Hbox' as <-.
    destruct e as [|i0 l n|i0 l n| | |]; try done.
    + apply elem_of_box_events_missing_mandatory in Hin as (_ & _ & Hm).
      apply (lacks_mandatory_formatted order fmt t Ht) in Hm.
      by destruct (validate_box_true_no_problem box n Hv) as [H _].
    + apply elem_of_box_events_failed_parse in Hin as (_ & _ & Hf).
      apply (fails_to_parse_formatted order fmt t Ht) in Hf.
      by destruct (validate_box_true_no_problem box n Hv) as [_ H].
  - intros Hnone. destruct (validate_box_outcome box) as [Hv|Hv]; [done|].
    exfalso. apply validate_box_false in Hv as [[n Hn]|[n Hn]].
    + apply (Hnone (Missing_mandatory index (format_label order fmt t box).2 n));
        [|done].
      apply (elem_of_reported_box_event order fmt t Ht); [done|].
      exists index, box. split; [done|].
      apply elem_of_box_events_missing_mandatory. repeat split.
      * by apply (lacks_mandatory_formatted order fmt t Ht box n).
      * by apply (lacks_mandatory_formatted order fmt t Ht box n).
    + apply (Hnone (Failed_parse index (format_label order fmt t box).2 n));
        [|done].
      apply (elem_of_reported_box_event order fmt t Ht); [done|].
      exists index, box. split; [done|].
      apply elem_of_box_events_failed_parse. repeat split.
      by apply (fails_to_parse_formatted order fmt t Ht box n).
Qed.
End ValidateAndVisit.

(** X7: [validate_box] returns [True] for a record of a document
    exactly when a traversal of the document makes no
    [missing_mandatory] and no [failed_parse] call with the index of the
    record. *)
Theorem X7_validate_box_iff_nothing_reported
    order fmt suffix spec t document index box :
  (MetadataTemplate_init order suffix spec).2 = Return t ->
  document !! index = Some box ->
  validate_box order t box = Return true
  <-> forall e, e ∈ reported order fmt t document -> box_event_index e ≠ Some index.
Proof.
  intros Ht. apply MetadataTemplate_init_constructed in Ht.
  by apply validate_box_iff_nothing_reported.
Qed.

Lemma X7_witness :
  validate_box CPython27.order (Examples.build Examples.catalogue)
    (Examples.box [("catalogNumber", "X123"); ("count", "12")])
  = Return true
  <-> forall e,
        e ∈ reported CPython27.order format_default
              (Examples.build Examples.catalogue) Examples.specimens ->
        box_event_index e ≠ Some 0.
Proof.
  apply (X7_validate_box_iff_nothing_reported
           CPython27.order format_default any_suffix Examples.catalogue).
  - vm_compute. reflexivity.
  - reflexivity.
Defined.

(** ** A report without problems *)

Lemma omap_nil_iff {A B} (g : A -> option B) (l : list A) :
  omap g l = [] <-> forall x, x ∈ l -> g x = None.
Proof.
  induction l as [|x l IH]; simpl.
  - split; [by intros _ x ?%elem_of_nil | done].
  - destruct (g x) eqn:Hx.
    + split; [done|]. intros H. specialize (H x (list_elem_of_here _ _)). congruence.
    + rewrite IH. split.
      * intros H y [->|Hy]%elem_of_cons; [done | by apply H].
      * intros H y Hy. apply H. by right.
Qed.

Lemma any_problems_false p :
  ValidationProblems.any_problems p = false
  <-> ValidationProblems.missing_mandatory p = []
      /\ ValidationProblems.failed_parse p = []
      /\ ValidationProblems.missing_label p = []
      /\ ValidationProblems.duplicated_labels p = [].
Proof.
  unfold ValidationProblems.any_problems.
  rewrite negb_false_iff, !andb_true_iff, !bool_decide_eq_true. tauto.
Qed.

Section LabelEvents.
Variable order : DictOrder.
Variable fmt : string -> gmap string string -> string.
Variable t : MetadataTemplate.
Hypothesis Ht : constructed order t.

Lemma elem_of_reported_missing_label document index :
  Missing_label index ∈ reported order fmt t document
  <-> labels_of order fmt t document !! index = Some "".
Proof.
  rewrite (reported_constructed order fmt t Ht).
  rewrite <- elem_of_missing_label_events.
  rewrite elem_of_cons, !elem_of_app. unfold label_events.
  rewrite elem_of_app. split.
  - intros [H|[H|[[H|H]|H]]]; [done| |done| |].
    + pose proof (boxes_events_are_box_events order fmt t 0 document) as Hb.
      rewrite Forall_forall in Hb. by apply Hb in H.
    + apply list_elem_of_fmap in H as (x & H & _). discriminate H.
    + apply list_elem_of_singleton in H. discriminate H.
  - intros H. right. right. left. by left.
Qed.

Lemma elem_of_reported_duplicated_labels document label :
  Duplicated_labels label ∈ reported order fmt t document
  <-> label ≠ "" /\ 1 < count_of label (labels_of order fmt t document).
Proof.
  rewrite (reported_constructed order fmt t Ht).
  rewrite <- (elem_of_duplicated_label_events order).
  rewrite elem_of_cons, !elem_of_app. unfold label_events.
  rewrite elem_of_app. split.
  - intros [H|[H|[[H|H]|H]]]; [done| | |done|].
    + pose proof (boxes_events_are_box_events order fmt t 0 document) as Hb.
      rewrite Forall_forall in Hb. by apply Hb in H.
    + apply list_elem_of_fmap in H as (x & H & _). discriminate H.
    + apply list_elem_of_singleton in H. discriminate H.
  - intros H. right. right. left. by right.
Qed.

Lemma no_problems_iff document :
  (forall e, e ∈ reported order fmt t document ->
     stored_missing_mandatory e = None /\ stored_failed_parse e = None
     /\ stored_missing_label e = None /\ stored_duplicated_labels e = None)
  <-> (forall box, box ∈ document -> validate_box order t box = Return true)
      /\ ("" ∉ labels_of order fmt t document)
      /\ NoDup (labels_of order fmt t document).
Proof.
  split.
  - intros Hnone.
    assert (Hempty : "" ∉ labels_of order fmt t document).
    { intros (i & Hi)%list_elem_of_lookup.
      apply elem_of_reported_missing_label in Hi.
      by destruct (Hnone _ Hi) as (_ & _ & ? & _). }
    split; [|split; [done|]].
    + intros box (index & Hbox)%list_elem_of_lookup.
      apply (validate_box_iff_nothing_reported order fmt t Ht document index box Hbox).
      intros e He Hi. destruct (Hnone e He) as (H1 & H2 & _).
      by destruct e.
    + apply count_of_NoDup. intros x.
      destruct (decide (1 < count_of x (labels_of order fmt t document)))
        as [Hc|Hc]; [|lia].
      assert (Hx : x ≠ "").
      { intros ->. apply count_of_zero in Hempty. lia. }
      assert (Hin : Duplicated_labels x ∈ reported order fmt t document).
      { by apply elem_of_reported_duplicated_labels. }
      by destruct (Hnone _ Hin) as (_ & _ & _ & ?).
  - intros (Hvalid & Hempty & Hnd) e He.
    destruct e as [|i l n|i l n|i|l|]; try done; exfalso.
    + apply (elem_of_reported_box_event order fmt t Ht) in He; [|done].
      destruct He as (index & box & Hbox & Hin).
      apply elem_of_box_events_missing_mandatory in Hin as (_ & _ & Hm).
      apply (lacks_mandatory_formatted order fmt t Ht) in Hm.
      assert (Hv := Hvalid box (list_elem_of_lookup_2 _ _ _ Hbox)).
      by destruct (validate_box_true_no_problem order t Ht box n Hv) as [H _].
    + apply (elem_of_reported_box_event order fmt t Ht) in He; [|done].
      destruct He as (index & box & Hbox & Hin).
      apply elem_of_box_events_failed_parse in Hin as (_ & _ & Hf).
      apply (fails_to_parse_formatted order fmt t Ht) in Hf.
      assert (Hv := Hvalid box (list_elem_of_lookup_2 _ _ _ Hbox)).
      by destruct (validate_box_true_no_problem order t Ht box n Hv) as [_ H].
    + apply elem_of_reported_missing_label in He.
      apply Hempty. by apply list_elem_of_lookup_2 in He.
    + apply elem_of_reported_duplicated_labels in He as [_ Hc].
      pose proof (proj1 (count_of_NoDup _) Hnd l) as Hl. lia.
Qed.
End LabelEvents.

(** X8: the report that a [CollectVisitor] has after a traversal has
    [any_problems] false exactly when every record of the document
    validates, no record has the empty label and no two records have
    the same label. *)
Theorem X8_report_without_problems order fmt suffix spec t document s :
  (MetadataTemplate_init order suffix spec).2 = Return t ->
  exists p,
    CollectVisitor.all_problems
      (visit_document order fmt CollectVisitor.visitor t document s).2.1
    = Return p
    /\ (ValidationProblems.any_problems p = false
        <-> (forall box, box ∈ document -> validate_box order t box = Return true)
            /\ ("" ∉ labels_of order fmt t document)
            /\ NoDup (labels_of order fmt t document)).
Proof.
  intros Ht. apply MetadataTemplate_init_constructed in Ht.
  rewrite (visit_document_collecting order fmt t document s Ht).
  eexists. split; [reflexivity|].
  rewrite any_problems_false. cbn [ValidationProblems.missing_mandatory
    ValidationProblems.failed_parse ValidationProblems.missing_label
    ValidationProblems.duplicated_labels collected app].
  rewrite !omap_nil_iff, <- (no_problems_iff order fmt t Ht document).
  split.
  - intros (H1 & H2 & H3 & H4) e He. auto.
  - intros H. repeat split; intros e He; by destruct (H e He) as (? & ? & ? & ?).
Qed.

Lemma X8_witness :
  exists p,
    CollectVisitor.all_problems
      (visit_document CPython27.order format_default CollectVisitor.visitor
         (Examples.build Examples.catalogue) Examples.specimens
         CollectVisitor.new).2.1
    = Return p
    /\ (ValidationProblems.any_problems p = false
        <-> (forall box, box ∈ Examples.specimens ->
               validate_box CPython27.order (Examples.build Examples.catalogue) box
               = Return true)
            /\ ("" ∉ labels_of CPython27.order format_default
                       (Examples.build Examples.catalogue) Examples.specimens)
            /\ NoDup (labels_of CPython27.order format_default
                        (Examples.build Examples.catalogue) Examples.specimens)).
Proof.
  apply (X8_report_without_problems CPython27.order format_default any_suffix
           Examples.catalogue).
  vm_compute. reflexivity.
Defined.

(** ** The printing visitor in a traversal *)

Lemma run_calls_printing before after events out :
  Forall (fun e => ~ is_box_event e) events ->
  run_calls PrintVisitor.visitor (call_of before after <$> events) out
  = (out ++ (printed before after <$> events), Return tt).
Proof.
  revert out. induction events as [|e events IH]; intros out Hall.
  - simpl. by rewrite app_nil_r.
  - apply Forall_cons in Hall as [He Hall].
    rewrite fmap_cons, run_calls_cons. unfold and_then.
    assert (Hstep : dispatch PrintVisitor.visitor (call_of before after e) out
                    = (out ++ [printed before after e], Return tt)).
    { destruct e; try done; simpl in He; tauto. }
    rewrite Hstep, (IH _ Hall). by rewrite fmap_cons, <- app_assoc.
Qed.

Lemma run_calls_printing_box_event before after e events out :
  is_box_event e ->
  run_calls PrintVisitor.visitor (call_of before after <$> e :: events) out
  = (out, Raise (NameError "box")).
Proof. intros He. by destruct e. Qed.

Section PrintingTraversal.
Variable order : DictOrder.
Variable fmt : string -> gmap string string -> string.
Variable t : MetadataTemplate.
Hypothesis Ht : constructed order t.

Lemma boxes_events_nil document :
  (forall box, box ∈ document -> validate_box order t box = Return true) ->
  boxes_events order fmt t 0 document = [].
Proof.
  intros Hvalid. destruct (boxes_events order fmt t 0 document) as [|e l] eqn:E;
    [done|exfalso].
  assert (Hin : e ∈ boxes_events order fmt t 0 document) by (rewrite E; left).
  pose proof (boxes_events_are_box_events order fmt t 0 document) as Hb.
  rewrite Forall_forall in Hb. specialize (Hb e Hin).
  apply elem_of_boxes_events in Hin as (j & box & Hbox & Hin).
  pose proof (box_events_index _ _ _ _ _ _ Hin) as Hi.
  assert (Hv := Hvalid box (list_elem_of_lookup_2 _ _ _ Hbox)).
  apply (validate_box_iff_nothing_reported order fmt t Ht document j box Hbox)
    with (e := e) in Hv; [done|].
  apply (elem_of_reported_box_event order fmt t Ht); [done|]. eauto.
Qed.

Lemma boxes_events_cons document box :
  box ∈ document -> validate_box order t box = Return false ->
  exists e events,
    boxes_events order fmt t 0 document = e :: events /\ is_box_event e.
Proof.
  intros (index & Hbox)%list_elem_of_lookup Hv.
  destruct (boxes_events order fmt t 0 document) as [|e l] eqn:E.
  - exfalso.
    assert (Htrue : validate_box order t box = Return true); [|congruence].
    apply (validate_box_iff_nothing_reported order fmt t Ht document index box Hbox).
    intros e He Hi.
    assert (Hb : is_box_event e) by (by destruct e).
    apply (elem_of_reported_box_event order fmt t Ht document e Hb) in He.
    apply (elem_of_boxes_events order fmt t 0 document e) in He.
    rewrite E in He. by apply elem_of_nil in He.
  - exists e, l. split; [done|].
    pose proof (boxes_events_are_box_events order fmt t 0 document) as Hb.
    rewrite Forall_forall in Hb. apply Hb. rewrite E. left.
Qed.

Lemma visit_document_printing_valid document out :
  (forall box, box ∈ document -> validate_box order t box = Return true) ->
  (visit_document order fmt PrintVisitor.visitor t document out).2
  = (out ++ (printed document (formatted order t document)
               <$> reported order fmt t document), Return tt).
Proof.
  intros Hvalid. rewrite (visit_document_run PrintVisitor.visitor order fmt t Ht).
  apply run_calls_printing.
  rewrite (reported_constructed order fmt t Ht), (boxes_events_nil document Hvalid).
  apply Forall_cons. split; [simpl; tauto|]. cbn [app].
  apply Forall_app. split.
  - apply Forall_forall. intros e He.
    exact (label_event_not_box_event order fmt _ e He).
  - apply Forall_singleton. simpl. tauto.
Qed.

Lemma visit_document_printing_invalid document box out :
  box ∈ document -> validate_box order t box = Return false ->
  (visit_document order fmt PrintVisitor.visitor t document out).2
  = (out ++ [[PrintVisitor.V_str "begin_visit"; PrintVisitor.V_document document]],
     Raise (NameError "box")).
Proof.
  intros Hbox Hv. rewrite (visit_document_run PrintVisitor.visitor order fmt t Ht).
  rewrite (reported_constructed order fmt t Ht).
  destruct (boxes_events_cons document box Hbox Hv) as (e & events & -> & He).
  rewrite fmap_cons, run_calls_cons. unfold and_then.
  change (dispatch PrintVisitor.visitor
            (call_of document (formatted order t document) Begin_visit) out)
    with (out ++ [[PrintVisitor.V_str "begin_visit";
                   PrintVisitor.V_document document]], @Return unit tt).
  cbv beta iota. rewrite <- app_comm_cons.
  by rewrite run_calls_printing_box_event.
Qed.
End PrintingTraversal.

(** X9: a traversal with a [PrintVisitor] goes through, printing one
    line per call, when every record of the document validates; when
    some record does not, it ends with [NameError] after the line for
    [begin_visit], whatever other problems the document has. *)
Theorem X9_print_visitor_traversal order fmt suffix spec t document out :
  (MetadataTemplate_init order suffix spec).2 = Return t ->
  let r := (visit_document order fmt PrintVisitor.visitor t document out).2 in
  ((forall box, box ∈ document -> validate_box order t box = Return true) ->
   r = (out ++ (printed document (formatted order t document)
                  <$> reported order fmt t document), Return tt))
  /\ ((exists box, box ∈ document /\ validate_box order t box = Return false) ->
      r = (out ++ [[PrintVisitor.V_str "begin_visit";
                    PrintVisitor.V_document document]],
           Raise (NameError "box"))).
Proof.
  intros Ht r. apply MetadataTemplate_init_constructed in Ht. subst r. split.
  - by apply visit_document_printing_valid.
  - intros (box & Hbox & Hv). by apply (visit_document_printing_invalid _ _ _ Ht _ box).
Qed.

Lemma X9_witness :
  let r := (visit_document CPython27.order format_default PrintVisitor.visitor
              (Examples.build Examples.catalogue) Examples.specimens []).2 in
  ((forall box, box ∈ Examples.specimens ->
      validate_box CPython27.order (Examples.build Examples.catalogue) box
      = Return true) ->
   r = ([] ++ (printed Examples.specimens
                 (formatted CPython27.order (Examples.build Examples.catalogue)
                            Examples.specimens)
                 <$> reported CPython27.order format_default
                       (Examples.build Examples.catalogue) Examples.specimens),
        Return tt))
  /\ ((exists box, box ∈ Examples.specimens
         /\ validate_box CPython27.order (Examples.build Examples.catalogue) box
            = Return false) ->
      r = ([] ++ [[PrintVisitor.V_str "begin_visit";
                   PrintVisitor.V_document Examples.specimens]],
           Raise (NameError "box"))).
Proof.
  apply (X9_print_visitor_traversal CPython27.order format_default any_suffix
           Examples.catalogue).
  vm_compute. reflexivity.
Defined.

(** ** Single-field validation *)

Section ValidateField.
Variable order : DictOrder.
Variable t : MetadataTemplate.
Hypothesis Ht : constructed order t.

Lemma truthy_false value : truthy value = false <-> value = "".
Proof.
  unfold truthy. rewrite negb_false_iff. apply String.eqb_eq.
Qed.

Lemma dict_get_parse_mapping name :
  dict_get (_parse_mapping t) name
  = match dict_get (named_items (_fields t)) name with
    | Some f => Parser f
    | None => None
    end.
Proof.
  pose proof (named_items_NoDup order t Ht) as Hnd.
  destruct (dict_get (_parse_mapping t) name) as [p|] eqn:Hp.
  - apply (dict_get_Some _ _ _ (parse_mapping_NoDup order t Ht)) in Hp.
    apply (elem_of_parse_mapping order t Ht) in Hp as (f & Hf & Hn & Hfp).
    assert (Hg : dict_get (named_items (_fields t)) name = Some f).
    { apply dict_get_Some; [done|]. by apply elem_of_named_items. }
    by rewrite Hg.
  - destruct (dict_get (named_items (_fields t)) name) as [f|] eqn:Hg; [|done].
    apply (dict_get_Some _ _ _ Hnd), elem_of_named_items in Hg as [Hf Hn].
    destruct (Parser f) as [p|] eqn:Hfp; [|done].
    assert (Hin : (name, p) ∈ _parse_mapping t).
    { apply (elem_of_parse_mapping order t Ht). eauto. }
    apply (dict_get_Some _ _ _ (parse_mapping_NoDup order t Ht)) in Hin. congruence.
Qed.

Lemma validate_field_spec name value :
  exists b, validate_field t name value = Return b
    /\ (b = false <-> field_rejects t name value).
Proof.
  unfold validate_field, field_rejects.
  rewrite (constructed_fields_mapping _ _ Ht), named_items_keys.
  pose proof (named_items_NoDup order t Ht) as Hnd.
  case_bool_decide as Hdecl.
  { exists true. split; [done|]. split; [done|].
    intros (f & Hf & Hn & _). destruct Hdecl. by apply names_of_elem with (f := f). }
  apply list_elem_of_omap in Hdecl as (f & Hf & Hn).
  assert (Hunique : forall g, g ∈ _fields t -> Name g = Some name -> g = f).
  { intros g Hg Hgn. by apply (field_by_name order t Ht g f name). }
  destruct (truthy value) eqn:Hvalue.
  - assert (Hne : value ≠ "").
    { intros ->. by vm_compute in Hvalue. }
    cbn [negb andb]. rewrite dict_get_parse_mapping.
    assert (Hg : dict_get (named_items (_fields t)) name = Some f).
    { apply dict_get_Some; [done|]. by apply elem_of_named_items. }
    rewrite Hg. destruct (Parser f) as [parse|] eqn:Hp.
    + unfold call_parser. destruct (parse value) as [v|] eqn:Hpv.
      * exists true. split; [done|]. split; [done|].
        intros (g & Hgf & Hgn & [[? _]|(_ & p' & Hp' & Hv')]); [done|].
        rewrite (Hunique g Hgf Hgn) in Hp'. congruence.
      * exists false. split; [done|]. split; [|done]. intros _.
        exists f. repeat split; try done. right. eauto.
    + exists true. split; [done|]. split; [done|].
      intros (g & Hgf & Hgn & [[? _]|(_ & p' & Hp' & _)]); [done|].
      rewrite (Hunique g Hgf Hgn) in Hp'. congruence.
  - apply truthy_false in Hvalue. subst value. cbn [negb andb].
    case_bool_decide as Hm.
    + exists false. split; [done|]. split; [|done]. intros _.
      apply (elem_of_mandatory order t Ht) in Hm as (g & Hgf & Hgn & Hgm).
      exists g. repeat split; try done. by left.
    + exists true. split; [done|]. split; [done|].
      intros (g & Hgf & Hgn & [[_ Hgm]|[? _]]); [|done].
      destruct Hm. apply (elem_of_mandatory order t Ht). eauto.
Qed.


Lemma empty_value_disagreement box f name parse :
  f ∈ _fields t -> Name f = Some name -> Parser f = Some parse ->
  Mandatory f ≠ Some true -> parse "" = None ->
  fields box !! name = Some "" ->
  validate_field t name "" = Return true
  /\ validate_box order t box = Return false.
Proof.
  intros Hf Hn Hp Hm Hfail Hv. split.
  - destruct (validate_field_spec name "") as ([] & Hb & Hiff); [done|].
    exfalso.
    destruct (proj1 Hiff eq_refl) as (g & Hg & Hgn & [[_ Hgm]|[? _]]); [|done].
    by rewrite (field_by_name order t Ht g f name) in Hgm.
  - destruct (validate_box_outcome order t Ht box) as [Htrue|Hfalse]; [|done].
    apply (validate_box_true order t Ht) in Htrue as [_ Hpp].
    destruct (Hpp f name parse "" Hf Hn Hp Hv) as [? ?]. congruence.
Qed.
End ValidateField.





(** X12: the two validators treat an empty value differently: for a
    field that is not mandatory and whose parser fails on the empty
    string, [validate_field] accepts the empty value without parsing it,
    while [validate_box] parses it and rejects every record that holds
    it. *)
Theorem X12_empty_value_of_a_parsed_field
    order suffix spec t box f name parse :
  (MetadataTemplate_init order suffix spec).2 = Return t ->
  f ∈ _fields t -> Name f = Some name -> Parser f = Some parse ->
  Mandatory f ≠ Some true -> parse "" = None ->
  fields box !! name = Some "" ->
  validate_field t name "" = Return true
  /\ validate_box order t box = Return false.
Proof.
  intros Ht. apply MetadataTemplate_init_constructed in Ht.
  by apply empty_value_disagreement.
Qed.

Lemma X12_witness :
  validate_field (Examples.build Examples.catalogue) "count" "" = Return true
  /\ validate_box CPython27.order (Examples.build Examples.catalogue)
       (Examples.box [("catalogNumber", "X123"); ("count", "")])
     = Return false.
Proof.
  apply (X12_empty_value_of_a_parsed_field CPython27.order any_suffix
           Examples.catalogue (Examples.build Examples.catalogue)
           (Examples.box [("catalogNumber", "X123"); ("count", "")])
           (Examples.number_field "count") "count" parse_int).
  - vm_compute. reflexivity.
  - apply list_elem_of_In. vm_compute. auto.
  - reflexivity.
  - reflexivity.
  - discriminate.
  - reflexivity.
  - vm_compute. reflexivity.
Defined.


(** ** Field names *)

Lemma value_field_name_ne n : value_field_name n ≠ n.
Proof.
  unfold value_field_name. intros H. apply (f_equal String.length) in H.
  rewrite string_length_append in H. simpl in H. lia.
Qed.

Lemma elem_of_field_names t x :
  x ∈ field_names t
  <-> x ∈ names_of (_fields t)
      \/ exists f n, f ∈ _fields t /\ Name f = Some n
           /\ is_Some (ChoicesWithData f) /\ x = value_field_name n.
Proof.
  unfold field_names, names_of.
  rewrite list_elem_of_In, in_flat_map, list_elem_of_omap. split.
  - intros (f & Hf%list_elem_of_In & Hx). destruct (Name f) as [n|] eqn:Hn; [|done].
    destruct Hx as [<-|Hx]; [left; eauto|].
    case_bool_decide as Hc; [|done]. destruct Hx as [<-|[]]. right. eauto 10.
  - intros [(f & Hf & Hn)|(f & n & Hf & Hn & Hc & ->)];
      exists f; (split; [by apply list_elem_of_In|]); rewrite Hn.
    + by left.
    + right. rewrite bool_decide_eq_true_2 by done. by left.
Qed.

Lemma flat_map_field_names_NoDup (l : list FieldSpec) :
  Forall (fun f => is_Some (Name f)) l ->
  NoDup (names_of l) ->
  (forall f n, f ∈ l -> Name f = Some n -> is_Some (ChoicesWithData f) ->
               value_field_name n ∉ names_of l) ->
  NoDup (flat_map (fun field =>
                     match Name field with
                     | Some n =>
                         n :: (if bool_decide (is_Some (ChoicesWithData field))
                               then [value_field_name n] else [])
                     | None => []
                     end) l).
Proof.
  induction l as [|f l IH]; intros Hnamed Hnd Hvf; [constructor|].
  apply Forall_cons in Hnamed as [[n Hn] Hnamed].
  assert (Hnames : names_of (f :: l) = n :: names_of l).
  { unfold names_of. simpl. by rewrite Hn. }
  rewrite Hnames in Hnd. apply NoDup_cons in Hnd as [Hn_l Hnd].
  assert (Hvf_l : forall g m, g ∈ l -> Name g = Some m -> is_Some (ChoicesWithData g) ->
                    value_field_name m ∉ names_of l).
  { intros g m Hg Hm Hc Hin. apply (Hvf g m); [by right|done|done|].
    rewrite Hnames. by right. }
  specialize (IH Hnamed Hnd Hvf_l).
  assert (Hrest : forall x,
            x ∈ flat_map (fun field =>
                            match Name field with
                            | Some n =>
                                n :: (if bool_decide (is_Some (ChoicesWithData field))
                                      then [value_field_name n] else [])
                            | None => []
                            end) l ->
            x ∈ names_of l
            \/ exists g m, g ∈ l /\ Name g = Some m /\ is_Some (ChoicesWithData g)
                 /\ x = value_field_name m).
  { intros x Hx. apply list_elem_of_In, in_flat_map in Hx as (g & Hg%list_elem_of_In & Hx).
    destruct (Name g) as [m|] eqn:Hm; [|done].
    destruct Hx as [<-|Hx]; [left; by apply names_of_elem with (f := g)|].
    case_bool_decide as Hc; [|done]. destruct Hx as [<-|[]]. right. eauto 10. }
  cbn [flat_map]. rewrite Hn. apply NoDup_app. split; [|split; [|done]].
  - case_bool_decide as Hc; [|apply NoDup_singleton].
    apply NoDup_cons. split; [|apply NoDup_singleton].
    intros Heq%list_elem_of_singleton. symmetry in Heq.
    by apply value_field_name_ne in Heq.
  - intros x Hx Hin. apply Hrest in Hin.
    apply elem_of_cons in Hx as [->|Hx].
    + destruct Hin as [Hin|(g & m & Hg & Hm & Hc & Heq)]; [done|].
      apply (Hvf g m); [by right|done|done|]. rewrite Hnames, <- Heq. left.
    + case_bool_decide as Hc; [|by apply elem_of_nil in Hx].
      apply list_elem_of_singleton in Hx. subst x.
      destruct Hin as [Hin|(g & m & Hg & Hm & Hcg & Heq)].
      * apply (Hvf f n); [left|done|done|]. rewrite Hnames. by right.
      * apply value_field_name_inj in Heq. subst m.
        apply Hn_l. by apply names_of_elem with (f := g).
Qed.

Lemma names_sublist_field_names (l : list FieldSpec) :
  names_of l
  `sublist_of` flat_map (fun field =>
                           match Name field with
                           | Some n =>
                               n :: (if bool_decide (is_Some (ChoicesWithData field))
                                     then [value_field_name n] else [])
                           | None => []
                           end) l.
Proof.
  unfold names_of. induction l as [|f l IH]; simpl; [constructor|].
  destruct (Name f) as [n|]; simpl; [|done].
  apply sublist_skip. case_bool_decide; simpl; [by apply sublist_cons | done].
Qed.

(** X13: for a template that the constructor returned, [field_names()]
    yields no name twice; it yields the declared names, in declared
    order, and the derived name of every ['ChoicesWithData'] field, and
    nothing else. *)
Theorem X13_field_names order suffix spec t :
  (MetadataTemplate_init order suffix spec).2 = Return t ->
  NoDup (field_names t)
  /\ names_of (_fields t) `sublist_of` field_names t
  /\ forall x,
       x ∈ field_names t
       <-> x ∈ names_of (_fields t)
           \/ exists f n, f ∈ _fields t /\ Name f = Some n
                /\ is_Some (ChoicesWithData f) /\ x = value_field_name n.
Proof.
  intros Ht. apply MetadataTemplate_init_constructed in Ht.
  split; [|split].
  - apply flat_map_field_names_NoDup.
    + apply (constructed_named _ _ Ht).
    + apply (constructed_NoDup _ _ Ht).
    + apply (constructed_value_field _ _ Ht).
  - apply names_sublist_field_names.
  - apply elem_of_field_names.
Qed.

Lemma X13_witness :
  NoDup (field_names (Examples.build Examples.sex))
  /\ names_of (_fields (Examples.build Examples.sex))
     `sublist_of` field_names (Examples.build Examples.sex)
  /\ forall x,
       x ∈ field_names (Examples.build Examples.sex)
       <-> x ∈ names_of (_fields (Examples.build Examples.sex))
           \/ exists f n, f ∈ _fields (Examples.build Examples.sex)
                /\ Name f = Some n
                /\ is_Some (ChoicesWithData f) /\ x = value_field_name n.
Proof.
  apply (X13_field_names CPython27.order any_suffix Examples.sex).
  vm_compute. reflexivity.
Defined.

Example field_names_sex :
  field_names (Examples.build Examples.sex) = ["sex"; "sex-value"].
Proof. vm_compute. reflexivity. Qed.

(** ** The keys of derived metadata *)

Lemma derived_key_decidable t md k : derived_key t md k \/ ~ derived_key t md k.
Proof.
  unfold derived_key.
  destruct (existsb (fun f =>
                       match Name f with
                       | Some n => bool_decide (is_Some (derived_value md f))
                                   && bool_decide (k = value_field_name n)
                       | None => false
                       end) (_fields t)) eqn:E.
  - left. apply existsb_exists in E as (f & Hf%list_elem_of_In & H).
    destruct (Name f) as [n|] eqn:Hn; [|done].
    apply andb_true_iff in H as [H1%bool_decide_eq_true H2%bool_decide_eq_true].
    eauto 10.
  - right. intros (f & n & Hf & Hn & Hd & Hk).
    apply not_true_iff_false in E. apply E, existsb_exists.
    exists f. split; [by apply list_elem_of_In|]. rewrite Hn.
    by rewrite !bool_decide_eq_true_2.
Qed.

Lemma with_derived_entries_unique t md m1 m2 :
  with_derived_entries t md m1 -> with_derived_entries t md m2 -> m1 = m2.
Proof.
  intros [H1 H1'] [H2 H2']. apply map_eq. intros k.
  destruct (derived_key_decidable t md k) as [(f & n & Hf & Hn & [v Hv] & ->)|Hk].
  - by rewrite (H1 f n v Hf Hn Hv), (H2 f n v Hf Hn Hv).
  - by rewrite (H1' k Hk), (H2' k Hk).
Qed.

Lemma derived_key_field_name order t md k :
  constructed order t ->
  derived_key t md k -> k ∈ field_names t /\ k ∉ names_of (_fields t).
Proof.
  intros Ht (f & n & Hf & Hn & [v Hv] & ->).
  destruct (derived_value_Some _ _ _ Hv) as [_ Hc]. split.
  - apply elem_of_field_names. right. eauto 10.
  - by apply (constructed_value_field _ _ Ht f n).
Qed.

(** X14: the keys of the mapping that [box_metadata] returns are the
    keys of the record's fields and the derived names of the fields
    whose raw value matches a label; every key it adds is a name that
    [field_names()] yields and is not the name of a declared field. *)
Theorem X14_box_metadata_keys order suffix spec t box k :
  (MetadataTemplate_init order suffix spec).2 = Return t ->
  (is_Some ((box_metadata order t box).2 !! k)
   <-> is_Some (fields box !! k) \/ derived_key t (fields box) k)
  /\ (derived_key t (fields box) k ->
      k ∈ field_names t /\ k ∉ names_of (_fields t)).
Proof.
  intros Ht. apply MetadataTemplate_init_constructed in Ht.
  destruct (box_metadata_with_derived_entries order t Ht box) as [Hd Hother].
  split; [|by apply (derived_key_field_name order)].
  destruct (derived_key_decidable t (fields box) k)
    as [(f & n & Hf & Hn & [v Hv] & ->)|Hk].
  - rewrite (Hd f n v Hf Hn Hv). split; [|eauto].
    intros _. right. exists f, n. eauto 10.
  - rewrite (Hother k Hk). tauto.
Qed.

Lemma X14_witness :
  (is_Some ((box_metadata CPython27.order (Examples.build Examples.sex)
               (Examples.box [("sex", "M")])).2 !! "sex-value")
   <-> is_Some (fields (Examples.box [("sex", "M")]) !! "sex-value")
       \/ derived_key (Examples.build Examples.sex)
            (fields (Examples.box [("sex", "M")])) "sex-value")
  /\ (derived_key (Examples.build Examples.sex)
        (fields (Examples.box [("sex", "M")])) "sex-value" ->
      "sex-value" ∈ field_names (Examples.build Examples.sex)
      /\ "sex-value" ∉ names_of (_fields (Examples.build Examples.sex))).
Proof.
  apply (X14_box_metadata_keys CPython27.order any_suffix Examples.sex).
  vm_compute. reflexivity.
Defined.

(** ** What does not depend on the order of the dicts *)

Section ReportedProblems.
Variable order : DictOrder.
Variable fmt : string -> gmap string string -> string.
Variable t : MetadataTemplate.
Hypothesis Ht : constructed order t.


End ReportedProblems.

Section TwoOrders.
Variables order1 order2 : DictOrder.
Variable fmt : string -> gmap string string -> string.
Variables t1 t2 : MetadataTemplate.
Hypothesis Ht1 : constructed order1 t1.
Hypothesis Ht2 : constructed order2 t2.
Hypothesis Hfields : _fields t1 = _fields t2.
Hypothesis Hlabel : _object_label t1 = _object_label t2.

Lemma with_derived_entries_fields md md' :
  with_derived_entries t1 md md' -> with_derived_entries t2 md md'.
Proof.
  unfold with_derived_entries, derived_key. by rewrite Hfields.
Qed.

Lemma box_metadata_two_orders box :
  box_metadata order1 t1 box = box_metadata order2 t2 box.
Proof.
  pose proof (box_metadata_with_derived_entries order1 t1 Ht1 box) as H1.
  pose proof (box_metadata_with_derived_entries order2 t2 Ht2 box) as H2.
  apply with_derived_entries_fields in H1.
  pose proof (with_derived_entries_unique _ _ _ _ H1 H2) as Heq.
  unfold box_metadata in *. cbn [fst snd] in Heq. by rewrite Heq.
Qed.

Lemma format_label_two_orders box :
  format_label order1 fmt t1 box = format_label order2 fmt t2 box.
Proof.
  unfold format_label. by rewrite box_metadata_two_orders, Hlabel.
Qed.

Lemma validate_box_two_orders box :
  validate_box order1 t1 box = validate_box order2 t2 box.
Proof.
  destruct (validate_box_spec order1 t1 Ht1 box) as (b1 & Hb1 & Hiff1).
  destruct (validate_box_spec order2 t2 Ht2 box) as (b2 & Hb2 & Hiff2).
  rewrite Hb1, Hb2. f_equal.
  unfold mandatory_given, present_parse in *. rewrite Hfields in Hiff1.
  destruct b1, b2; try done.
  - symmetry. apply Hiff2, Hiff1. done.
  - apply Hiff1, Hiff2. done.
Qed.

End TwoOrders.

Lemma MetadataTemplate_init_two_orders order1 order2 suffix spec t1 t2 :
  (MetadataTemplate_init order1 suffix spec).2 = Return t1 ->
  (MetadataTemplate_init order2 suffix spec).2 = Return t2 ->
  _fields t1 = _fields t2 /\ _object_label t1 = _object_label t2.
Proof.
  intros H1 H2.
  destruct (MetadataTemplate_init order1 suffix spec) as [s1 r1] eqn:E1.
  destruct (MetadataTemplate_init order2 suffix spec) as [s2 r2] eqn:E2.
  simpl in H1, H2. subst r1 r2.
  apply MetadataTemplate_init_Return in E1 as (fs1 & Hfs1 & _ & _ & _ & Hf1 & Hl1 & _).
  apply MetadataTemplate_init_Return in E2 as (fs2 & Hfs2 & _ & _ & _ & Hf2 & Hl2 & _).
  rewrite Hfs1 in Hfs2. injection Hfs2 as <-. split; congruence.
Qed.

(** X15: what [box_metadata], [format_label] and [validate_box] return
    does not depend on the order in which the interpreter's dicts yield
    their keys. *)
Theorem X15_results_do_not_depend_on_dict_order
    order1 order2 fmt suffix spec t1 t2 box :
  (MetadataTemplate_init order1 suffix spec).2 = Return t1 ->
  (MetadataTemplate_init order2 suffix spec).2 = Return t2 ->
  box_metadata order1 t1 box = box_metadata order2 t2 box
  /\ format_label order1 fmt t1 box = format_label order2 fmt t2 box
  /\ validate_box order1 t1 box = validate_box order2 t2 box.
Proof.
  intros H1 H2.
  destruct (MetadataTemplate_init_two_orders _ _ _ _ _ _ H1 H2) as [Hf Hl].
  apply MetadataTemplate_init_constructed in H1, H2.
  split; [|split].
  - by apply box_metadata_two_orders.
  - by apply format_label_two_orders.
  - by apply validate_box_two_orders.
Qed.

Lemma X15_witness :
  let t1 := Examples.build Examples.b_then_a in
  let t2 := match (MetadataTemplate_init insertion_order any_suffix
                     Examples.b_then_a).2 with
            | Return t => t
            | Raise _ => t1
            end in
  let box := Examples.box [("a", "x"); ("b", "y")] in
  box_metadata CPython27.order t1 box = box_metadata insertion_order t2 box
  /\ format_label CPython27.order format_default t1 box
     = format_label insertion_order format_default t2 box
  /\ validate_box CPython27.order t1 box = validate_box insertion_order t2 box.
Proof.
  apply (X15_results_do_not_depend_on_dict_order
           CPython27.order insertion_order format_default any_suffix
           Examples.b_then_a).
  - vm_compute. reflexivity.
  - vm_compute. reflexivity.
Defined.



(** With insertion order, the two [failed_parse] calls of the example
    come in declared order. *)
Example letters_reported_insertion_order :
  reported insertion_order format_default
    match (MetadataTemplate_init insertion_order any_suffix Examples.b_then_a).2 with
    | Return t => t
    | Raise _ => Examples.build Examples.b_then_a
    end Examples.letters
  = [Begin_visit; Failed_parse 0 "y" "b"; Failed_parse 0 "y" "a"; End_visit].
Proof. vm_compute. reflexivity. Qed.

(** ** The outcome of the constructor *)

Lemma store_OrderedDict_nil (fs : list FieldSpec) :
  store_OrderedDict <$> fs = [] <-> fs = [].
Proof. destruct fs; [done|]. split; discriminate. Qed.

(** The constructor after the checks of the fields have passed: what
    is left are the checks of the name, of the number of fields and of
    the suffix. *)
Lemma MetadataTemplate_init_checked order suffix spec :
  let fs := default [] (spec_Fields spec) in
  well_formed fs ->
  exists T : option string -> MetadataTemplate,
    (forall sfx, _name (T sfx) = default "" (spec_Name spec)
                 /\ _fields (T sfx) = store_OrderedDict <$> fs
                 /\ _cropped_image_suffix (T sfx) = sfx)
    /\ (MetadataTemplate_init order suffix spec).2
       = if negb (truthy_opt (spec_Name spec))
         then Raise (ValueError Msg_no_template_name)
         else if bool_decide (fs = []) then Raise (ValueError Msg_no_fields)
         else match spec_Cropped_file_suffix spec with
              | Some s =>
                  match suffix s with
                  | Some sfx => Return (T (Some sfx))
                  | None => Raise (ValueError (Msg_invalid_suffix s))
                  end
              | None => Return (T None)
              end.
Proof.
  intros fs Hwf.
  pose proof (proj2 (check_fields_Return fs) Hwf) as Hc.
  pose proof (well_formed_named _ Hwf) as Hnamed.
  assert (Hnamed' : Forall (fun f => is_Some (Name f)) (store_OrderedDict <$> fs)).
  { apply Forall_fmap. eapply Forall_impl; [exact Hnamed|]. by intros f. }
  eexists (fun sfx =>
    {| _name := default "" (spec_Name spec);
       _cropped_image_suffix := sfx;
       _fields := store_OrderedDict <$> fs;
       _object_label := _; _fields_mapping := _;
       _choices_with_data_mapping := _; _parse_mapping := _;
       _mandatory := _ |}).
  split; [by intros sfx|].
  assert (Hinit : (MetadataTemplate_init order suffix spec).2
    = (fields <- (_fields_from_template_spec fs).2 ;;
       if negb (truthy_opt (spec_Name spec)) then
         Raise (ValueError Msg_no_template_name)
       else if bool_decide (fields = []) then
         Raise (ValueError Msg_no_fields)
       else
         sfx <-
           match spec_Cropped_file_suffix spec with
           | Some s =>
               match suffix s with
               | Some sfx => Return (Some sfx)
               | None => Raise (ValueError (Msg_invalid_suffix s))
               end
           | None => Return None
           end ;;
         named <- mapM (fun f => n <- getitem_Name f ;; Return (n, f)) fields ;;
         let fields_mapping := dict_from_items named in
         Return
           {| _name := default "" (spec_Name spec);
              _cropped_image_suffix := sfx;
              _fields := fields;
              _object_label := default "{catalogNumber}" (spec_Object_label spec);
              _fields_mapping := fields_mapping;
              _choices_with_data_mapping :=
                dict_from_items
                  (filter (fun nf => is_Some (ChoicesWithData nf.2)) named);
              _parse_mapping :=
                dict_from_items
                  (omap (fun kv => pair kv.1 <$> Parser kv.2)
                        (iteritems order fields_mapping));
              _mandatory :=
                (filter (fun nf => Mandatory nf.2 = Some true) named).*1
           |})%py).
  { unfold MetadataTemplate_init. subst fs.
    destruct (spec_Fields spec) as [fs|]; [|reflexivity].
    change (default [] (Some fs)) with fs.
    by destruct (_fields_from_template_spec fs). }
  rewrite Hinit. unfold _fields_from_template_spec. rewrite Hc.
  cbn [snd obind].
  destruct (truthy_opt (spec_Name spec)); cbn [negb]; [|done].
  destruct (decide (fs = [])) as [Hnil|Hne].
  { rewrite Hnil. reflexivity. }
  rewrite !bool_decide_eq_false_2; [|done|by rewrite store_OrderedDict_nil].
  rewrite (mapM_named _ Hnamed').
  destruct (spec_Cropped_file_suffix spec) as [s|]; [|reflexivity].
  destruct (suffix s); reflexivity.
Qed.

Lemma MetadataTemplate_init_not_checked order suffix spec :
  ~ well_formed (default [] (spec_Fields spec)) ->
  exists e, check_fields (default [] (spec_Fields spec)) = Raise e
            /\ MetadataTemplate_init order suffix spec = (spec, Raise e).
Proof.
  intros Hwf. destruct (spec_Fields spec) as [fs|] eqn:Hfs; cbn [default] in *.
  - destruct (check_fields fs) as [[]|e] eqn:Hc.
    + by apply check_fields_Return in Hc.
    + exists e. split; [done|].
      by apply MetadataTemplate_init_check_Raise with (fs := fs).
  - destruct Hwf. by apply check_fields_Return.
Qed.

(** X17: the constructor returns a template exactly when the fields
    pass every check of [_fields_from_template_spec], there is at least
    one field, the specification has a non-empty name, and the cropped
    file suffix, if there is one, is accepted by [Path.with_suffix].
    The template then has the name of the specification, fields of
    the declared names in the declared order, and the suffix that
    pathlib computed, or none. *)
Theorem X17_constructor_returns_iff order suffix spec :
  let fs := default [] (spec_Fields spec) in
  ((exists t, (MetadataTemplate_init order suffix spec).2 = Return t)
   <-> well_formed fs /\ fs ≠ [] /\ truthy_opt (spec_Name spec) = true
       /\ (forall s, spec_Cropped_file_suffix spec = Some s -> is_Some (suffix s)))
  /\ (forall t, (MetadataTemplate_init order suffix spec).2 = Return t ->
        Some (_name t) = spec_Name spec
        /\ names_of (_fields t) = names_of fs
        /\ _cropped_image_suffix t = spec_Cropped_file_suffix spec ≫= suffix).
Proof.
  intros fs.
  assert (Hdec : well_formed fs \/ ~ well_formed fs).
  { rewrite <- check_fields_Return. destruct (check_fields fs) as [[]|e]; eauto. }
  destruct Hdec as [Hwf|Hwf].
  2:{ destruct (MetadataTemplate_init_not_checked order suffix spec Hwf)
        as (e & _ & ->).
      split; [|by intros t [=]]. split; [by intros [t [=]] | by intros [? _]]. }
  destruct (MetadataTemplate_init_checked order suffix spec Hwf) as (T & HT & ->).
  fold fs.
  destruct (spec_Name spec) as [name|] eqn:Hname; cbn [truthy_opt].
  2:{ cbn [negb]. split; [|by intros t [=]].
      split; [by intros [t [=]] | by intros (_ & _ & ? & _)]. }
  destruct (truthy name) eqn:Htruthy; cbn [negb].
  2:{ split; [|by intros t [=]].
      split; [by intros [t [=]] | by intros (_ & _ & ? & _)]. }
  case_bool_decide as Hnil.
  { split; [|by intros t [=]].
    split; [by intros [t [=]] | by intros (_ & ? & _)]. }
  destruct (spec_Cropped_file_suffix spec) as [s|] eqn:Hs; cbn [mbind option_bind].
  - destruct (suffix s) as [sfx|] eqn:Hsfx.
    + split.
      * split; [intros _|eauto]. do 3 (split; [done|]).
        intros s' [= <-]. rewrite Hsfx. eauto.
      * intros t [= <-]. destruct (HT (Some sfx)) as (-> & -> & ->).
        by rewrite names_of_store_OrderedDict.
    + split; [|by intros t [=]]. split; [by intros [t [=]]|].
      intros (_ & _ & _ & H). destruct (H s eq_refl) as [? ?]. congruence.
  - split.
    + split; [intros _|eauto]. by do 3 (split; [done|]).
    + intros t [= <-]. destruct (HT None) as (-> & -> & ->).
      by rewrite names_of_store_OrderedDict.
Qed.

Example catalogue_is_constructed :
  exists t, (MetadataTemplate_init CPython27.order any_suffix Examples.catalogue).2
            = Return t.
Proof. eexists. vm_compute. reflexivity. Qed.

(** X18: when the fields pass the checks, the constructor raises only a
    [ValueError] with one of three messages, and each for one reason:
    'No template name' when the name is missing or empty, also when
    there are no fields; 'No fields' when there is a name and the list
    of fields is missing or empty; 'Invalid cropped file suffix' when
    there are a name and fields and pathlib refuses the suffix. *)
Theorem X18_constructor_errors order suffix spec e :
  let fs := default [] (spec_Fields spec) in
  well_formed fs ->
  (MetadataTemplate_init order suffix spec).2 = Raise e
  <-> (e = ValueError Msg_no_template_name /\ truthy_opt (spec_Name spec) = false)
      \/ (e = ValueError Msg_no_fields
          /\ truthy_opt (spec_Name spec) = true /\ fs = [])
      \/ (exists s, e = ValueError (Msg_invalid_suffix s)
          /\ truthy_opt (spec_Name spec) = true /\ fs ≠ []
          /\ spec_Cropped_file_suffix spec = Some s /\ suffix s = None).
Proof.
  intros fs Hwf.
  destruct (MetadataTemplate_init_checked order suffix spec Hwf) as (T & _ & ->).
  fold fs.
  destruct (truthy_opt (spec_Name spec)); cbn [negb].
  2:{ split; [intros [= <-]; by left|].
      intros [[-> _]|[(_ & ? & _)|(s & _ & ? & _)]]; done. }
  case_bool_decide as Hnil.
  { split; [intros [= <-]; right; by left|].
    intros [[_ ?]|[(-> & _)|(s & _ & _ & ? & _)]]; done. }
  destruct (spec_Cropped_file_suffix spec) as [s|].
  - destruct (suffix s) as [sfx|] eqn:Hsfx.
    + split; [done|].
      intros [[_ ?]|[(_ & _ & ?)|(s' & _ & _ & _ & [= <-] & ?)]]; congruence.
    + split; [intros [= <-]; do 2 right; by exists s|].
      intros [[_ ?]|[(_ & _ & ?)|(s' & -> & _ & _ & [= <-] & _)]]; done.
  - split; [done|].
    intros [[_ ?]|[(_ & _ & ?)|(s' & _ & _ & _ & ? & _)]]; done.
Qed.

Lemma X18_witness :
  (MetadataTemplate_init CPython27.order any_suffix Examples.sex_unnamed).2
    = Raise (ValueError Msg_no_template_name)
  <-> (ValueError Msg_no_template_name = ValueError Msg_no_template_name
       /\ truthy_opt (spec_Name Examples.sex_unnamed) = false)
      \/ (ValueError Msg_no_template_name = ValueError Msg_no_fields
          /\ truthy_opt (spec_Name Examples.sex_unnamed) = true
          /\ default [] (spec_Fields Examples.sex_unnamed) = [])
      \/ (exists s, ValueError Msg_no_template_name = ValueError (Msg_invalid_suffix s)
          /\ truthy_opt (spec_Name Examples.sex_unnamed) = true
          /\ default [] (spec_Fields Examples.sex_unnamed) ≠ []
          /\ spec_Cropped_file_suffix Examples.sex_unnamed = Some s
          /\ any_suffix s = None).
Proof.
  apply (X18_constructor_errors CPython27.order any_suffix Examples.sex_unnamed).
  apply check_fields_Return. vm_compute. reflexivity.
Defined.

(** ** Which lists of fields are refused *)

Lemma well_formed_no_shadow fields n :
  well_formed fields -> n ∈ names_of fields -> ~ shadows_value_field fields n.
Proof.
  intros [_ Hok] Hn (f' & n' & Hf' & Hn' & [c Hc] & ->).
  rewrite Forall_forall in Hok.
  destruct (Hok f' Hf') as (_ & _ & _ & H).
  by destruct (H n' c Hn' Hc) as [Hv _].
Qed.

Lemma offending_violates fields n :
  offending fields n ->
  violates fields \/ (n ∈ names_of fields /\ shadows_value_field fields n).
Proof.
  intros [Hcount|(f & Hf & Hn & [Hb|[Hb|[Hb|Hs]]])].
  - left. right. left. intros Hnd.
    pose proof (proj1 (count_of_NoDup _) Hnd n). lia.
  - left. do 2 right. left. eauto.
  - left. do 3 right. left. eauto.
  - left. do 4 right. eauto.
  - right. split; [|done]. by apply names_of_elem with (f := f).
Qed.

(** X20: for a raw specification, the constructor refuses the fields,
    with the error for a field without a name or with an error that
    names fields, exactly when the list of fields has one of the
    defects that [_fields_from_template_spec] looks for: a field
    without a name, a repeated name, both vocabularies in one field, an
    empty vocabulary or a repeated label, or a field whose name is the
    derived name ["<name>-value"] of a field with ['ChoicesWithData'].
    The specification is then left as it was. *)
Theorem X20_fields_are_refused_iff order suffix spec :
  let fs := default [] (spec_Fields spec) in
  raw_fields fs ->
  (violates fs \/ exists n, n ∈ names_of fs /\ shadows_value_field fs n)
  <-> exists m,
        MetadataTemplate_init order suffix spec = (spec, Raise (ValueError m))
        /\ (m = Msg_no_field_name \/ named_fields m ≠ []).
Proof.
  intros fs Hraw. split.
  - intros Hbad.
    assert (Hwf : ~ well_formed fs).
    { intros Hwf. destruct Hbad as [Hbad|(n & Hn & Hs)].
      - by apply (well_formed_not_violates fs).
      - by apply (well_formed_no_shadow fs n). }
    destruct (MetadataTemplate_init_not_checked order suffix spec Hwf)
      as (e & Hc & ->).
    destruct (check_fields_Raise _ _ Hraw Hc) as (m & -> & Hm).
    exists m. split; [done|]. destruct Hm as [[-> _]|[Hne _]]; eauto.
  - intros (m & Hinit & Hm).
    destruct (check_fields fs) as [[]|e] eqn:Hc.
    + apply check_fields_Return in Hc.
      destruct (MetadataTemplate_init_checked order suffix spec Hc)
        as (T & _ & Hr).
      rewrite Hinit in Hr. cbn [snd] in Hr. exfalso. revert Hr.
      destruct (negb _); [intros [= ->]; by destruct Hm|].
      destruct (bool_decide _); [intros [= ->]; by destruct Hm|].
      destruct (spec_Cropped_file_suffix spec) as [s|]; [|done].
      destruct (suffix s); [done|]. intros [= ->]. by destruct Hm.
    + destruct (check_fields_Raise _ _ Hraw Hc) as (m' & -> & Hm').
      destruct Hm' as [[_ Hex]|[Hne Hoff]]; [left; by left|].
      destruct (named_fields m') as [|n l] eqn:Hl; [done|].
      destruct (offending_violates fs n) as [Hv|Hs]; [|by left|right; eauto].
      apply Hoff. left.
Qed.

(** [{Name: "sex", ChoicesWithData: ...}] and a field "sex-value". *)
Lemma X20_witness :
  let spec := Examples.template [Examples.sex_field; Examples.field "sex-value"] in
  (violates (default [] (spec_Fields spec))
   \/ exists n, n ∈ names_of (default [] (spec_Fields spec))
                /\ shadows_value_field (default [] (spec_Fields spec)) n)
  <-> exists m,
        MetadataTemplate_init CPython27.order any_suffix spec
        = (spec, Raise (ValueError m))
        /\ (m = Msg_no_field_name \/ named_fields m ≠ []).
Proof.
  apply (X20_fields_are_refused_iff CPython27.order any_suffix
           (Examples.template [Examples.sex_field; Examples.field "sex-value"])).
  intros f c Hf Hc. simpl in Hf.
  apply elem_of_cons in Hf as [->|Hf]; [injection Hc as <-; eauto|].
  apply elem_of_cons in Hf as [->|Hf]; [discriminate|].
  by apply elem_of_nil in Hf.
Defined.

Example value_field_refused :
  (MetadataTemplate_init CPython27.order any_suffix
     (Examples.template [Examples.sex_field; Examples.field "sex-value"])).2
  = Raise (ValueError (Msg_value_field "sex-value")).
Proof. vm_compute. reflexivity. Qed.

(** ** A specification that a constructor has seen *)

Lemma dict_setitem_not_nil {V} (d : pydict V) k v : dict_setitem d k v ≠ [].
Proof.
  destruct d as [|[k' v'] d]; simpl; [done|]. by destruct (decide (k = k')).
Qed.

Lemma dict_from_items_nil {V} (items : list (string * V)) :
  dict_from_items items = [] -> items = [].
Proof.
  unfold dict_from_items. destruct items as [|kv items]; [done|]. simpl.
  assert (H : forall (l : list (string * V)) d,
             d ≠ [] -> fold_left (fun d kv => dict_setitem d kv.1 kv.2) l d ≠ []).
  { induction l as [|x l IH]; simpl; [done|].
    intros d _. apply IH, dict_setitem_not_nil. }
  intros He. by apply H in He.
Qed.

(** Unpacking the keys of an [OrderedDict] into (label, data) raises
    the [ValueError] of the unpacking, and succeeds only when every key
    is a string of two characters. *)
Lemma mapM_unpack_pair_Raise l e :
  mapM unpack_pair l = Raise e -> e = ValueError Msg_unpack.
Proof.
  induction l as [|s l IH]; simpl; [done|].
  destruct s as [|a [|b [|c s]]]; simpl; try (by intros [= <-]).
  destruct (mapM unpack_pair l) as [ys|e'] eqn:E; simpl; [done|].
  intros [= <-]. by apply IH.
Qed.

Lemma mapM_unpack_pair_Return l ps :
  mapM unpack_pair l = Return ps -> Forall (fun s => String.length s = 2) l.
Proof.
  revert ps. induction l as [|s l IH]; intros ps; simpl; [constructor|].
  destruct s as [|a [|b [|c s]]]; simpl; try done.
  destruct (mapM unpack_pair l) as [ys|e'] eqn:E; simpl; [|done].
  intros _. constructor; [done | by eapply IH].
Qed.

(** On fields that passed the checks and were then processed, the checks
    pass again up to the loop over the fields with ['ChoicesWithData']. *)
Lemma check_fields_store_OrderedDict fs :
  well_formed fs ->
  check_fields (store_OrderedDict <$> fs)
  = for_each (store_OrderedDict <$> fs) (validate_choices_with_data (names_of fs)).
Proof.
  intros Hwf. pose proof (well_formed_named _ Hwf) as Hnamed.
  destruct Hwf as [Hnd Hok].
  assert (Hnamed' : Forall (fun f => is_Some (Name f)) (store_OrderedDict <$> fs)).
  { apply Forall_fmap. eapply Forall_impl; [exact Hnamed|]. by intros f. }
  unfold check_fields.
  rewrite (proj2 (existsb_no_name_false _) Hnamed').
  rewrite (mapM_getitem_Name _ Hnamed'), names_of_store_OrderedDict.
  cbn [obind]. rewrite bool_decide_eq_false_2.
  2:{ intros Hd. by apply Hd, duplicated_empty. }
  rewrite (proj2 (find_has_both_None _)).
  2:{ apply Forall_fmap. eapply Forall_impl; [exact Hok|].
      intros f (_ & Hb & _) [H1 H2]. apply Hb. split; [done|].
      simpl in H2. by apply fmap_is_Some in H2. }
  rewrite (proj2 (for_each_Return _ _)); [done|].
  apply Forall_fmap. eapply Forall_impl; [exact Hok|].
  intros f (Hn & _ & Hc & _). by apply validate_choices_Return.
Qed.

Lemma validate_choices_with_data_store_Raise names g e :
  field_ok names g ->
  validate_choices_with_data names (store_OrderedDict g) = Raise e ->
  e = ValueError Msg_unpack
  \/ exists n l, e = ValueError (Msg_duplicated_choices_with_data n l).
Proof.
  intros ([n Hn] & _ & _ & H).
  unfold validate_choices_with_data, getitem_Name.
  cbn [store_OrderedDict Name ChoicesWithData].
  destruct (ChoicesWithData g) as [c|] eqn:Hc; [|done].
  rewrite Hn. cbn [fmap option_fmap option_map obind].
  destruct (H n c Hn eq_refl) as (Hv & He & labels & Hl & Hnd).
  rewrite bool_decide_eq_false_2 by done.
  destruct (cwd_labels (to_OrderedDict c)) as [labels'|e'] eqn:Hl'; cbn [obind].
  - case_bool_decide; [intros [= <-]; right; eauto|].
    destruct (cwd_empty (to_OrderedDict c)) eqn:He'; [|done]. exfalso.
    destruct c as [ps|d]; simpl in He, He';
      apply bool_decide_eq_true in He'; apply dict_from_items_nil in He';
      subst; by rewrite bool_decide_eq_true_2 in He.
  - intros [= <-]. left. destruct c as [ps|d]; simpl in Hl'.
    + destruct (mapM unpack_pair _) eqn:E; simpl in Hl'; [done|].
      injection Hl' as <-. by apply mapM_unpack_pair_Raise in E.
    + destruct (mapM unpack_pair _) eqn:E; simpl in Hl'; [done|].
      injection Hl' as <-. by apply mapM_unpack_pair_Raise in E.
Qed.

Lemma validate_choices_with_data_store_list names g ps label :
  field_ok names g ->
  ChoicesWithData g = Some (CWD_list ps) ->
  label ∈ ps.*1 -> String.length label ≠ 2 ->
  validate_choices_with_data names (store_OrderedDict g) ≠ Return tt.
Proof.
  intros ([n Hn] & _ & _ & H) Hc Hl Hlen Hr.
  destruct (H n _ Hn Hc) as (_ & _ & labels & Hlab & Hnd).
  simpl in Hlab. injection Hlab as <-.
  pose proof (proj1 (validate_choices_with_data_Return names
                      (store_OrderedDict g) (ex_intro _ n Hn)) Hr) as Hr'.
  destruct (Hr' n (CWD_ordered (dict_from_items ps)) Hn) as (_ & _ & l & Hl' & _).
  { simpl. by rewrite Hc. }
  rewrite dict_from_items_NoDup in Hl' by done. simpl in Hl'.
  destruct (mapM unpack_pair (dict_keys ps)) as [qs|] eqn:E; [|done].
  apply mapM_unpack_pair_Return in E. rewrite Forall_forall in E.
  by apply E in Hl.
Qed.

(** X19: a specification cannot be used for a second template when one
    of its ['ChoicesWithData'] labels is not two characters long.  The
    first constructor call, once the fields have passed the checks,
    leaves ordered mappings in the caller's specification; a second
    call on that specification iterates a mapping where it expects
    pairs, unpacks each key into label and data, and raises
    [ValueError]: that of the unpacking, or the one for a repeated
    label when the keys of a field declared earlier are all two
    characters long and share a first character. *)
Theorem X19_specification_is_not_reusable order suffix spec fs f ps label :
  spec_Fields spec = Some fs ->
  well_formed fs ->
  f ∈ fs -> ChoicesWithData f = Some (CWD_list ps) ->
  label ∈ ps.*1 -> String.length label ≠ 2 ->
  let spec' := (MetadataTemplate_init order suffix spec).1 in
  exists m,
    MetadataTemplate_init order suffix spec' = (spec', Raise (ValueError m))
    /\ (m = Msg_unpack
        \/ exists n l, m = Msg_duplicated_choices_with_data n l).
Proof.
  intros Hfs Hwf Hf Hc Hl Hlen spec'.
  assert (Hspec' : spec_Fields spec' = Some (store_OrderedDict <$> fs)).
  { subst spec'. unfold MetadataTemplate_init, _fields_from_template_spec.
    by rewrite Hfs, (proj2 (check_fields_Return fs) Hwf). }
  pose proof (check_fields_store_OrderedDict fs Hwf) as Hcheck.
  pose proof Hwf as [_ Hok]. rewrite Forall_forall in Hok.
  destruct (for_each (store_OrderedDict <$> fs)
              (validate_choices_with_data (names_of fs))) as [[]|e] eqn:Hloop.
  - apply for_each_Return in Hloop. rewrite Forall_fmap, Forall_forall in Hloop.
    destruct (validate_choices_with_data_store_list
                (names_of fs) f ps label (Hok f Hf) Hc Hl Hlen).
    by apply Hloop.
  - apply for_each_Raise in Hloop as (g' & Hg' & Hr).
    apply list_elem_of_fmap in Hg' as (g & -> & Hg).
    apply validate_choices_with_data_store_Raise in Hr; [|by apply Hok].
    assert (Hinit : MetadataTemplate_init order suffix spec' = (spec', Raise e)).
    { by apply MetadataTemplate_init_check_Raise
        with (fs := store_OrderedDict <$> fs). }
    destruct Hr as [->|(n & l & ->)]; eexists; (split; [exact Hinit|]); eauto.
Qed.

Lemma X19_witness :
  let spec' :=
    (MetadataTemplate_init CPython27.order any_suffix Examples.sex).1 in
  exists m,
    MetadataTemplate_init CPython27.order any_suffix spec'
    = (spec', Raise (ValueError m))
    /\ (m = Msg_unpack
        \/ exists n l, m = Msg_duplicated_choices_with_data n l).
Proof.
  apply (X19_specification_is_not_reusable CPython27.order any_suffix
           Examples.sex [Examples.sex_field] Examples.sex_field
           [("M", "Male"); ("F", "Female")] "M").
  - reflexivity.
  - apply check_fields_Return. vm_compute. reflexivity.
  - apply list_elem_of_here.
  - reflexivity.
  - apply list_elem_of_here.
  - simpl. lia.
Defined.

Example sex_used_twice :
  (MetadataTemplate_init CPython27.order any_suffix
     (MetadataTemplate_init CPython27.order any_suffix Examples.sex).1).2
  = Raise (ValueError Msg_unpack).
Proof. vm_compute. reflexivity. Qed.

(** ** The message for repeated field names *)

#[local] Instance string_leb_total :
  Total (fun a b : string => Is_true (String.leb a b)).
Proof.
  intros a b. destruct (String.leb_total a b) as [H|H]; [left|right]; by rewrite H.
Qed.

(** X21: when every field has a name and some name is repeated, the
    constructor raises 'Duplicated fields' before it looks at anything
    else, leaves the specification as it was, and the message lists the
    names that occur more than once, each once, in ascending order. *)
Theorem X21_duplicated_fields_message order suffix spec :
  let fs := default [] (spec_Fields spec) in
  Forall (fun f => is_Some (Name f)) fs ->
  ~ NoDup (names_of fs) ->
  exists names,
    MetadataTemplate_init order suffix spec
    = (spec, Raise (ValueError (Msg_duplicated_fields names)))
    /\ Sorted (fun a b => String.leb a b) names
    /\ NoDup names
    /\ forall n, n ∈ names <-> 1 < count_of n (names_of fs).
Proof.
  intros fs Hnamed Hdup. subst fs.
  destruct (spec_Fields spec) as [fs|] eqn:Hfs.
  2:{ destruct Hdup. constructor. }
  change (default [] (Some fs)) with fs in *.
  exists (sorted (elements (duplicated (names_of fs)))). split; [|split; [|split]].
  - apply MetadataTemplate_init_check_Raise with (fs := fs); [done|].
    unfold check_fields.
    rewrite (proj2 (existsb_no_name_false _) Hnamed).
    rewrite (mapM_getitem_Name _ Hnamed). cbn [obind].
    rewrite bool_decide_eq_true_2; [done|].
    intros He. by apply Hdup, duplicated_empty.
  - apply Sorted_merge_sort. apply _.
  - unfold sorted. rewrite merge_sort_Permutation. apply NoDup_elements.
  - intros n. apply elem_of_sorted_duplicated.
Qed.

Lemma X21_witness :
  exists names,
    MetadataTemplate_init CPython27.order any_suffix Examples.repeated_name
    = (Examples.repeated_name, Raise (ValueError (Msg_duplicated_fields names)))
    /\ Sorted (fun a b => String.leb a b) names
    /\ NoDup names
    /\ forall n, n ∈ names
         <-> 1 < count_of n (names_of (default [] (spec_Fields Examples.repeated_name))).
Proof.
  apply (X21_duplicated_fields_message CPython27.order any_suffix
           Examples.repeated_name).
  - simpl. repeat constructor; by eexists.
  - simpl. intros Hnd. apply NoDup_cons in Hnd as [Hnin _]. apply Hnin. left.
Defined.

(** ** The mandatory fields *)

Lemma omap_sublist {A B} (f g : A -> option B) (l : list A) :
  (forall x y, f x = Some y -> g x = Some y) ->
  omap f l `sublist_of` omap g l.
Proof.
  intros Hfg. induction l as [|x l IH]; simpl; [constructor|].
  destruct (f x) as [y|] eqn:Hf.
  - rewrite (Hfg x y Hf). by constructor.
  - destruct (g x); [by constructor | done].
Qed.

(** X22: the list behind the [mandatory] property of a template holds
    the names of the fields of the specification whose ['Mandatory'] is
    true, each once, in the order in which the fields are declared. *)
Theorem X22_mandatory order suffix spec t :
  (MetadataTemplate_init order suffix spec).2 = Return t ->
  NoDup (_mandatory t)
  /\ _mandatory t `sublist_of` names_of (default [] (spec_Fields spec))
  /\ forall n, n ∈ _mandatory t
       <-> exists f, f ∈ default [] (spec_Fields spec)
                     /\ Name f = Some n /\ Mandatory f = Some true.
Proof.
  intros Hinit.
  pose proof (MetadataTemplate_init_constructed _ _ _ _ Hinit) as Ht.
  destruct (MetadataTemplate_init order suffix spec) as [spec' r] eqn:Hr.
  simpl in Hinit. subst r.
  destruct (MetadataTemplate_init_Return _ _ _ _ _ Hr)
    as (fs & Hfs & _ & _ & _ & Hfields & _).
  rewrite Hfs. change (default [] (Some fs)) with fs. split; [|split].
  - by apply (mandatory_NoDup order).
  - rewrite (mandatory_declared_order order t Ht), Hfields.
    rewrite <- (names_of_store_OrderedDict fs). unfold names_of.
    apply omap_sublist. intros f n. by destruct (decide _).
  - intros n. rewrite (elem_of_mandatory order t Ht), Hfields. split.
    + intros (f' & (f & -> & Hf)%list_elem_of_fmap & Hn & Hm). eauto.
    + intros (f & Hf & Hn & Hm). exists (store_OrderedDict f).
      split; [|done]. apply list_elem_of_fmap. eauto.
Qed.

Lemma X22_witness :
  let t := Examples.build Examples.catalogue in
  NoDup (_mandatory t)
  /\ _mandatory t `sublist_of` names_of (default [] (spec_Fields Examples.catalogue))
  /\ forall n, n ∈ _mandatory t
       <-> exists f, f ∈ default [] (spec_Fields Examples.catalogue)
                     /\ Name f = Some n /\ Mandatory f = Some true.
Proof.
  apply (X22_mandatory CPython27.order any_suffix Examples.catalogue).
  vm_compute. reflexivity.
Defined.
